(** * The build execution core of [src/build.cc], embedded in Rocq

    The development follows the layout of the source file:
    - [VizioLog]: the failure-label heuristic ([VizioLog::FormatTargetName]);
    - [Runner]: the admission rule of the real command runner and the dry-run
      runner;
    - [Plan]: the want map, the ready queue, the critical-path weights;
    - [Builder]: the start / finish life cycle of an edge and the driver loop.

    Objects the C++ code reaches through pointers ([Node*], [Edge*], [Pool*])
    live in stores indexed by identifiers; a function that writes through a
    pointer returns the updated store. *)

From stdpp Require Import gmap strings list fin_maps.
From Stdlib Require Import ZArith Lia.

Open Scope string_scope.

(** ** Strings as [std::string] *)

Module Str.

(** [s.substr(pos)]: the characters from [pos] to the end. *)
Fixpoint drop (n : nat) (s : string) : string :=
  match n, s with
  | O, _ => s
  | S n', String _ s' => drop n' s'
  | S _, EmptyString => EmptyString
  end.

(** [s.substr(0, n)]: the first [n] characters. *)
Fixpoint take (n : nat) (s : string) : string :=
  match n, s with
  | O, _ => EmptyString
  | S n', String c s' => String c (take n' s')
  | S _, EmptyString => EmptyString
  end.

(** [s.rfind(pat)]: the highest position where [pat] starts in [s], [None]
    standing for [string::npos]. *)
Fixpoint rfind (s pat : string) : option nat :=
  match s with
  | EmptyString => match pat with EmptyString => Some O | _ => None end
  | String _ s' =>
      match rfind s' pat with
      | Some p => Some (S p)
      | None => if String.prefix pat s then Some O else None
      end
  end.

(** [s.find(pat)]: the lowest position where [pat] starts in [s]. *)
Fixpoint find (s pat : string) : option nat :=
  if String.prefix pat s then Some O
  else match s with
       | EmptyString => None
       | String _ s' => option_map S (find s' pat)
       end.

(** [s.empty()]. *)
Definition empty (s : string) : bool :=
  match s with EmptyString => true | _ => false end.

(** [pat] occurs nowhere in [s]. *)
Definition absent (pat s : string) : Prop :=
  forall a b, s <> a +:+ pat +:+ b.

End Str.

(** ** [struct VizioLog] *)

Module VizioLog.

(** [string VizioLog::FormatTargetName(string name)]. *)
Definition FormatTargetName (name : string) : string :=
  match Str.rfind name "___" with
  | Some pos =>
      let name := Str.take pos name in
      match Str.rfind name "_" with
      | Some pos => Str.drop (pos + 1) name
      | None => name
      end
  | None => name
  end.

(** The heuristic as the specification words it: first the tail that starts
    at a [___] is cut off, then the leading [<prefix>_] segment. *)
Definition trim_tail (name : string) : string :=
  match Str.rfind name "___" with
  | Some pos => Str.take pos name
  | None => name
  end.

Definition trim_leading_prefix (name : string) : string :=
  match Str.find name "_" with
  | Some pos => Str.drop (pos + 1) name
  | None => name
  end.

Definition label_as_worded (name : string) : string :=
  trim_leading_prefix (trim_tail name).

End VizioLog.


Open Scope list_scope.
Open Scope Z_scope.

(** ** Machine integers *)

Module Int.

(** [size_t] and the other unsigned 64-bit values: reduction modulo 2^64. *)
Definition to_size_t (z : Z) : Z := z mod 2 ^ 64.

(** Conversion to a signed [w]-bit integer (two's complement). *)
Definition to_signed (w : Z) (z : Z) : Z :=
  let m := z mod 2 ^ w in
  if m <? 2 ^ (w - 1) then m else m - 2 ^ w.

Definition to_int (z : Z) : Z := to_signed 32 z.
Definition to_int64 (z : Z) : Z := to_signed 64 z.

Definition SIZE_MAX : Z := 2 ^ 64 - 1.

Definition is_int (z : Z) : Prop := - 2 ^ 31 <= z < 2 ^ 31.
Definition is_int64 (z : Z) : Prop := - 2 ^ 63 <= z < 2 ^ 63.

End Int.

(** ** The result of a call

    A call returns ([Ret]), stops at a failed [assert] ([AssertFailed]), or
    is cut off because the recursion budget of the model is spent
    ([OutOfFuel]); the C++ recursion has no such budget. *)

Inductive res (A : Type) : Type :=
  | Ret (a : A)
  | AssertFailed
  | OutOfFuel.
Arguments Ret {A} a.
Arguments AssertFailed {A}.
Arguments OutOfFuel {A}.

Definition res_bind {A B : Type} (m : res A) (k : A -> res B) : res B :=
  match m with
  | Ret a => k a
  | AssertFailed => AssertFailed
  | OutOfFuel => OutOfFuel
  end.

Notation "'let*' p := m 'in' k" := (res_bind m (fun p => k))
  (at level 10, p pattern, m at level 100, k at level 200).

(** ** The dependency graph ([graph.h], [state.h])

    Only the declarations of these structures are used by [build.cc]; the
    records list the members the code reads and writes. *)

Definition NodeId := nat.
Definition EdgeId := nat.
Definition PoolId := nat.

(** [TimeStamp] is a signed 64-bit integer. *)
Definition TimeStamp := Z.

Inductive VisitMark := VisitNone | VisitInStack | VisitDone.

#[global] Instance VisitMark_eq_dec : EqDecision VisitMark.
Proof. solve_decision. Defined.

Record Node := mkNode {
  path : string;
  mtime : TimeStamp;
  dirty : bool;
  dyndep_pending : bool;
  generated_by_dep_loader : bool;
  in_edge : option EdgeId;
  out_edges : list EdgeId;
}.

(** The bindings of an edge are stored evaluated: [GetBinding("deps")],
    [GetBindingBool("restat")], [GetUnescapedRspfile()] and so on. *)
Record Edge := mkEdge {
  rule_name : string;
  is_phony : bool;
  pool : PoolId;
  inputs_ : list NodeId;
  outputs_ : list NodeId;
  order_only_deps_ : nat;
  binding_deps : string;
  binding_msvc_deps_prefix : string;
  binding_restat : bool;
  binding_generator : bool;
  binding_rspfile_content : string;
  unescaped_rspfile : string;
  unescaped_depfile : string;
  command : string;
  use_console : bool;
  outputs_ready_ : bool;
  deps_missing_ : bool;
  mark_ : VisitMark;
  critical_path_weight_ : Z;
  command_start_time_ : TimeStamp;
}.

Record Pool := mkPool {
  pool_name : string;
  depth_ : Z;
  current_use_ : Z;
  delayed_ : list EdgeId;
}.

#[global] Instance Node_inhabited : Inhabited Node :=
  populate (mkNode "" 0 false false false None []).
#[global] Instance Edge_inhabited : Inhabited Edge :=
  populate (mkEdge "" false 0%nat [] [] 0%nat "" "" false false "" "" "" ""
                   false false false VisitNone (-1) 0).
#[global] Instance Pool_inhabited : Inhabited Pool :=
  populate (mkPool "" 0 0 []).

(** [struct State]: the owner of nodes, edges and pools. *)
Record State := mkState {
  nodes : gmap NodeId Node;
  edges : gmap EdgeId Edge;
  pools : gmap PoolId Pool;
}.

Definition node (g : State) (n : NodeId) : Node := nodes g !!! n.
Definition edge (g : State) (e : EdgeId) : Edge := edges g !!! e.
Definition pool_of (g : State) (p : PoolId) : Pool := pools g !!! p.

Definition update_node (n : NodeId) (f : Node -> Node) (g : State) : State :=
  mkState (<[n := f (node g n)]> (nodes g)) (edges g) (pools g).
Definition update_edge (e : EdgeId) (f : Edge -> Edge) (g : State) : State :=
  mkState (nodes g) (<[e := f (edge g e)]> (edges g)) (pools g).
Definition update_pool (p : PoolId) (f : Pool -> Pool) (g : State) : State :=
  mkState (nodes g) (edges g) (<[p := f (pool_of g p)]> (pools g)).

(** Setters for the members that [build.cc] writes. *)
Definition set_dirty (b : bool) (n : Node) : Node :=
  mkNode (path n) (mtime n) b (dyndep_pending n) (generated_by_dep_loader n)
         (in_edge n) (out_edges n).

Definition set_outputs_ready (b : bool) (e : Edge) : Edge :=
  mkEdge (rule_name e) (is_phony e) (pool e) (inputs_ e) (outputs_ e)
         (order_only_deps_ e) (binding_deps e) (binding_msvc_deps_prefix e)
         (binding_restat e) (binding_generator e) (binding_rspfile_content e)
         (unescaped_rspfile e) (unescaped_depfile e) (command e)
         (use_console e)
         b (deps_missing_ e) (mark_ e) (critical_path_weight_ e)
         (command_start_time_ e).

Definition set_mark (m : VisitMark) (e : Edge) : Edge :=
  mkEdge (rule_name e) (is_phony e) (pool e) (inputs_ e) (outputs_ e)
         (order_only_deps_ e) (binding_deps e) (binding_msvc_deps_prefix e)
         (binding_restat e) (binding_generator e) (binding_rspfile_content e)
         (unescaped_rspfile e) (unescaped_depfile e) (command e)
         (use_console e)
         (outputs_ready_ e) (deps_missing_ e) m (critical_path_weight_ e)
         (command_start_time_ e).

Definition set_critical_path_weight (w : Z) (e : Edge) : Edge :=
  mkEdge (rule_name e) (is_phony e) (pool e) (inputs_ e) (outputs_ e)
         (order_only_deps_ e) (binding_deps e) (binding_msvc_deps_prefix e)
         (binding_restat e) (binding_generator e) (binding_rspfile_content e)
         (unescaped_rspfile e) (unescaped_depfile e) (command e)
         (use_console e)
         (outputs_ready_ e) (deps_missing_ e) (mark_ e) w
         (command_start_time_ e).

Definition set_command_start_time (t : TimeStamp) (e : Edge) : Edge :=
  mkEdge (rule_name e) (is_phony e) (pool e) (inputs_ e) (outputs_ e)
         (order_only_deps_ e) (binding_deps e) (binding_msvc_deps_prefix e)
         (binding_restat e) (binding_generator e) (binding_rspfile_content e)
         (unescaped_rspfile e) (unescaped_depfile e) (command e)
         (use_console e)
         (outputs_ready_ e) (deps_missing_ e) (mark_ e)
         (critical_path_weight_ e) t.

(** Modelled from the spec: [Edge::AllInputsReady] ([graph.cc] is not among
    the sources).  "All inputs are ready": every input that has a producing
    edge has that edge's outputs ready. *)
Definition input_ready (g : State) (n : NodeId) : bool :=
  match in_edge (node g n) with
  | Some e => outputs_ready_ (edge g e)
  | None => true
  end.

Definition AllInputsReady (g : State) (e : EdgeId) : bool :=
  forallb (input_ready g) (inputs_ (edge g e)).

(** ** The priority queue of edges ([EdgePriorityQueue])

    Modelled from the spec: a queue of edges in descending
    [critical_path_weight], ties in insertion order ([graph.h] is not among
    the sources).  The list keeps the edges in insertion order; [top] is the
    first edge of greatest weight. *)

Module PQ.

Definition t := list EdgeId.

Definition push (e : EdgeId) (q : t) : t := q ++ [e].

Fixpoint top (weight : EdgeId -> Z) (q : t) : option EdgeId :=
  match q with
  | [] => None
  | e :: q' =>
      match top weight q' with
      | Some e' => if weight e <? weight e' then Some e' else Some e
      | None => Some e
      end
  end.

(** Removes the first occurrence of [e]. *)
Fixpoint remove1 (e : EdgeId) (q : t) : t :=
  match q with
  | [] => []
  | x :: q' => if decide (x = e) then q' else x :: remove1 e q'
  end.

Definition pop (weight : EdgeId -> Z) (q : t) : t :=
  match top weight q with
  | Some e => remove1 e q
  | None => q
  end.

End PQ.

Definition weight_of (g : State) (e : EdgeId) : Z :=
  critical_path_weight_ (edge g e).

(** ** Pools

    Modelled from the spec (section 4.1): [state.h] and [state.cc] are not
    among the sources.  A depth of 0 stands for an unlimited pool; every
    edge counts for one unit of the pool. *)

Module PoolOps.

(** "true when the pool has a finite depth and the in-flight count would
    exceed it if one more edge started". *)
Definition ShouldDelayEdge (p : Pool) : bool :=
  negb (depth_ p =? 0) && (depth_ p <? current_use_ p + 1).

(** "inserts into a priority queue ordered by critical-path weight". *)
Definition DelayEdge (e : EdgeId) (p : Pool) : Pool :=
  mkPool (pool_name p) (depth_ p) (current_use_ p) (PQ.push e (delayed_ p)).

(** "adjust the in-flight counter". *)
Definition EdgeScheduled (p : Pool) : Pool :=
  mkPool (pool_name p) (depth_ p) (current_use_ p + 1) (delayed_ p).

Definition EdgeFinished (p : Pool) : Pool :=
  mkPool (pool_name p) (depth_ p) (current_use_ p - 1) (delayed_ p).

(** "pops from the delay queue into the global ready queue while capacity
    permits".  [n] bounds the number of rounds by the length of the delay
    queue. *)
Fixpoint retrieve (weight : EdgeId -> Z) (n : nat) (p : Pool) (ready : PQ.t)
  : Pool * PQ.t :=
  match n with
  | O => (p, ready)
  | S n' =>
      match PQ.top weight (delayed_ p) with
      | None => (p, ready)
      | Some e =>
          if ShouldDelayEdge p then (p, ready)
          else
            let p' := mkPool (pool_name p) (depth_ p) (current_use_ p)
                             (PQ.pop weight (delayed_ p)) in
            retrieve weight n' (EdgeScheduled p') (PQ.push e ready)
      end
  end.

Definition RetrieveReadyEdges (weight : EdgeId -> Z) (p : Pool) (ready : PQ.t)
  : Pool * PQ.t :=
  retrieve weight (length (delayed_ p)) p ready.

End PoolOps.

(** ** Configuration ([struct BuildConfig]) and floating point

    [max_load_average] and the load average are [double]s.  The three
    operations [CanRunMore] performs on them are kept abstract. *)

Class Floating (double : Type) := {
  d_sub : double -> double -> double;
  (** [x > 0.0f] *)
  d_positive : double -> bool;
  (** the conversion of a [double] to [int] *)
  d_to_int : double -> Z;
}.

Inductive Verbosity := QUIET | NO_STATUS_UPDATE | NORMAL | VERBOSE.

Record BuildConfig (double : Type) := mkBuildConfig {
  verbosity : Verbosity;
  dry_run : bool;
  parallelism : Z;
  failures_allowed : Z;
  max_load_average : double;
  enable_bufferization : bool;
  logfiles_enabled : bool;
  logs_dir : string;
}.
Arguments mkBuildConfig {double}.
Arguments verbosity {double}.
Arguments dry_run {double}.
Arguments parallelism {double}.
Arguments failures_allowed {double}.
Arguments max_load_average {double}.
Arguments enable_bufferization {double}.
Arguments logfiles_enabled {double}.
Arguments logs_dir {double}.

(** ** The plan ([struct Plan]) *)

Inductive Want := kWantNothing | kWantToStart | kWantToFinish.

#[global] Instance Want_eq_dec : EqDecision Want.
Proof. solve_decision. Defined.

Inductive EdgeResult := kEdgeFailed | kEdgeSucceeded.

#[global] Instance EdgeResult_eq_dec : EqDecision EdgeResult.
Proof. solve_decision. Defined.

Record Plan := mkPlan {
  targets_ : list NodeId;
  want_ : gmap EdgeId Want;
  ready_ : PQ.t;
  command_edges_ : Z;
  wanted_edges_ : Z;
}.

(** ** Collaborators *)

Inductive ExitStatus := ExitSuccess | ExitFailure | ExitInterrupted.

#[global] Instance ExitStatus_eq_dec : EqDecision ExitStatus.
Proof. solve_decision. Defined.

(** [CommandRunner::Result]. *)
Record Result := mkResult {
  result_edge : EdgeId;
  result_status : ExitStatus;
  result_output : string;
  formatEdgeName : string;
}.

Definition success (r : Result) : bool :=
  bool_decide (result_status r = ExitSuccess).

(** [DyndepFile]: for each edge, the implicit inputs its dyndep file adds. *)
Definition DyndepFile := list (EdgeId * list NodeId).

Inductive ReadStatus := Okay | NotFound | OtherError.

(** What the status object is told, in the order of the calls. *)
Inductive StatusEvent :=
  | PlanHasTotalEdges (total : Z)
  | BuildStarted
  | BuildEdgeStarted (e : EdgeId) (start_time_millis : Z)
  | BuildEdgeFinished (e : EdgeId) (end_time_millis : Z) (ok : bool)
                      (output : string)
  | BuildLoadDyndeps
  | BuildFinished
  | StatusError (msg : string).

(** A call of [BuildLog::RecordCommand]. *)
Record LogRecord := mkLogRecord {
  log_edge : EdgeId;
  log_start_time : Z;
  log_end_time : Z;
  log_mtime : TimeStamp;
}.

(** A call of [DepsLog::RecordDeps]. *)
Record DepsRecord := mkDepsRecord {
  deps_output : NodeId;
  deps_mtime : TimeStamp;
  deps_nodes : list NodeId;
}.

(** The collaborators [build.cc] only calls: the disk, the clock, the
    dependency scan, the journals, the dependency parsers and the subprocess
    layer.  [X] is the state of that outside world.  An operation that takes
    a [string* err] maps the string it is given to the string it leaves. *)
Class Env (X double : Type) := {
  (* DiskInterface *)
  disk_Stat : string -> X -> string -> TimeStamp * string;
  disk_MakeDirs : string -> X -> bool * X;
  disk_WriteFile : string -> string -> X -> bool * X;
  disk_RemoveFile : string -> X -> Z * X;
  disk_ReadFile : string -> X -> string -> ReadStatus * string * string;
  (* util.h, metrics.h *)
  GetTimeMillis : X -> Z * X;
  GetLoadAverage : X -> double;
  strerror_errno : X -> string;
  g_keep_rsp : bool;
  g_keep_depfile : bool;
  (* DependencyScan *)
  scan_RecomputeDirty :
    NodeId -> State -> X -> string -> bool * list NodeId * State * X * string;
  scan_RecomputeOutputsDirty :
    EdgeId -> option NodeId -> State -> X -> string -> bool * bool * string;
  scan_LoadDyndeps :
    NodeId -> State -> X -> string -> bool * DyndepFile * State * X * string;
  (* BuildLog, DepsLog *)
  log_RecordCommand : LogRecord -> X -> bool * X;
  log_Close : X -> X;
  deps_RecordDeps : DepsRecord -> X -> bool * X;
  (* CLParser, DepfileParser, CanonicalizePath, State *)
  CLParser_Parse :
    string -> string -> string -> bool * string * list string * string;
  DepfileParser_Parse : string -> string -> bool * list string * string;
  CanonicalizePath : string -> string * Z;
  GetNode : string -> Z -> State -> NodeId * State;
  LookupNode : string -> State -> option NodeId;
  (* build.h: [Plan::more_to_do()] *)
  more_to_do : Plan -> bool;
  (* SubprocessSet and Subprocess *)
  subprocs_running : X -> list nat;
  subprocs_finished : X -> list nat;
  subprocs_Add : string -> bool -> bool -> string -> X -> option nat * X;
  subprocs_NextFinished : X -> option nat * X;
  subprocs_DoWork : X -> bool * X;
  subprocs_Clear : X -> X;
  subproc_Finish : nat -> X -> ExitStatus * X;
  subproc_GetOutput : nat -> X -> string;
  subproc_delete : nat -> X -> X;
  (* std::ofstream: a file is created with the given content *)
  ofstream_write : string -> string -> X -> X;
}.

(** ** The command runners *)

(** [struct DryRunCommandRunner]: [finished_]. *)
Definition DryRunCommandRunner := list EdgeId.

(** [struct RealCommandRunner]: [subproc_to_edge_]; the subprocess set is
    part of the outside world. *)
Definition RealCommandRunner := gmap nat EdgeId.

Inductive CommandRunner :=
  | DryRun (finished_ : DryRunCommandRunner)
  | Real (subproc_to_edge_ : RealCommandRunner).

(** ** The builder ([struct Builder]) *)

Record Builder (X double : Type) := mkBuilder {
  state_ : State;
  config_ : BuildConfig double;
  plan_ : Plan;
  command_runner_ : option CommandRunner;
  status_ : list StatusEvent;
  running_edges_ : gmap EdgeId Z;
  start_time_millis_ : Z;
  lock_file_path_ : string;
  (** [scan_.build_log()], null or the records handed to it so far *)
  build_log_ : option (list LogRecord);
  deps_log_ : list DepsRecord;
  failedEdges_ : list string;
  (** the outside world: disk, clock, journals on disk, subprocesses *)
  world : X;
  (** the string behind the [string* err] of the entry point *)
  err : string;
}.
Arguments mkBuilder {X double}.
Arguments state_ {X double}.
Arguments config_ {X double}.
Arguments plan_ {X double}.
Arguments command_runner_ {X double}.
Arguments status_ {X double}.
Arguments running_edges_ {X double}.
Arguments start_time_millis_ {X double}.
Arguments lock_file_path_ {X double}.
Arguments build_log_ {X double}.
Arguments deps_log_ {X double}.
Arguments failedEdges_ {X double}.
Arguments world {X double}.
Arguments err {X double}.

Section Setters.

Context {X double : Type}.
Implicit Type b : Builder X double.

Definition with_state (g : State) b : Builder X double :=
  mkBuilder g (config_ b) (plan_ b) (command_runner_ b) (status_ b)
            (running_edges_ b) (start_time_millis_ b) (lock_file_path_ b)
            (build_log_ b) (deps_log_ b) (failedEdges_ b) (world b) (err b).

Definition with_plan (p : Plan) b : Builder X double :=
  mkBuilder (state_ b) (config_ b) p (command_runner_ b) (status_ b)
            (running_edges_ b) (start_time_millis_ b) (lock_file_path_ b)
            (build_log_ b) (deps_log_ b) (failedEdges_ b) (world b) (err b).

Definition with_runner (r : option CommandRunner) b : Builder X double :=
  mkBuilder (state_ b) (config_ b) (plan_ b) r (status_ b)
            (running_edges_ b) (start_time_millis_ b) (lock_file_path_ b)
            (build_log_ b) (deps_log_ b) (failedEdges_ b) (world b) (err b).

Definition with_status (s : list StatusEvent) b : Builder X double :=
  mkBuilder (state_ b) (config_ b) (plan_ b) (command_runner_ b) s
            (running_edges_ b) (start_time_millis_ b) (lock_file_path_ b)
            (build_log_ b) (deps_log_ b) (failedEdges_ b) (world b) (err b).

Definition with_running_edges (m : gmap EdgeId Z) b : Builder X double :=
  mkBuilder (state_ b) (config_ b) (plan_ b) (command_runner_ b) (status_ b)
            m (start_time_millis_ b) (lock_file_path_ b)
            (build_log_ b) (deps_log_ b) (failedEdges_ b) (world b) (err b).

Definition with_build_log (l : option (list LogRecord)) b : Builder X double :=
  mkBuilder (state_ b) (config_ b) (plan_ b) (command_runner_ b) (status_ b)
            (running_edges_ b) (start_time_millis_ b) (lock_file_path_ b)
            l (deps_log_ b) (failedEdges_ b) (world b) (err b).

Definition with_deps_log (l : list DepsRecord) b : Builder X double :=
  mkBuilder (state_ b) (config_ b) (plan_ b) (command_runner_ b) (status_ b)
            (running_edges_ b) (start_time_millis_ b) (lock_file_path_ b)
            (build_log_ b) l (failedEdges_ b) (world b) (err b).

Definition with_failedEdges (l : list string) b : Builder X double :=
  mkBuilder (state_ b) (config_ b) (plan_ b) (command_runner_ b) (status_ b)
            (running_edges_ b) (start_time_millis_ b) (lock_file_path_ b)
            (build_log_ b) (deps_log_ b) l (world b) (err b).

Definition with_world (x : X) b : Builder X double :=
  mkBuilder (state_ b) (config_ b) (plan_ b) (command_runner_ b) (status_ b)
            (running_edges_ b) (start_time_millis_ b) (lock_file_path_ b)
            (build_log_ b) (deps_log_ b) (failedEdges_ b) x (err b).

Definition with_err (s : string) b : Builder X double :=
  mkBuilder (state_ b) (config_ b) (plan_ b) (command_runner_ b) (status_ b)
            (running_edges_ b) (start_time_millis_ b) (lock_file_path_ b)
            (build_log_ b) (deps_log_ b) (failedEdges_ b) (world b) s.

Definition tell (ev : StatusEvent) b : Builder X double :=
  with_status (status_ b ++ [ev]) b.

(** Setters of the plan. *)
Definition plan_with_targets (t : list NodeId) (p : Plan) : Plan :=
  mkPlan t (want_ p) (ready_ p) (command_edges_ p) (wanted_edges_ p).
Definition plan_with_want (m : gmap EdgeId Want) (p : Plan) : Plan :=
  mkPlan (targets_ p) m (ready_ p) (command_edges_ p) (wanted_edges_ p).
Definition plan_with_ready (q : PQ.t) (p : Plan) : Plan :=
  mkPlan (targets_ p) (want_ p) q (command_edges_ p) (wanted_edges_ p).
Definition plan_with_command_edges (n : Z) (p : Plan) : Plan :=
  mkPlan (targets_ p) (want_ p) (ready_ p) n (wanted_edges_ p).
Definition plan_with_wanted_edges (n : Z) (p : Plan) : Plan :=
  mkPlan (targets_ p) (want_ p) (ready_ p) (command_edges_ p) n.

End Setters.

(** ** Loops that stop at the first failure *)

(** [for (x : l) if (!f(x)) return false; return true;] *)
Fixpoint all_ok {A S : Type} (f : A -> S -> res (bool * S)) (l : list A)
    (s : S) : res (bool * S) :=
  match l with
  | [] => Ret (true, s)
  | a :: l' =>
      match f a s with
      | Ret (true, s') => all_ok f l' s'
      | Ret (false, s') => Ret (false, s')
      | AssertFailed => AssertFailed
      | OutOfFuel => OutOfFuel
      end
  end.

(** [for (x : l) f(x);] where [f] may stop at an [assert]. *)
Fixpoint for_each {A S : Type} (f : A -> S -> res S) (l : list A) (s : S)
    : res S :=
  match l with
  | [] => Ret s
  | a :: l' =>
      match f a s with
      | Ret s' => for_each f l' s'
      | AssertFailed => AssertFailed
      | OutOfFuel => OutOfFuel
      end
  end.

(** ** [Plan] *)

Module PlanOps.

Section WithEnv.

Context {X double : Type} `{!Env X double}.

Abbreviation B := (Builder X double).

Definition want_of (b : B) (e : EdgeId) : option Want := want_ (plan_ b) !! e.

Definition set_want (e : EdgeId) (w : Want) (b : B) : B :=
  with_plan (plan_with_want (<[e := w]> (want_ (plan_ b))) (plan_ b)) b.

Definition command_edge_count (b : B) : Z := command_edges_ (plan_ b).

(** [void Plan::Reset()] *)
Definition Reset (b : B) : B :=
  with_plan (mkPlan (targets_ (plan_ b)) ∅ [] 0 0) b.

(** [void Plan::EdgeWanted(const Edge* edge)] *)
Definition EdgeWanted (e : EdgeId) (b : B) : B :=
  let p := plan_ b in
  let p := plan_with_wanted_edges (Int.to_int (wanted_edges_ p + 1)) p in
  let p := if is_phony (edge (state_ b) e) then p
           else plan_with_command_edges (Int.to_int (command_edges_ p + 1)) p in
  with_plan p b.

(** [bool Plan::AddSubTarget(const Node* node, const Node* dependent,
    string* err, set<Edge*>* dyndep_walk)].  The walk set, when there is
    one, is returned with the builder. *)
Fixpoint AddSubTarget (fuel : nat) (n : NodeId) (dependent : option NodeId)
    (s : option (gset EdgeId) * B) : res (bool * (option (gset EdgeId) * B)) :=
  match fuel with
  | O => OutOfFuel
  | S fuel' =>
      let '(dyndep_walk, b) := s in
      let nd := node (state_ b) n in
      match in_edge nd with
      | None =>
          if dirty nd && negb (generated_by_dep_loader nd) then
            let referenced :=
              match dependent with
              | Some d => ", needed by '" +:+ path (node (state_ b) d) +:+ "',"
              | None => ""
              end in
            Ret (false, (dyndep_walk,
                   with_err ("'" +:+ path nd +:+ "'" +:+ referenced +:+
                             " missing and no known rule to make it") b))
          else Ret (false, (dyndep_walk, b))
      | Some e =>
          if outputs_ready_ (edge (state_ b) e) then
            Ret (false, (dyndep_walk, b))
          else
            (* want_.insert(make_pair(edge, kWantNothing)) *)
            let inserted := bool_decide (want_of b e = None) in
            let b := if inserted then set_want e kWantNothing b else b in
            let want := default kWantNothing (want_of b e) in
            if bool_decide (is_Some dyndep_walk)
               && bool_decide (want = kWantToFinish) then
              Ret (false, (dyndep_walk, b))
            else
              let b :=
                if dirty nd && bool_decide (want = kWantNothing) then
                  EdgeWanted e (set_want e kWantToStart b)
                else b in
              let dyndep_walk := (fun walk => {[e]} ∪ walk) <$> dyndep_walk in
              if negb inserted then Ret (true, (dyndep_walk, b))
              else
                all_ok
                  (fun i s =>
                     match AddSubTarget fuel' i (Some n) s with
                     | Ret (r, (walk, b')) =>
                         if negb r && negb (Str.empty (err b')) then
                           Ret (false, (walk, b'))
                         else Ret (true, (walk, b'))
                     | AssertFailed => AssertFailed
                     | OutOfFuel => OutOfFuel
                     end)
                  (inputs_ (edge (state_ b) e)) (dyndep_walk, b)
      end
  end.

(** [bool Plan::AddTarget(const Node* target, string* err)] *)
Definition AddTarget (fuel : nat) (target : NodeId) (b : B) : res (bool * B) :=
  let b := with_plan (plan_with_targets (targets_ (plan_ b) ++ [target])
                                        (plan_ b)) b in
  match AddSubTarget fuel target None (None, b) with
  | Ret (r, (_, b')) => Ret (r, b')
  | AssertFailed => AssertFailed
  | OutOfFuel => OutOfFuel
  end.

(** [Edge* Plan::FindWork()] *)
Definition FindWork (b : B) : option EdgeId * B :=
  match PQ.top (weight_of (state_ b)) (ready_ (plan_ b)) with
  | None => (None, b)
  | Some work =>
      (Some work,
       with_plan (plan_with_ready
                    (PQ.pop (weight_of (state_ b)) (ready_ (plan_ b)))
                    (plan_ b)) b)
  end.

(** [pool->RetrieveReadyEdges(&ready_)] *)
Definition RetrieveReadyEdges (pid : PoolId) (b : B) : B :=
  let '(p', ready') :=
    PoolOps.RetrieveReadyEdges (weight_of (state_ b)) (pool_of (state_ b) pid)
                               (ready_ (plan_ b)) in
  with_plan (plan_with_ready ready' (plan_ b))
            (with_state (update_pool pid (fun _ => p') (state_ b)) b).

(** [void Plan::ScheduleWork(map<Edge*, Want>::iterator want_e)]; the
    iterator is the key of the entry. *)
Definition ScheduleWork (e : EdgeId) (b : B) : res B :=
  match want_of b e with
  | Some kWantToFinish => Ret b
  | Some kWantToStart =>
      let b := set_want e kWantToFinish b in
      let pid := pool (edge (state_ b) e) in
      if PoolOps.ShouldDelayEdge (pool_of (state_ b) pid) then
        let b := with_state (update_pool pid (PoolOps.DelayEdge e) (state_ b)) b in
        Ret (RetrieveReadyEdges pid b)
      else
        let b := with_state (update_pool pid PoolOps.EdgeScheduled (state_ b)) b in
        Ret (with_plan (plan_with_ready (PQ.push e (ready_ (plan_ b)))
                                        (plan_ b)) b)
  | _ => AssertFailed
  end.

(** [bool Plan::EdgeMaybeReady(map<Edge*, Want>::iterator want_e,
    string* err)], over the function that finishes an edge. *)
Definition EdgeMaybeReady_
    (EdgeFinished : EdgeId -> EdgeResult -> B -> res (bool * B))
    (e : EdgeId) (b : B) : res (bool * B) :=
  if AllInputsReady (state_ b) e then
    match want_of b e with
    | None => AssertFailed
    | Some want =>
        if negb (bool_decide (want = kWantNothing)) then
          let* b' := ScheduleWork e b in Ret (true, b')
        else EdgeFinished e kEdgeSucceeded b
    end
  else Ret (true, b).

(** [void Plan::UnmarkDependents(const Node* node, set<Node*>* dependents)] *)
Fixpoint UnmarkDependents (fuel : nat) (n : NodeId)
    (s : gset NodeId * B) : res (gset NodeId * B) :=
  match fuel with
  | O => OutOfFuel
  | S fuel' =>
      for_each
        (fun oe '(dependents, b) =>
           match want_of b oe with
           | None => Ret (dependents, b)
           | Some _ =>
               if bool_decide (mark_ (edge (state_ b) oe) <> VisitNone) then
                 let b := with_state
                            (update_edge oe (set_mark VisitNone) (state_ b)) b in
                 for_each
                   (fun o '(dependents, b) =>
                      if bool_decide (o ∈ dependents) then Ret (dependents, b)
                      else UnmarkDependents fuel' o ({[o]} ∪ dependents, b))
                   (outputs_ (edge (state_ b) oe)) (dependents, b)
               else Ret (dependents, b)
           end)
        (out_edges (node (state_ s.2) n)) s
  end.

(** [bool Plan::RefreshDyndepDependents(DependencyScan* scan,
    const Node* node, string* err)] *)
Definition RefreshDyndepDependents (fuel : nat) (n : NodeId) (b : B)
    : res (bool * B) :=
  let* (dependents, b) := UnmarkDependents fuel n (∅, b) in
  all_ok
    (fun n b =>
       let '(ok, validation_nodes, g, x, e) :=
         scan_RecomputeDirty n (state_ b) (world b) (err b) in
       let b := with_err e (with_world x (with_state g b)) in
       if negb ok then Ret (false, b)
       else
         let* (r, b) := all_ok
             (fun v b =>
                match in_edge (node (state_ b) v) with
                | Some ie =>
                    if outputs_ready_ (edge (state_ b) ie) then Ret (true, b)
                    else AddTarget fuel v b
                | None => Ret (true, b)
                end) validation_nodes b in
         if negb r then Ret (false, b)
         else if negb (dirty (node (state_ b) n)) then Ret (true, b)
         else
           match in_edge (node (state_ b) n) with
           | None => AssertFailed
           | Some e =>
               if outputs_ready_ (edge (state_ b) e) then AssertFailed
               else
                 match want_of b e with
                 | None => AssertFailed
                 | Some kWantNothing =>
                     Ret (true, EdgeWanted e (set_want e kWantToStart b))
                 | Some _ => Ret (true, b)
                 end
           end)
    (elements dependents) b.

(** [bool Plan::DyndepsLoaded(DependencyScan* scan, const Node* node,
    const DyndepFile& ddf, string* err)] *)
Definition DyndepsLoaded_
    (EdgeFinished : EdgeId -> EdgeResult -> B -> res (bool * B))
    (fuel : nat) (n : NodeId) (ddf : DyndepFile) (b : B) : res (bool * B) :=
  let* (r, b) := RefreshDyndepDependents fuel n b in
  if negb r then Ret (false, b)
  else
    let dyndep_roots :=
      filter (fun oe => negb (outputs_ready_ (edge (state_ b) oe.1))
                        && bool_decide (is_Some (want_of b oe.1))) ddf in
    let* (r, s) := all_ok
        (fun (oe : EdgeId * list NodeId) s =>
           all_ok
             (fun i s =>
                match AddSubTarget fuel i (head (outputs_ (edge (state_ s.2) oe.1)))
                                   s with
                | Ret (r, (walk, b')) =>
                    if negb r && negb (Str.empty (err b')) then
                      Ret (false, (walk, b'))
                    else Ret (true, (walk, b'))
                | AssertFailed => AssertFailed
                | OutOfFuel => OutOfFuel
                end) oe.2 s)
        dyndep_roots (Some ∅, b) in
    let '(walk, b) := s in
    if negb r then Ret (false, b)
    else
      let dyndep_walk :=
        foldl (fun walk oe => if bool_decide (is_Some (want_of b oe))
                              then {[oe]} ∪ walk else walk)
              (default ∅ walk) (out_edges (node (state_ b) n)) in
      all_ok
        (fun wi b =>
           match want_of b wi with
           | None => Ret (true, b)
           | Some _ => EdgeMaybeReady_ EdgeFinished wi b
           end)
        (elements dyndep_walk) b.

(** [bool Builder::LoadDyndeps(Node* node, string* err)] *)
Definition LoadDyndeps_
    (EdgeFinished : EdgeId -> EdgeResult -> B -> res (bool * B))
    (fuel : nat) (n : NodeId) (b : B) : res (bool * B) :=
  let b := tell BuildLoadDyndeps b in
  let '(ok, ddf, g, x, e) :=
    scan_LoadDyndeps n (state_ b) (world b) (err b) in
  let b := with_err e (with_world x (with_state g b)) in
  if negb ok then Ret (false, b)
  else
    let* (r, b) := DyndepsLoaded_ EdgeFinished fuel n ddf b in
    if negb r then Ret (false, b)
    else Ret (true, tell (PlanHasTotalEdges (command_edge_count b)) b).

(** [bool Plan::NodeFinished(Node* node, string* err)] *)
Definition NodeFinished_
    (EdgeFinished : EdgeId -> EdgeResult -> B -> res (bool * B))
    (fuel : nat) (n : NodeId) (b : B) : res (bool * B) :=
  if dyndep_pending (node (state_ b) n) then
    LoadDyndeps_ EdgeFinished fuel n b
  else
    all_ok
      (fun oe b =>
         match want_of b oe with
         | None => Ret (true, b)
         | Some _ => EdgeMaybeReady_ EdgeFinished oe b
         end)
      (out_edges (node (state_ b) n)) b.

(** [bool Plan::EdgeFinished(Edge* edge, EdgeResult result, string* err)] *)
Fixpoint EdgeFinished (fuel : nat) (e : EdgeId) (result : EdgeResult) (b : B)
    : res (bool * B) :=
  match fuel with
  | O => OutOfFuel
  | S fuel' =>
      match want_of b e with
      | None => AssertFailed
      | Some want =>
          let directly_wanted := negb (bool_decide (want = kWantNothing)) in
          let pid := pool (edge (state_ b) e) in
          let b := if directly_wanted then
                     with_state (update_pool pid PoolOps.EdgeFinished (state_ b)) b
                   else b in
          let b := RetrieveReadyEdges pid b in
          if negb (bool_decide (result = kEdgeSucceeded)) then Ret (true, b)
          else
            let b := if directly_wanted then
                       with_plan (plan_with_wanted_edges
                                    (Int.to_int (wanted_edges_ (plan_ b) - 1))
                                    (plan_ b)) b
                     else b in
            let b := with_plan (plan_with_want (delete e (want_ (plan_ b)))
                                               (plan_ b)) b in
            let b := with_state
                       (update_edge e (set_outputs_ready true) (state_ b)) b in
            all_ok (NodeFinished_ (EdgeFinished fuel') fuel')
                   (outputs_ (edge (state_ b) e)) b
      end
  end.

Definition NodeFinished (fuel : nat) : NodeId -> B -> res (bool * B) :=
  NodeFinished_ (EdgeFinished fuel) fuel.

Definition EdgeMaybeReady (fuel : nat) : EdgeId -> B -> res (bool * B) :=
  EdgeMaybeReady_ (EdgeFinished fuel).

Definition DyndepsLoaded (fuel : nat)
    : NodeId -> DyndepFile -> B -> res (bool * B) :=
  DyndepsLoaded_ (EdgeFinished fuel) fuel.

Definition LoadDyndeps (fuel : nat) : NodeId -> B -> res (bool * B) :=
  LoadDyndeps_ (EdgeFinished fuel) fuel.

(** [bool Plan::CleanNode(DependencyScan* scan, Node* node, string* err)] *)
Definition most_recent_input (g : State) (ins : list NodeId) : option NodeId :=
  foldl (fun best i =>
           match best with
           | None => Some i
           | Some m => if mtime (node g m) <? mtime (node g i) then Some i
                       else Some m
           end) None ins.

Fixpoint CleanNode (fuel : nat) (n : NodeId) (b : B) : res (bool * B) :=
  match fuel with
  | O => OutOfFuel
  | S fuel' =>
      let b := with_state (update_node n (set_dirty false) (state_ b)) b in
      all_ok
        (fun oe b =>
           match want_of b oe with
           | None | Some kWantNothing => Ret (true, b)
           | Some _ =>
               if deps_missing_ (edge (state_ b) oe) then Ret (true, b)
               else
                 let ins := inputs_ (edge (state_ b) oe) in
                 let non_order_only :=
                   take (length ins - order_only_deps_ (edge (state_ b) oe)) ins in
                 if forallb (fun i => negb (dirty (node (state_ b) i)))
                            non_order_only then
                   let '(ok, outputs_dirty, e) :=
                     scan_RecomputeOutputsDirty
                       oe (most_recent_input (state_ b) non_order_only)
                       (state_ b) (world b) (err b) in
                   let b := with_err e b in
                   if negb ok then Ret (false, b)
                   else if negb outputs_dirty then
                     let* (r, b) := all_ok (CleanNode fuel')
                                      (outputs_ (edge (state_ b) oe)) b in
                     if negb r then Ret (false, b)
                     else
                       let b := set_want oe kWantNothing b in
                       let p := plan_ b in
                       let p := plan_with_wanted_edges
                                  (Int.to_int (wanted_edges_ p - 1)) p in
                       let p := if is_phony (edge (state_ b) oe) then p
                                else plan_with_command_edges
                                       (Int.to_int (command_edges_ p - 1)) p in
                       Ret (true, with_plan p b)
                   else Ret (true, b)
                 else Ret (true, b)
           end)
        (out_edges (node (state_ b) n)) b
  end.

(** [int64_t EdgeWeightHeuristic(Edge *edge)] *)
Definition EdgeWeightHeuristic (g : State) (e : EdgeId) : Z :=
  if is_phony (edge g e) then 0 else 1.

(** [targets_.erase(remove_if(..., SeenBefore<Node>(&seen)), ...)]: an item
    stays when it was not seen before. *)
Fixpoint remove_seen (seen : gset NodeId) (l : list NodeId) : list NodeId :=
  match l with
  | [] => []
  | x :: l' =>
      if bool_decide (x ∈ seen) then remove_seen seen l'
      else x :: remove_seen ({[x]} ∪ seen) l'
  end.

(** The state of the backflow: [work_queue], [active_edges] and the graph
    whose weights are written. *)
Record Backflow := mkBackflow {
  work_queue : list EdgeId;
  active_edges : gset EdgeId;
  bf_state : State;
}.

(** [if (!seen_edge(in)) work_queue.push(in);] *)
Definition push_unseen (e : EdgeId) (s : Backflow) : Backflow :=
  if bool_decide (e ∈ active_edges s) then s
  else mkBackflow (work_queue s ++ [e]) ({[e]} ∪ active_edges s) (bf_state s).

(** The body of the loop over the targets. *)
Definition seed_target (s : Backflow) (target : NodeId) : Backflow :=
  match in_edge (node (bf_state s) target) with
  | Some i =>
      let edge_weight := EdgeWeightHeuristic (bf_state s) i in
      let g := update_edge i
                 (set_critical_path_weight
                    (Z.max edge_weight (weight_of (bf_state s) i)))
                 (bf_state s) in
      push_unseen i (mkBackflow (work_queue s) (active_edges s) g)
  | None => s
  end.

(** The body of the loop over the inputs of the edge [e] taken from the
    queue. *)
Definition relax_input (e : EdgeId) (s : Backflow) (it : NodeId) : Backflow :=
  match in_edge (node (bf_state s) it) with
  | None => s
  | Some i =>
      let edge_weight := EdgeWeightHeuristic (bf_state s) i in
      let proposed_weight :=
        Int.to_int64 (weight_of (bf_state s) e + edge_weight) in
      if weight_of (bf_state s) i <? proposed_weight then
        let g := update_edge i (set_critical_path_weight proposed_weight)
                             (bf_state s) in
        push_unseen i (mkBackflow (work_queue s) (active_edges s) g)
      else s
  end.

(** [while (!work_queue.empty()) { ... }] *)
Fixpoint backflow (fuel : nat) (s : Backflow) : res State :=
  match work_queue s with
  | [] => Ret (bf_state s)
  | e :: rest =>
      match fuel with
      | O => OutOfFuel
      | S fuel' =>
          let s := mkBackflow rest (active_edges s ∖ {[e]}) (bf_state s) in
          backflow fuel' (foldl (relax_input e) s (inputs_ (edge (bf_state s) e)))
      end
  end.

(** [void Plan::ComputeCriticalPath()] *)
Definition ComputeCriticalPath (fuel : nat) (b : B) : res B :=
  let targets := remove_seen ∅ (targets_ (plan_ b)) in
  let b := with_plan (plan_with_targets targets (plan_ b)) b in
  let* g := backflow fuel (foldl seed_target (mkBackflow [] ∅ (state_ b)) targets) in
  Ret (with_state g b).

(** [void Plan::ScheduleInitialEdges()].  The want map is walked in the
    order of [map_to_list]. *)
Definition ScheduleInitialEdges (b : B) : res B :=
  if negb (bool_decide (ready_ (plan_ b) = [])) then AssertFailed
  else
    let* (pools, b) := for_each
        (fun (it : EdgeId * Want) '(pools, b) =>
           let e := it.1 in
           if negb (bool_decide (it.2 = kWantToStart)
                    && AllInputsReady (state_ b) e) then Ret (pools, b)
           else
             let pid := pool (edge (state_ b) e) in
             if PoolOps.ShouldDelayEdge (pool_of (state_ b) pid) then
               Ret ({[pid]} ∪ pools,
                    with_state (update_pool pid (PoolOps.DelayEdge e) (state_ b)) b)
             else
               let* b' := ScheduleWork e b in Ret (pools, b'))
        (map_to_list (want_ (plan_ b))) ((∅ : gset PoolId), b) in
    Ret (foldl (fun b pid => RetrieveReadyEdges pid b) b (elements pools)).

(** [void Plan::PrepareQueue()] *)
Definition PrepareQueue (fuel : nat) (b : B) : res B :=
  let* b := ComputeCriticalPath fuel b in
  ScheduleInitialEdges b.

End WithEnv.

End PlanOps.

(** ** The command runners *)

Module Runner.

Section WithEnv.

Context {X double : Type} `{!Floating double} `{!Env X double}.

Abbreviation B := (Builder X double).

(** [size_t RealCommandRunner::CanRunMore() const], as a function of what it
    reads: the configuration, the sizes of [subprocs_.running_] and
    [subprocs_.finished_], and the load average. *)
Definition RealCanRunMore (config : BuildConfig double)
    (running finished : nat) (load_average : double) : Z :=
  let subproc_number :=
    Int.to_size_t (Z.of_nat running + Z.of_nat finished) in
  let capacity :=
    Int.to_int64
      (Int.to_size_t (Int.to_size_t (parallelism config) - subproc_number)) in
  let capacity :=
    if d_positive (max_load_average config) then
      let load_capacity :=
        d_to_int (d_sub (max_load_average config) load_average) in
      if load_capacity <? capacity then load_capacity else capacity
    else capacity in
  let capacity := if capacity <? 0 then 0 else capacity in
  let capacity :=
    if (capacity =? 0) && bool_decide (running = 0%nat) then 1 else capacity in
  Int.to_size_t capacity.

(** [size_t CommandRunner::CanRunMore()], dispatched on the runner. *)
Definition CanRunMore (r : CommandRunner) (b : B) : Z :=
  match r with
  | DryRun _ => Int.SIZE_MAX
  | Real _ =>
      RealCanRunMore (config_ b)
                     (length (subprocs_running (world b)))
                     (length (subprocs_finished (world b)))
                     (GetLoadAverage (world b))
  end.

(** [bool CommandRunner::StartCommand(Edge* edge)] *)
Definition StartCommand (r : CommandRunner) (e : EdgeId) (b : B)
    : bool * CommandRunner * B :=
  match r with
  | DryRun finished => (true, DryRun (finished ++ [e]), b)
  | Real subproc_to_edge =>
      let ed := edge (state_ b) e in
      let cmd := command ed in
      let '(file_path, x) :=
        if logfiles_enabled (config_ b) then
          let file_path :=
            logs_dir (config_ b) +:+ "/" +:+
            VizioLog.FormatTargetName (rule_name ed) +:+ ".log" in
          (file_path,
           ofstream_write file_path
             ("Command: " +:+ cmd +:+ String (Ascii.ascii_of_nat 10)
                (String (Ascii.ascii_of_nat 10) "")) (world b))
        else ("", world b) in
      let '(subproc, x) :=
        subprocs_Add cmd (use_console ed) (enable_bufferization (config_ b))
                     file_path x in
      match subproc with
      | None => (false, r, with_world x b)
      | Some sp =>
          (true,
           Real (match subproc_to_edge !! sp with
                 | None => <[sp := e]> subproc_to_edge
                 | Some _ => subproc_to_edge
                 end),
           with_world x b)
      end
  end.

(** [while ((subproc = subprocs_.NextFinished()) == NULL) ...] *)
Fixpoint next_finished (fuel : nat) (x : X) : res (option nat * X) :=
  match subprocs_NextFinished x with
  | (Some sp, x) => Ret (Some sp, x)
  | (None, x) =>
      match fuel with
      | O => OutOfFuel
      | S fuel' =>
          let '(interrupted, x) := subprocs_DoWork x in
          if interrupted then Ret (None, x) else next_finished fuel' x
      end
  end.

(** [bool CommandRunner::WaitForCommand(Result* result)]; [result] is the
    freshly constructed [Result] of the caller. *)
Definition WaitForCommand (fuel : nat) (r : CommandRunner) (result : Result)
    (b : B) : res (bool * Result * CommandRunner * B) :=
  match r with
  | DryRun finished =>
      match finished with
      | [] => Ret (false, result, r, b)
      | e :: rest =>
          Ret (true,
               mkResult e ExitSuccess (result_output result)
                        (formatEdgeName result),
               DryRun rest, b)
      end
  | Real subproc_to_edge =>
      let* (subproc, x) := next_finished fuel (world b) in
      match subproc with
      | None => Ret (false, result, r, with_world x b)
      | Some sp =>
          let '(status, x) := subproc_Finish sp x in
          let output :=
            if enable_bufferization (config_ b) then subproc_GetOutput sp x
            else result_output result in
          match subproc_to_edge !! sp with
          | None => AssertFailed
          | Some e =>
              let result := mkResult e status output (formatEdgeName result) in
              let result :=
                if negb (success result) then
                  mkResult e status output
                    (VizioLog.FormatTargetName (rule_name (edge (state_ b) e)))
                else result in
              Ret (true, result, Real (delete sp subproc_to_edge),
                   with_world (subproc_delete sp x) b)
          end
      end
  end.

(** [vector<Edge*> CommandRunner::GetActiveEdges()] *)
Definition GetActiveEdges (r : CommandRunner) : list EdgeId :=
  match r with
  | DryRun _ => []
  | Real subproc_to_edge => (map_to_list subproc_to_edge).*2
  end.

(** [void CommandRunner::Abort()] *)
Definition Abort (r : CommandRunner) (b : B) : B :=
  match r with
  | DryRun _ => b
  | Real _ => with_world (subprocs_Clear (world b)) b
  end.

End WithEnv.

End Runner.

(** ** [Builder] *)

Module BuilderOps.

Section WithEnv.

Context {X double : Type} `{!Floating double} `{!Env X double}.

Abbreviation B := (Builder X double).

Definition cfg_failures_allowed (b : B) : Z := failures_allowed (config_ b).

Definition newline : string := String (Ascii.ascii_of_nat 10) "".
Definition quote : string := String (Ascii.ascii_of_nat 34) "".

(** [void Builder::Cleanup()] *)
Definition Cleanup (b : B) : B :=
  let b :=
    match command_runner_ b with
    | Some r =>
        let active_edges := Runner.GetActiveEdges r in
        let b := Runner.Abort r b in
        foldl
          (fun b e =>
             let depfile := unescaped_depfile (edge (state_ b) e) in
             let b :=
               foldl
                 (fun b o =>
                    let '(new_mtime, msg) :=
                      disk_Stat (path (node (state_ b) o)) (world b) "" in
                    let b := if new_mtime =? -1 then tell (StatusError msg) b
                             else b in
                    if negb (Str.empty depfile)
                       || negb (mtime (node (state_ b) o) =? new_mtime) then
                      with_world
                        (disk_RemoveFile (path (node (state_ b) o)) (world b)).2 b
                    else b)
                 b (outputs_ (edge (state_ b) e)) in
             if negb (Str.empty depfile) then
               with_world (disk_RemoveFile depfile (world b)).2 b
             else b)
          b active_edges
    | None => b
    end in
  if 0 <? (disk_Stat (lock_file_path_ b) (world b) "").1 then
    with_world (disk_RemoveFile (lock_file_path_ b) (world b)).2 b
  else b.

(** [bool Builder::AddTarget(Node* target, string* err)] *)
Definition AddTarget (fuel : nat) (target : NodeId) (b : B) : res (bool * B) :=
  let '(ok, validation_nodes, g, x, e) :=
    scan_RecomputeDirty target (state_ b) (world b) (err b) in
  let b := with_err e (with_world x (with_state g b)) in
  if negb ok then Ret (false, b)
  else
    let* (r, b) :=
      match in_edge (node (state_ b) target) with
      | Some ie =>
          if outputs_ready_ (edge (state_ b) ie) then Ret (true, b)
          else PlanOps.AddTarget fuel target b
      | None => PlanOps.AddTarget fuel target b
      end in
    if negb r then Ret (false, b)
    else
      all_ok
        (fun n b =>
           match in_edge (node (state_ b) n) with
           | Some vie =>
               if outputs_ready_ (edge (state_ b) vie) then Ret (true, b)
               else PlanOps.AddTarget fuel n b
           | None => Ret (true, b)
           end)
        validation_nodes b.

(** [Node* Builder::AddTarget(const string& name, string* err)] *)
Definition AddTargetByName (fuel : nat) (name : string) (b : B)
    : res (option NodeId * B) :=
  match LookupNode name (state_ b) with
  | None => Ret (None, with_err ("unknown target: '" +:+ name +:+ "'") b)
  | Some n =>
      res_bind (AddTarget fuel n b)
               (fun rb => Ret (if rb.1 then Some n else None, rb.2))
  end.

(** [bool Builder::AlreadyUpToDate() const] *)
Definition AlreadyUpToDate (b : B) : bool := negb (more_to_do (plan_ b)).

(** [void Builder::WriteFailedParts(vector<string>* failedEdges)] *)
Definition WriteFailedParts (failedEdges : list string) (b : B) : B :=
  let file_path := logs_dir (config_ b) +:+ "/failed_parts" in
  let error_string :=
    foldl (fun acc str => acc +:+ (str +:+ " ")) "" failedEdges in
  with_world (ofstream_write file_path error_string (world b)) b.

(** [bool Builder::StartEdge(Edge* edge, string* err)] *)
Definition StartEdge (e : EdgeId) (b : B) : res (bool * B) :=
  if is_phony (edge (state_ b) e) then Ret (true, b)
  else
    let '(now, x) := GetTimeMillis (world b) in
    let b := with_world x b in
    let start_time_millis := Int.to_int64 (now - start_time_millis_ b) in
    let b :=
      match running_edges_ b !! e with
      | None => with_running_edges (<[e := start_time_millis]> (running_edges_ b)) b
      | Some _ => b
      end in
    let b := tell (BuildEdgeStarted e start_time_millis) b in
    let* (r, s) := all_ok
        (fun o '(build_start, b) =>
           let '(ok, x) := disk_MakeDirs (path (node (state_ b) o)) (world b) in
           let b := with_world x b in
           if negb ok then Ret (false, (build_start, b))
           else if build_start =? -1 then
             let '(_, x) := disk_WriteFile (lock_file_path_ b) "" (world b) in
             let b := with_world x b in
             let '(build_start, msg) :=
               disk_Stat (lock_file_path_ b) (world b) (err b) in
             let b := with_err msg b in
             Ret (true, (if build_start =? -1 then 0 else build_start, b))
           else Ret (true, (build_start, b)))
        (outputs_ (edge (state_ b) e)) (-1, b) in
    let '(build_start, b) := s in
    if negb r then Ret (false, b)
    else
      let b := with_state
                 (update_edge e (set_command_start_time build_start) (state_ b))
                 b in
      let rspfile := unescaped_rspfile (edge (state_ b) e) in
      let '(ok, b) :=
        if negb (Str.empty rspfile) then
          let content := binding_rspfile_content (edge (state_ b) e) in
          let '(ok, x) := disk_WriteFile rspfile content (world b) in
          (ok, with_world x b)
        else (true, b) in
      if negb ok then Ret (false, b)
      else
        match command_runner_ b with
        | None => AssertFailed
        | Some r =>
            let '(ok, r, b) := Runner.StartCommand r e b in
            let b := with_runner (Some r) b in
            if negb ok then
              Ret (false,
                   with_err ("command '" +:+ command (edge (state_ b) e) +:+
                             "' failed.") b)
            else Ret (true, b)
        end.

(** [bool Builder::ExtractDeps(CommandRunner::Result* result,
    const string& deps_type, const string& deps_prefix,
    vector<Node*>* deps_nodes, string* err)]; [err] is the local
    [extract_err] of the caller and is returned with the result. *)
Definition ExtractDeps (result : Result) (deps_type deps_prefix : string)
    (deps_nodes : list NodeId) (extract_err : string) (b : B)
    : res (bool * Result * list NodeId * string * B) :=
  if String.eqb deps_type "msvc" then
    let '(ok, output, includes, e) :=
      CLParser_Parse (result_output result) deps_prefix extract_err in
    if negb ok then Ret (false, result, deps_nodes, e, b)
    else
      let result := mkResult (result_edge result) (result_status result)
                             output (formatEdgeName result) in
      let '(deps_nodes, g) :=
        foldl (fun '(acc, g) i =>
                 (* ~0u: all 32 bits of an unsigned int *)
                 let '(n, g) := GetNode i (Z.lnot 0 mod 2 ^ 32) g in
                 (acc ++ [n], g))
              (deps_nodes, state_ b) includes in
      Ret (true, result, deps_nodes, e, with_state g b)
  else if String.eqb deps_type "gcc" then
    let depfile := unescaped_depfile (edge (state_ b) (result_edge result)) in
    if Str.empty depfile then
      Ret (false, result, deps_nodes,
           "edge with deps=gcc but no depfile makes no sense", b)
    else
      let '(status, content, e) := disk_ReadFile depfile (world b) extract_err in
      match status with
      | OtherError => Ret (false, result, deps_nodes, e, b)
      | _ =>
          let e := match status with NotFound => "" | _ => e end in
          if Str.empty content then Ret (true, result, deps_nodes, e, b)
          else
            let '(ok, ins, e) := DepfileParser_Parse content e in
            if negb ok then Ret (false, result, deps_nodes, e, b)
            else
              let '(deps_nodes, g) :=
                foldl (fun '(acc, g) i =>
                         let '(p, slash_bits) := CanonicalizePath i in
                         let '(n, g) := GetNode p slash_bits g in
                         (acc ++ [n], g))
                      (deps_nodes, state_ b) ins in
              let b := with_state g b in
              if negb g_keep_depfile then
                let '(rc, x) := disk_RemoveFile depfile (world b) in
                let b := with_world x b in
                if rc <? 0 then
                  Ret (false, result, deps_nodes,
                       "deleting depfile: " +:+ strerror_errno (world b)
                         +:+ newline, b)
                else Ret (true, result, deps_nodes, e, b)
              else Ret (true, result, deps_nodes, e, b)
      end
  else AssertFailed.

(** The loop of [FinishCommand] over the outputs of a restat or generator
    rule: the state is [record_mtime], [node_cleaned] and the builder. *)
Definition restat_outputs (fuel : nat) (e : EdgeId) (restat : bool)
    (s : TimeStamp * bool * B) : res (bool * (TimeStamp * bool * B)) :=
  all_ok
    (fun o '(record_mtime, node_cleaned, b) =>
       let '(new_mtime, msg) :=
         disk_Stat (path (node (state_ b) o)) (world b) (err b) in
       let b := with_err msg b in
       if new_mtime =? -1 then Ret (false, (record_mtime, node_cleaned, b))
       else
         let record_mtime :=
           if record_mtime <? new_mtime then new_mtime else record_mtime in
         if (mtime (node (state_ b) o) =? new_mtime) && restat then
           let* (ok, b) := PlanOps.CleanNode fuel o b in
           if negb ok then Ret (false, (record_mtime, node_cleaned, b))
           else Ret (true, (record_mtime, true, b))
         else Ret (true, (record_mtime, node_cleaned, b)))
    (outputs_ (edge (state_ s.2) e)) s.

(** [bool Builder::FinishCommand(CommandRunner::Result* result, string* err)];
    the result is returned as the callee leaves it. *)
Definition FinishCommand (fuel : nat) (result : Result) (b : B)
    : res (bool * Result * B) :=
  let e := result_edge result in
  let deps_type := binding_deps (edge (state_ b) e) in
  let deps_prefix := binding_msvc_deps_prefix (edge (state_ b) e) in
  let* (result, deps_nodes, b) :=
    (if negb (Str.empty deps_type) then
       let* (ok, result, deps_nodes, extract_err, b) :=
         ExtractDeps result deps_type deps_prefix [] "" b in
       if negb ok && success result then
         let output := result_output result in
         let output := if negb (Str.empty output) then output +:+ newline
                       else output in
         Ret (mkResult (result_edge result) ExitFailure
                       (output +:+ extract_err) (formatEdgeName result),
              deps_nodes, b)
       else Ret (result, deps_nodes, b)
     else Ret (result, [], b)) in
  match running_edges_ b !! e with
  | None => AssertFailed
  | Some start_time_millis =>
      let '(now, x) := GetTimeMillis (world b) in
      let b := with_world x b in
      let end_time_millis := Int.to_int64 (now - start_time_millis_ b) in
      let b := with_running_edges (delete e (running_edges_ b)) b in
      let b := tell (BuildEdgeFinished e end_time_millis (success result)
                                       (result_output result)) b in
      if negb (success result) then
        let* (r, b) := PlanOps.EdgeFinished fuel e kEdgeFailed b in
        Ret (r, result, b)
      else
        let* (ok, s) :=
          (if negb (dry_run (config_ b)) then
             let restat := binding_restat (edge (state_ b) e) in
             let generator := binding_generator (edge (state_ b) e) in
             let record_mtime := command_start_time_ (edge (state_ b) e) in
             let* (ok, s) :=
               (if (record_mtime =? 0) || restat || generator then
                  restat_outputs fuel e restat (record_mtime, false, b)
                else Ret (true, (record_mtime, false, b))) in
             let '(record_mtime, node_cleaned, b) := s in
             if negb ok then Ret (false, (record_mtime, b))
             else if node_cleaned then
               Ret (true,
                    (command_start_time_ (edge (state_ b) e),
                     tell (PlanHasTotalEdges (PlanOps.command_edge_count b)) b))
             else Ret (true, (record_mtime, b))
           else Ret (true, (0, b))) in
        let '(record_mtime, b) := s in
        if negb ok then Ret (false, result, b)
        else
          let* (ok, b) := PlanOps.EdgeFinished fuel e kEdgeSucceeded b in
          if negb ok then Ret (false, result, b)
          else
            let rspfile := unescaped_rspfile (edge (state_ b) e) in
            let b := if negb (Str.empty rspfile) && negb g_keep_rsp then
                       with_world (disk_RemoveFile rspfile (world b)).2 b
                     else b in
            let* (ok, b) :=
              match build_log_ b with
              | Some records =>
                  let record := mkLogRecord e start_time_millis end_time_millis
                                            record_mtime in
                  let '(ok, x) := log_RecordCommand record (world b) in
                  let b := with_build_log (Some (records ++ [record]))
                                          (with_world x b) in
                  if negb ok then
                    Ret (false,
                         with_err ("Error writing to build log: " +:+
                                   strerror_errno (world b)) b)
                  else Ret (true, b)
              | None => Ret (true, b)
              end in
            if negb ok then Ret (false, result, b)
            else if negb (Str.empty deps_type) && negb (dry_run (config_ b)) then
              if bool_decide (outputs_ (edge (state_ b) e) = []) then AssertFailed
              else
                let* (ok, b) := all_ok
                    (fun o b =>
                       let '(deps_mtime, msg) :=
                         disk_Stat (path (node (state_ b) o)) (world b) (err b) in
                       let b := with_err msg b in
                       if deps_mtime =? -1 then Ret (false, b)
                       else
                         let record := mkDepsRecord o deps_mtime deps_nodes in
                         let '(ok, x) := deps_RecordDeps record (world b) in
                         let b := with_deps_log (deps_log_ b ++ [record])
                                                (with_world x b) in
                         if negb ok then
                           Ret (false,
                                with_err ("Error writing to deps log: " +:+
                                          strerror_errno (world b)) b)
                         else Ret (true, b))
                    (outputs_ (edge (state_ b) e)) b in
                Ret (ok, result, b)
            else Ret (true, result, b)
  end.

(** The inner loop of [Build]: [while (capacity > 0) { ... }].  The flag is
    [false] when [Build] returns [false] from inside the loop; the number is
    [pending_commands]. *)
Fixpoint start_commands (fuel0 fuel : nat) (capacity pending_commands : Z)
    (b : B) : res (bool * (Z * B)) :=
  if negb (0 <? capacity) then Ret (true, (pending_commands, b))
  else
    match fuel with
    | O => OutOfFuel
    | S fuel' =>
        let '(work, b) := PlanOps.FindWork b in
        match work with
        | None => Ret (true, (pending_commands, b))
        | Some e =>
            let* b := (if binding_generator (edge (state_ b) e) then
                   match build_log_ b with
                   | Some _ => Ret (with_world (log_Close (world b)) b)
                   | None => AssertFailed
                   end
                 else Ret b) in
            let* (ok, b) := StartEdge e b in
            if negb ok then
              Ret (false, (pending_commands, tell BuildFinished (Cleanup b)))
            else if is_phony (edge (state_ b) e) then
              let* (ok, b) := PlanOps.EdgeFinished fuel0 e kEdgeSucceeded b in
              if negb ok then
                Ret (false, (pending_commands, tell BuildFinished (Cleanup b)))
              else start_commands fuel0 fuel' capacity pending_commands b
            else
              let pending_commands := Int.to_int (pending_commands + 1) in
              let capacity := Int.to_size_t (capacity - 1) in
              match command_runner_ b with
              | None => AssertFailed
              | Some r =>
                  let current_capacity := Runner.CanRunMore r b in
                  let capacity := if current_capacity <? capacity
                                  then current_capacity else capacity in
                  start_commands fuel0 fuel' capacity pending_commands b
              end
        end
    end.

(** The message of [Build] when no progress is possible. *)
Definition no_progress_message (failures_allowed : Z) (b : B) : string :=
  if (failures_allowed =? 0) && negb (bool_decide (failedEdges_ b = [])) then
    let failedEdges :=
      foldl (fun acc str => acc +:+ (" " +:+ quote +:+ str +:+ quote +:+ " "))
            "" (failedEdges_ b) in
    if 1 <? cfg_failures_allowed b then
      "subcommands failed" +:+ newline +:+
      " ----- These parts have an errors: " +:+ failedEdges +:+ " -----"
    else
      "subcommand failed" +:+ newline +:+
      " ----- This part has an error: " +:+ failedEdges +:+ " -----"
  else if failures_allowed <? cfg_failures_allowed b then
    "cannot make progress due to previous errors"
  else "stuck [this is a bug]".

(** The clean exit of [Build]. *)
Definition build_done (b : B) : B := tell BuildFinished b.

(** The main loop of [Build]: [while (plan_.more_to_do()) { ... }]. *)
Fixpoint build_loop (fuel0 fuel : nat) (pending_commands failures_allowed : Z)
    (b : B) : res (bool * B) :=
  if negb (more_to_do (plan_ b)) then Ret (true, build_done b)
  else
    match fuel with
    | O => OutOfFuel
    | S fuel' =>
        (* See if we can start any more commands. *)
        let* (ok, s) :=
          (if negb (failures_allowed =? 0) then
             match command_runner_ b with
             | None => AssertFailed
             | Some r =>
                 start_commands fuel0 fuel0 (Runner.CanRunMore r b)
                                pending_commands b
             end
           else Ret (true, (pending_commands, b))) in
        let '(pending_commands, b) := s in
        if negb ok then Ret (false, b)
        else if negb (failures_allowed =? 0) && (pending_commands =? 0)
                && negb (more_to_do (plan_ b)) then
          Ret (true, build_done b)
        else if negb (pending_commands =? 0) then
          (* See if we can reap any finished commands. *)
          match command_runner_ b with
          | None => AssertFailed
          | Some r =>
              let* (ok, result, r, b) :=
                Runner.WaitForCommand fuel0 r (mkResult 0%nat ExitSuccess "" "") b in
              let b := with_runner (Some r) b in
              if negb ok || bool_decide (result_status result = ExitInterrupted)
              then
                Ret (false,
                     with_err "interrupted by user"
                              (tell BuildFinished (Cleanup b)))
              else
                let pending_commands := Int.to_int (pending_commands - 1) in
                let* (ok, result, b) := FinishCommand fuel0 result b in
                if negb ok then Ret (false, tell BuildFinished (Cleanup b))
                else
                  let '(failures_allowed, b) :=
                    if negb (success result) then
                      (if negb (failures_allowed =? 0)
                       then Int.to_int (failures_allowed - 1)
                       else failures_allowed,
                       with_failedEdges
                         (failedEdges_ b ++ [formatEdgeName result]) b)
                    else (failures_allowed, b) in
                  build_loop fuel0 fuel' pending_commands failures_allowed b
          end
        else
          (* If we get here, we cannot make any more progress. *)
          let b := tell BuildFinished b in
          let b := with_err (no_progress_message failures_allowed b) b in
          let b :=
            if (failures_allowed =? 0)
               && negb (bool_decide (failedEdges_ b = []))
               && logfiles_enabled (config_ b)
            then WriteFailedParts (failedEdges_ b) b else b in
          Ret (false, b)
    end.

(** [bool Builder::Build(string* err)].  The watcher thread that
    [RunLoggerProcess] may start only reads the subprocess set and writes to
    the terminal; it is left out. *)
Definition Build (fuel : nat) (b : B) : res (bool * B) :=
  if AlreadyUpToDate b then AssertFailed
  else
    let* b := PlanOps.PrepareQueue fuel b in
    let b := tell (PlanHasTotalEdges (PlanOps.command_edge_count b)) b in
    let b :=
      match command_runner_ b with
      | None =>
          with_runner (Some (if dry_run (config_ b) then DryRun []
                             else Real ∅)) b
      | Some _ => b
      end in
    let b := tell BuildStarted b in
    build_loop fuel fuel 0 (cfg_failures_allowed b) b.

End WithEnv.

End BuilderOps.

(** ** A small outside world

    A disk with time stamps, a clock, subprocesses that end at the first
    poll, and journals that accept every record.  It serves the worked
    examples below. *)

Module Sim.

Record Outside := mkOutside {
  (** the files that exist, with their time stamps *)
  files : gmap string TimeStamp;
  (** the paths under which no directory can be made *)
  no_dirs : list string;
  clock : Z;
  load_average : Z * positive;
  (** the commands that exit with a failure *)
  failing : list string;
  next_pid : nat;
  running : list nat;
  finished : list nat;
  commands : gmap nat string;
}.

Definition with_files (f : gmap string TimeStamp) (x : Outside) : Outside :=
  mkOutside f (no_dirs x) (clock x) (load_average x) (failing x) (next_pid x)
            (running x) (finished x) (commands x).

Definition with_procs (n : nat) (r f : list nat) (c : gmap nat string)
    (x : Outside) : Outside :=
  mkOutside (files x) (no_dirs x) (clock x) (load_average x) (failing x) n
            r f c.

Definition tick (x : Outside) : Outside :=
  mkOutside (files x) (no_dirs x) (clock x + 1) (load_average x) (failing x)
            (next_pid x) (running x) (finished x) (commands x).

(** Doubles as fractions [n / d]; the conversion to [int] truncates. *)
Definition double : Type := Z * positive.

#[global] Instance floating : Floating double := {|
  d_sub a b := (a.1 * Z.pos b.2 - b.1 * Z.pos a.2, (a.2 * b.2)%positive);
  d_positive a := 0 <? a.1;
  d_to_int a := Z.quot a.1 (Z.pos a.2);
|}.

#[global] Instance env : Env Outside double := {|
  disk_Stat p x e := (default 0 (files x !! p), e);
  disk_MakeDirs p x := (negb (bool_decide (p ∈ no_dirs x)), x);
  disk_WriteFile p _ x := (true, tick (with_files (<[p := clock x]> (files x)) x));
  disk_RemoveFile p x := (0, with_files (delete p (files x)) x);
  disk_ReadFile p x e :=
    match files x !! p with
    | Some _ => (Okay, "", e)
    | None => (NotFound, "", e)
    end;
  GetTimeMillis x := (clock x, tick x);
  GetLoadAverage x := load_average x;
  strerror_errno _ := "Input/output error";
  g_keep_rsp := false;
  g_keep_depfile := false;
  scan_RecomputeDirty _ g x e := (true, [], g, x, e);
  scan_RecomputeOutputsDirty _ _ _ _ e := (true, false, e);
  scan_LoadDyndeps n g x e :=
    (true, [],
     update_node n (fun nd => mkNode (path nd) (mtime nd) (dirty nd) false
                                     (generated_by_dep_loader nd) (in_edge nd)
                                     (out_edges nd)) g,
     x, e);
  log_RecordCommand _ x := (true, x);
  log_Close x := x;
  deps_RecordDeps _ x := (true, x);
  CLParser_Parse output _ e := (true, output, [], e);
  DepfileParser_Parse _ e := (true, [], e);
  CanonicalizePath p := (p, 0);
  GetNode _ _ g := (0%nat, g);
  LookupNode p g :=
    fst <$> head (filter (fun kv => bool_decide (path kv.2 = p))
                         (map_to_list (nodes g)));
  more_to_do p := (0 <? wanted_edges_ p) && (0 <? command_edges_ p);
  subprocs_running x := running x;
  subprocs_finished x := finished x;
  subprocs_Add cmd _ _ _ x :=
    (Some (next_pid x),
     with_procs (S (next_pid x)) (running x ++ [next_pid x]) (finished x)
                (<[next_pid x := cmd]> (commands x)) x);
  subprocs_NextFinished x :=
    match finished x with
    | [] => (None, x)
    | p :: rest => (Some p, with_procs (next_pid x) (running x) rest (commands x) x)
    end;
  subprocs_DoWork x :=
    (false, with_procs (next_pid x) [] (finished x ++ running x) (commands x) x);
  subprocs_Clear x := with_procs (next_pid x) [] [] (commands x) x;
  subproc_Finish p x :=
    (if bool_decide (default "" (commands x !! p) ∈ failing x)
     then ExitFailure else ExitSuccess, x);
  subproc_GetOutput _ _ := "";
  subproc_delete _ x := x;
  ofstream_write p _ x := with_files (<[p := clock x]> (files x)) x;
|}.

Definition outside0 : Outside :=
  mkOutside ∅ [] 100 (0, 1%positive) [] 1%nat [] [] ∅.

Definition config0 : BuildConfig double :=
  mkBuildConfig NORMAL false 4 1 (0, 1%positive) true false "logs".

Definition plan0 : Plan := mkPlan [] ∅ [] 0 0.

Definition builder0 (g : State) (cfg : BuildConfig double) (x : Outside)
    : Builder Outside double :=
  mkBuilder g cfg plan0 None [] ∅ 0 ".ninja_lock" (Some []) [] [] x "".

(** Nodes and edges of the examples. *)
Definition leaf (p : string) (is_dirty : bool) (outs : list EdgeId) : Node :=
  mkNode p 1 is_dirty false false None outs.

Definition built (p : string) (by_edge : EdgeId) (outs : list EdgeId) : Node :=
  mkNode p 0 true false false (Some by_edge) outs.

Definition rule (name cmd : string) (ins outs : list NodeId) : Edge :=
  mkEdge name false 0%nat ins outs 0%nat "" "" false false "" "" "" cmd
         false false false VisitNone (-1) 0.

Definition phony (ins outs : list NodeId) : Edge :=
  mkEdge "phony" true 0%nat ins outs 0%nat "" "" false false "" "" "" ""
         false false false VisitNone (-1) 0.

Definition default_pool : Pool := mkPool "" 0 0 [].

(** [a.o <- cc a.c]: node 0 is [a.c], node 1 is [a.o], edge 0 is [cc]. *)
Definition g_single : State :=
  mkState (list_to_map [(0%nat, leaf "a.c" false [0%nat]);
                        (1%nat, built "a.o" 0%nat [])])
          (list_to_map [(0%nat, rule "cc" "cc a.c" [0%nat] [1%nat])])
          (list_to_map [(0%nat, default_pool)]).

(** The plan of [g_single] while [cc] runs. *)
Definition b_running : Builder Outside double :=
  with_plan (mkPlan [1%nat] {[0%nat := kWantToFinish]} [] 1 1)
            (builder0 g_single config0 outside0).

(** A header found by the dependency loader, not on disk: node 0 is a dirty
    leaf that was generated by the dep loader. *)
Definition g_dep_leaf : State :=
  mkState (list_to_map [(0%nat, mkNode "gen.h" 0 true false true None [])])
          ∅ (list_to_map [(0%nat, default_pool)]).

(** [g_single] once [cc] has run: the outputs of edge 0 are ready. *)
Definition g_done : State :=
  update_edge 0%nat (set_outputs_ready true) g_single.

(** The builder of [g_single] after [AddTarget(a.o)]. *)
Definition b_added : Builder Outside double :=
  with_plan (mkPlan [1%nat] {[0%nat := kWantToStart]} [] 1 1)
            (builder0 g_single config0 outside0).

End Sim.

(** ** The admission rule, in words *)

Module CanRunMoreSpec.

Section WithDouble.

Context {double : Type} `{!Floating double}.

(** As the specification words it: the smaller of [parallelism - inflight]
    and [max_load_average - current_load_average], not below 0, and 1 when
    that is 0 and nothing is running. *)
Definition as_worded (config : BuildConfig double) (running finished : nat)
    (load_average : double) : Z :=
  let inflight := Z.of_nat running + Z.of_nat finished in
  let m := Z.min (parallelism config - inflight)
                 (d_to_int (d_sub (max_load_average config) load_average)) in
  let m := Z.max 0 m in
  if (m =? 0) && bool_decide (running = 0%nat) then 1 else m.

(** As the code has it: the load bound applies only when
    [max_load_average] is positive. *)
Definition amended (config : BuildConfig double) (running finished : nat)
    (load_average : double) : Z :=
  let inflight := Z.of_nat running + Z.of_nat finished in
  let m :=
    if d_positive (max_load_average config) then
      Z.min (parallelism config - inflight)
            (d_to_int (d_sub (max_load_average config) load_average))
    else parallelism config - inflight in
  let m := Z.max 0 m in
  if (m =? 0) && bool_decide (running = 0%nat) then 1 else m.

End WithDouble.

End CanRunMoreSpec.

(** ** Counts derived from the want map *)

Module Counts.

(** The entries whose [Want] is not [kWantNothing]. *)
Definition wanted (m : gmap EdgeId Want) : gmap EdgeId Want :=
  filter (fun kv => kv.2 <> kWantNothing) m.

(** Among them, the edges that are not phony. *)
Definition commands (g : State) (m : gmap EdgeId Want) : gmap EdgeId Want :=
  filter (fun kv => kv.2 <> kWantNothing /\ is_phony (edge g kv.1) = false) m.

Definition wanted_count (m : gmap EdgeId Want) : Z :=
  Z.of_nat (size (wanted m)).

Definition command_count (g : State) (m : gmap EdgeId Want) : Z :=
  Z.of_nat (size (commands g m)).

End Counts.

(** ** Outcomes of a call

    [wp strict Q m]: what the call [m] returns satisfies [Q]; when [strict],
    the call does return: it neither stops at an [assert] nor runs out of
    budget. *)
Definition wp {A : Type} (strict : bool) (Q : A -> Prop) (m : res A) : Prop :=
  match m with
  | Ret a => Q a
  | AssertFailed => strict = false
  | OutOfFuel => strict = false
  end.

Definition returns {A : Type} (m : res A) : Prop := exists a, m = Ret a.

(** No node of the graph waits for dyndep information. *)
Definition no_dyndep (g : State) : Prop :=
  forall n, dyndep_pending (node g n) = false.

(** Every producing edge a node names is an edge of the graph. *)
Definition edges_closed (g : State) : Prop :=
  forall n e, in_edge (node g n) = Some e -> is_Some (edges g !! e).

(** A target for which [Plan::AddSubTarget] has nothing to do. *)
Definition clean_leaf (g : State) (n : NodeId) : Prop :=
  in_edge (node g n) = None /\ dirty (node g n) = false.

Definition dep_loader_leaf (g : State) (n : NodeId) : Prop :=
  in_edge (node g n) = None /\ generated_by_dep_loader (node g n) = true.

Definition already_built (g : State) (n : NodeId) : Prop :=
  exists e, in_edge (node g n) = Some e /\ outputs_ready_ (edge g e) = true.

(** Entries of the want map stay; only a [kWantNothing] may change. *)
Definition want_grows (m m' : gmap EdgeId Want) : Prop :=
  forall e v, m !! e = Some v ->
    exists v', m' !! e = Some v' /\ (v <> kWantNothing -> v' = v).

(** The edges of the graph that have no want entry yet. *)
Definition unvisited {X double : Type} (b : Builder X double) : nat :=
  size (dom (edges (state_ b)) ∖ dom (want_ (plan_ b))).

(** What [Plan::AddSubTarget] leaves alone. *)
Definition same_but_want {X double : Type} (b b' : Builder X double) : Prop :=
  state_ b' = state_ b
  /\ want_grows (want_ (plan_ b)) (want_ (plan_ b'))
  /\ ready_ (plan_ b') = ready_ (plan_ b)
  /\ targets_ (plan_ b') = targets_ (plan_ b).

Section PlanStates.

Context {X double : Type} `{!Env X double}.
Implicit Type b : Builder X double.

(** The state in which [AddSubTarget] walks the inputs of the edge [e] of a
    node whose dirty flag is [d]: the entry of [e] exists and is wanted when
    the node is dirty. *)
Definition entered (e : EdgeId) (d : bool) b : Builder X double :=
  let b1 := if bool_decide (PlanOps.want_of b e = None)
            then PlanOps.set_want e kWantNothing b else b in
  if d && bool_decide (default kWantNothing (PlanOps.want_of b1 e) = kWantNothing)
  then PlanOps.EdgeWanted e (PlanOps.set_want e kWantToStart b1) else b1.

(** The builder with the target pushed onto [targets_]. *)
Definition pushed (t : NodeId) b : Builder X double :=
  with_plan (plan_with_targets (targets_ (plan_ b) ++ [t]) (plan_ b)) b.

End PlanStates.

(** ** The steps of a successful [Plan::EdgeFinished]

    Without dyndep, what [EdgeFinished(e, kEdgeSucceeded)] does after it
    checked its edge off is a sequence of two kinds of steps: an edge that is
    wanted and has all inputs ready is scheduled, an edge that is in the plan
    but not wanted is finished in turn.  Each step happens for a consumer
    of an output of an edge finished earlier; the set [F] records those. *)

Section FinishSteps.

Context {X double : Type} `{!Env X double}.
Implicit Type b : Builder X double.

(** The straight-line part of [EdgeFinished] for an edge whose entry is
    [want]: the pool is told and drained ... *)
Definition finish_pool (e : EdgeId) (want : Want) b : Builder X double :=
  let pid := pool (edge (state_ b) e) in
  let b := if negb (bool_decide (want = kWantNothing)) then
             with_state (update_pool pid PoolOps.EdgeFinished (state_ b)) b
           else b in
  PlanOps.RetrieveReadyEdges pid b.

(** ... and, on success, the edge is counted off, erased from the want map
    and marked ready. *)
Definition finish_erase (e : EdgeId) (want : Want) b : Builder X double :=
  let b := if negb (bool_decide (want = kWantNothing)) then
             with_plan (plan_with_wanted_edges
                          (Int.to_int (wanted_edges_ (plan_ b) - 1))
                          (plan_ b)) b
           else b in
  let b := with_plan (plan_with_want (delete e (want_ (plan_ b))) (plan_ b)) b in
  with_state (update_edge e (set_outputs_ready true) (state_ b)) b.

Definition finish_edge (e : EdgeId) (want : Want) b : Builder X double :=
  finish_erase e want (finish_pool e want b).

(** [e] consumes an output of an edge of [F]. *)
Definition fed_by (F : gset EdgeId) (g : State) (e : EdgeId) : Prop :=
  exists e_fin n, e_fin ∈ F /\ n ∈ outputs_ (edge g e_fin)
                  /\ e ∈ out_edges (node g n).

Inductive fstep : gset EdgeId * Builder X double ->
                  gset EdgeId * Builder X double -> Prop :=
  | fstep_schedule (F : gset EdgeId) b b' (e : EdgeId) (w : Want) :
      PlanOps.want_of b e = Some w -> w <> kWantNothing ->
      AllInputsReady (state_ b) e = true ->
      fed_by F (state_ b) e ->
      PlanOps.ScheduleWork e b = Ret b' ->
      fstep (F, b) (F, b')
  | fstep_finish (F : gset EdgeId) b (e : EdgeId) :
      PlanOps.want_of b e = Some kWantNothing ->
      AllInputsReady (state_ b) e = true ->
      fed_by F (state_ b) e ->
      fstep (F, b) ({[e]} ∪ F, finish_edge e kWantNothing b).

(** Edges agree on everything but [outputs_ready_]. *)
Definition same_shape (g g' : State) : Prop :=
  nodes g' = nodes g
  /\ forall e, set_outputs_ready true (edge g' e)
               = set_outputs_ready true (edge g e).

(** The counters agree with the want map. *)
Definition wanted_ok b : Prop :=
  wanted_edges_ (plan_ b) = Counts.wanted_count (want_ (plan_ b))
  /\ Int.is_int (wanted_edges_ (plan_ b)).

(** What a step keeps: the agreement of [wanted_edges_] with the want map,
    [command_edges_], and a finished edge stays finished and out of the
    map. *)
Definition finished_inv (e0 : EdgeId) (c0 : Z)
    (x : gset EdgeId * Builder X double) : Prop :=
  wanted_ok x.2
  /\ command_edges_ (plan_ x.2) = c0
  /\ outputs_ready_ (edge (state_ x.2) e0) = true
  /\ want_ (plan_ x.2) !! e0 = None.

End FinishSteps.

(** ** More of [struct VizioLog] *)

Module VizioLogMore.

Definition newline : string := String (Ascii.ascii_of_nat 10) "".
Definition carriage_return : string := String (Ascii.ascii_of_nat 13) "".

(** [n] line feeds. *)
Fixpoint newlines (n : nat) : string :=
  match n with
  | O => ""
  | S n' => String (Ascii.ascii_of_nat 10) (newlines n')
  end.

(** [buffer.substr(0, found)], where [found] may be [string::npos]
    ([None]): then the whole buffer is taken. *)
Definition substr_upto (buffer : string) (found : option nat) : string :=
  match found with
  | Some n => Str.take n buffer
  | None => buffer
  end.

(** [buffer.substr(found + 1)]; [string::npos + 1] wraps around to 0. *)
Definition substr_after (buffer : string) (found : option nat) : string :=
  match found with
  | Some n => Str.drop (n + 1) buffer
  | None => buffer
  end.

(** The [do { ... } while (currentStr.empty());] of [getLastNotEmptyLine]:
    returns [buffer], [found] and [currentStr] as the loop leaves them. *)
Fixpoint last_line_loop (fuel : nat) (buffer : string) (found : option nat)
    : res (string * option nat * string) :=
  match fuel with
  | O => OutOfFuel
  | S fuel' =>
      let buffer := substr_upto buffer found in
      let found := Str.rfind buffer newline in
      let currentStr := substr_after buffer found in
      if Str.empty currentStr then last_line_loop fuel' buffer found
      else Ret (buffer, found, currentStr)
  end.

(** [string VizioLog::getLastNotEmptyLine(string& buffer)] *)
Definition getLastNotEmptyLine (fuel : nat) (buffer : string) : res string :=
  let* (buffer, found, currentStr) :=
    last_line_loop fuel buffer (Some (String.length buffer)) in
  match found with
  | None => Ret buffer
  | Some _ =>
      match Str.rfind currentStr carriage_return with
      | Some found => Ret (Str.drop (found + 1) currentStr)
      | None => Ret currentStr
      end
  end.

(** [string& VizioLog::AddCleaningLine(string& data)]; [kCleanLineSymbol]
    is a constant of a header that is not among the sources. *)
Definition AddCleaningLine (kCleanLineSymbol : string) (data : string) : string :=
  (data +:+ kCleanLineSymbol) +:+ newline.

(** What follows the last carriage return of a line. *)
Definition after_last_cr (line : string) : string :=
  match Str.rfind line carriage_return with
  | Some p => Str.drop (p + 1) line
  | None => line
  end.

End VizioLogMore.

(** ** Runs of the dry-run runner *)

Module DryRunOps.

Section WithEnv.

Context {X double : Type} `{!Floating double} `{!Env X double}.

(** [StartCommand] for each edge of a list, in order. *)
Definition start_all (es : list EdgeId) (r : CommandRunner)
    (b : Builder X double) : CommandRunner * Builder X double :=
  foldl (fun '(r, b) e => let '(_, r, b) := Runner.StartCommand r e b in (r, b))
        (r, b) es.

(** [n] calls of [WaitForCommand]; the edges of the results, as long as the
    calls answer true. *)
Fixpoint wait_all (n : nat) (r : CommandRunner) (b : Builder X double)
    : list (EdgeId * ExitStatus) * CommandRunner :=
  match n with
  | O => ([], r)
  | S n' =>
      match Runner.WaitForCommand 0 r (mkResult 0%nat ExitFailure "" "") b with
      | Ret (true, result, r', b') =>
          let '(l, r'') := wait_all n' r' b' in
          ((result_edge result, result_status result) :: l, r'')
      | _ => ([], r)
      end
  end.

End WithEnv.

End DryRunOps.

(** ** Agreement of both counters with the want map *)

Section CounterAgreement.

Context {X double : Type}.

Definition counts_agree (b : Builder X double) : Prop :=
  wanted_edges_ (plan_ b) = Counts.wanted_count (want_ (plan_ b))
  /\ command_edges_ (plan_ b)
     = Counts.command_count (state_ b) (want_ (plan_ b)).

(** The want map has fewer than 2^31 entries, so that the [int] counters
    can count them. *)
Definition countable_plan (b : Builder X double) : Prop :=
  Z.of_nat (size (want_ (plan_ b))) < 2 ^ 31.

End CounterAgreement.

(** ** The members of the builder that the plan has no hand in

    [Plan] reaches the builder only through [Builder::LoadDyndeps], which
    works on the graph, the disk and the status. *)

Definition members {X double : Type} (b : Builder X double) :=
  (config_ b, command_runner_ b, running_edges_ b, start_time_millis_ b,
   lock_file_path_ b, build_log_ b, deps_log_ b, failedEdges_ b).

(** ** What the loop of [StartEdge] over the outputs leaves alone *)

Definition dirs_frame {X double : Type} (b : Builder X double)
    (s : Z * Builder X double) : Prop :=
  running_edges_ s.2 = running_edges_ b
  /\ plan_ s.2 = plan_ b
  /\ status_ s.2 = status_ b
  /\ state_ s.2 = state_ b
  /\ command_runner_ s.2 = command_runner_ b.

(** ** What [Builder::Cleanup] leaves alone

    Everything but the outside world and the status, which is told errors
    only. *)

Definition is_StatusError (ev : StatusEvent) : Prop :=
  match ev with StatusError _ => True | _ => False end.

Definition cleanup_frame {X double : Type} (b b' : Builder X double) : Prop :=
  state_ b' = state_ b
  /\ plan_ b' = plan_ b
  /\ err b' = err b
  /\ command_runner_ b' = command_runner_ b
  /\ running_edges_ b' = running_edges_ b
  /\ build_log_ b' = build_log_ b
  /\ deps_log_ b' = deps_log_ b
  /\ failedEdges_ b' = failedEdges_ b
  /\ exists evs, status_ b' = status_ b ++ evs /\ Forall is_StatusError evs.

(** ** The critical path weights

    What [ComputeCriticalPath] establishes, relative to the graph [g0] it
    starts from. *)

(** The edge [e] is relaxed under the weights [wt]: no input of [e] is made
    by an edge that [e] would still give a greater weight. *)
Definition relaxed_at (g : State) (wt : EdgeId -> Z) (e : EdgeId) : Prop :=
  forall it i,
    it ∈ inputs_ (edge g e) -> in_edge (node g it) = Some i ->
    Int.to_int64 (wt e + PlanOps.EdgeWeightHeuristic g i) <= wt i.

Definition relaxed (g : State) (e : EdgeId) : Prop :=
  relaxed_at g (weight_of g) e.

Section CriticalPath.

Variable g0 : State.

(** The graph [g] is [g0] with other weights. *)
Definition same_but_weights (g : State) : Prop :=
  nodes g = nodes g0
  /\ pools g = pools g0
  /\ forall e, edge g e = set_critical_path_weight (weight_of g e) (edge g0 e).

(** The edge that makes one of the targets. *)
Definition target_edge (targets : list NodeId) (e : EdgeId) : Prop :=
  exists t, t ∈ targets /\ in_edge (node g0 t) = Some e.

(** The edges the backflow has had in its queue: those of the targets and
    those whose weight it changed. *)
Definition touched (targets : list NodeId) (g : State) (e : EdgeId) : Prop :=
  target_edge targets e \/ weight_of g e <> weight_of g0 e.

(** What [seed_target] and [relax_input] do when they set a weight. *)
Definition raise (i : EdgeId) (w' : Z) (s : PlanOps.Backflow)
    : PlanOps.Backflow :=
  PlanOps.push_unseen i
    (PlanOps.mkBackflow (PlanOps.work_queue s) (PlanOps.active_edges s)
       (update_edge i (set_critical_path_weight w') (PlanOps.bf_state s))).

(** The queue holds no edge twice, [active_edges] is the set of its edges,
    and the graph is [g0] with weights that are no smaller. *)
Definition bf_base (s : PlanOps.Backflow) : Prop :=
  same_but_weights (PlanOps.bf_state s)
  /\ (forall e, weight_of g0 e <= weight_of (PlanOps.bf_state s) e)
  /\ NoDup (PlanOps.work_queue s)
  /\ (forall e, e ∈ PlanOps.active_edges s <-> e ∈ PlanOps.work_queue s).

Definition bf_low (targets : list NodeId) (g : State) : Prop :=
  forall e, target_edge targets e ->
            PlanOps.EdgeWeightHeuristic g0 e <= weight_of g e.

(** After the targets [targets] were seeded. *)
Definition bf_seeded (targets : list NodeId) (s : PlanOps.Backflow) : Prop :=
  bf_base s
  /\ bf_low targets (PlanOps.bf_state s)
  /\ forall e, touched targets (PlanOps.bf_state s) e ->
               e ∈ PlanOps.work_queue s.

(** Between two rounds of the loop over the queue. *)
Definition bf_inv (targets : list NodeId) (s : PlanOps.Backflow) : Prop :=
  bf_base s
  /\ bf_low targets (PlanOps.bf_state s)
  /\ forall e, touched targets (PlanOps.bf_state s) e ->
               e ∉ PlanOps.work_queue s ->
               relaxed_at g0 (weight_of (PlanOps.bf_state s)) e.

(** Inside the round of the edge [e], after the inputs [seen]. *)
Definition bf_inner (targets : list NodeId) (e : EdgeId) (seen : list NodeId)
    (s : PlanOps.Backflow) : Prop :=
  bf_base s
  /\ bf_low targets (PlanOps.bf_state s)
  /\ (forall e', touched targets (PlanOps.bf_state s) e' ->
                 e' ∉ PlanOps.work_queue s -> e' <> e ->
                 relaxed_at g0 (weight_of (PlanOps.bf_state s)) e')
  /\ (e ∉ PlanOps.work_queue s ->
      forall it i, it ∈ seen -> in_edge (node g0 it) = Some i ->
        Int.to_int64 (weight_of (PlanOps.bf_state s) e
                      + PlanOps.EdgeWeightHeuristic g0 i)
        <= weight_of (PlanOps.bf_state s) i).

(** What holds of the graph the backflow returns. *)
Definition bf_final (targets : list NodeId) (g : State) : Prop :=
  same_but_weights g
  /\ (forall e, weight_of g0 e <= weight_of g e)
  /\ bf_low targets g
  /\ forall e, touched targets g e -> relaxed_at g0 (weight_of g) e.

End CriticalPath.

(** ** Paths from the targets

    [path_cost g targets e c]: there is a chain of edges that starts at the
    edge of a target and follows inputs down to [e], and the costs of its
    edges add up to [c]. *)

Inductive path_cost (g : State) (targets : list NodeId) : EdgeId -> Z -> Prop :=
  | path_target (t : NodeId) (i : EdgeId) :
      t ∈ targets -> in_edge (node g t) = Some i ->
      path_cost g targets i (PlanOps.EdgeWeightHeuristic g i)
  | path_step (e : EdgeId) (it : NodeId) (i : EdgeId) (c : Z) :
      path_cost g targets e c ->
      it ∈ inputs_ (edge g e) -> in_edge (node g it) = Some i ->
      path_cost g targets i (c + PlanOps.EdgeWeightHeuristic g i).

(** No edge has a weight yet (the weight of a new edge is -1). *)
Definition fresh_weights (g : State) : Prop :=
  map_Forall (fun _ ed => critical_path_weight_ ed < 0) (edges g).

(** A layering of the edges: the edge that makes an input of [e] lies
    deeper than [e]; there are [N] layers. *)
Definition depth_of (m : gmap EdgeId Z) (e : EdgeId) : Z := default 0 (m !! e).

Definition layered_edge (g : State) (m : gmap EdgeId Z) (e : EdgeId)
    (ed : Edge) : bool :=
  forallb (fun it => match in_edge (node g it) with
                     | Some i => depth_of m e <? depth_of m i
                     | None => true
                     end) (inputs_ ed).

Definition well_layered (g : State) (m : gmap EdgeId Z) (N : Z) : Prop :=
  0 <= N
  /\ map_Forall (fun _ v => 0 <= v <= N) m
  /\ map_Forall (fun e ed => layered_edge g m e ed = true) (edges g).

(** The weights the backflow has written are costs of paths. *)
Definition bf_costs (g0 : State) (targets : list NodeId)
    (s : PlanOps.Backflow) : Prop :=
  (forall e, weight_of (PlanOps.bf_state s) e <> weight_of g0 e ->
             path_cost g0 targets e (weight_of (PlanOps.bf_state s) e))
  /\ (forall e, e ∈ PlanOps.work_queue s ->
                path_cost g0 targets e (weight_of (PlanOps.bf_state s) e)).

(** ** What [Plan::CleanNode] does to the graph and to the want map *)

(** The graph [g'] is [g] with some nodes no longer dirty. *)
Definition only_cleaned (g g' : State) : Prop :=
  edges g' = edges g
  /\ pools g' = pools g
  /\ forall n, node g' n = node g n \/ node g' n = set_dirty false (node g n).

(** The want map [m'] is [m] with some entries set to [kWantNothing]. *)
Definition want_retired (m m' : gmap EdgeId Want) : Prop :=
  forall e, m' !! e = m !! e
            \/ (is_Some (m !! e) /\ m' !! e = Some kWantNothing).

(** From [b] to [b']: nodes were cleaned and entries retired, and the
    outputs of every edge whose entry changed are clean. *)
Definition cleaned_from {X double : Type} (b b' : Builder X double) : Prop :=
  only_cleaned (state_ b) (state_ b')
  /\ want_retired (want_ (plan_ b)) (want_ (plan_ b'))
  /\ ready_ (plan_ b') = ready_ (plan_ b)
  /\ targets_ (plan_ b') = targets_ (plan_ b)
  /\ forall e, want_ (plan_ b') !! e <> want_ (plan_ b) !! e ->
               forall o, o ∈ outputs_ (edge (state_ b) e) ->
                         dirty (node (state_ b') o) = false.

(** ** What [Plan::ScheduleInitialEdges] does to the plan

    From [b] to [b']: nodes, edges, targets and counters are the same, and
    an entry that changed went from [kWantToStart] to [kWantToFinish] for an
    edge whose inputs are all ready. *)

Definition scheduled_from {X double : Type} (b b' : Builder X double) : Prop :=
  nodes (state_ b') = nodes (state_ b)
  /\ edges (state_ b') = edges (state_ b)
  /\ targets_ (plan_ b') = targets_ (plan_ b)
  /\ command_edges_ (plan_ b') = command_edges_ (plan_ b)
  /\ wanted_edges_ (plan_ b') = wanted_edges_ (plan_ b)
  /\ forall e, want_ (plan_ b') !! e = want_ (plan_ b) !! e
               \/ (want_ (plan_ b) !! e = Some kWantToStart
                   /\ AllInputsReady (state_ b) e = true
                   /\ want_ (plan_ b') !! e = Some kWantToFinish).

(** ** What [Builder::AddTarget] does to the plan

    From [b] to [b']: want entries stay (only a [kWantNothing] may change),
    targets are appended, and the ready queue and the members of the builder
    that the plan has no hand in are untouched. *)

Definition plan_grows {X double : Type} (b b' : Builder X double) : Prop :=
  want_grows (want_ (plan_ b)) (want_ (plan_ b'))
  /\ ready_ (plan_ b') = ready_ (plan_ b)
  /\ (exists more, targets_ (plan_ b') = targets_ (plan_ b) ++ more)
  /\ members b' = members b.

(** ** A budget for the backflow

    On [N] layers no weight exceeds [N + 1].  The budget of a state of the
    backflow is what the weights of the edges of [g0] can still gain, plus
    the length of the queue; every round of the loop uses up one unit. *)

Fixpoint zsum (f : EdgeId -> Z) (l : list EdgeId) : Z :=
  match l with
  | [] => 0
  | e :: l' => f e + zsum f l'
  end.

Definition slack (g0 : State) (N : Z) (g : State) : Z :=
  zsum (fun e => N + 1 - weight_of g e) (elements (dom (edges g0))).

Definition bf_budget (g0 : State) (N : Z) (s : PlanOps.Backflow) : Z :=
  slack g0 N (PlanOps.bf_state s) + Z.of_nat (length (PlanOps.work_queue s)).

(** ** What [Plan::UnmarkDependents] does *)

(** The edges that carry a mark of [RecomputeDirty]. *)
Definition marked (g : State) : gset EdgeId :=
  dom (filter (fun kv : EdgeId * Edge => mark_ kv.2 <> VisitNone) (edges g)).

(** The graph [g'] is [g] with some marks reset to [VisitNone]. *)
Definition unmarked_from (g g' : State) : Prop :=
  nodes g' = nodes g
  /\ pools g' = pools g
  /\ forall e, edge g' e = edge g e
               \/ edge g' e = set_mark VisitNone (edge g e).

(** From [(deps, b)] to [(deps', b')]: marks were reset, the plan is
    untouched, and every node that joined the dependents is an output of an
    edge of the plan whose mark is reset. *)
Definition unmark_step {X double : Type}
    (s s' : gset NodeId * Builder X double) : Prop :=
  unmarked_from (state_ s.2) (state_ s'.2)
  /\ plan_ s'.2 = plan_ s.2
  /\ s.1 ⊆ s'.1
  /\ forall o, o ∈ s'.1 -> o ∉ s.1 ->
        exists e, is_Some (want_ (plan_ s.2) !! e)
                  /\ o ∈ outputs_ (edge (state_ s.2) e)
                  /\ mark_ (edge (state_ s'.2) e) = VisitNone.

(** ** Layers, seen from the outputs

    The edges that consume an output of [e] lie above [e] (at a smaller
    depth). *)

Definition ranked_edge (g : State) (m : gmap EdgeId Z) (e : EdgeId)
    (ed : Edge) : bool :=
  forallb (fun o => forallb (fun oe => depth_of m oe <? depth_of m e)
                            (out_edges (node g o)))
          (outputs_ ed).

Definition downstream_ranked (g : State) (m : gmap EdgeId Z) : Prop :=
  map_Forall (fun e ed => ranked_edge g m e ed = true) (edges g).

(** From [b] to [b']: nodes were cleaned and entries retired. *)
Definition tidied {X double : Type} (b b' : Builder X double) : Prop :=
  only_cleaned (state_ b) (state_ b')
  /\ want_retired (want_ (plan_ b)) (want_ (plan_ b')).

(** The want entries that differ between [b] and [b'] belong to edges at or
    above one of the edges [top]. *)
Definition changes_above {X double : Type} (m : gmap EdgeId Z)
    (top : list EdgeId) (b b' : Builder X double) : Prop :=
  forall e, want_ (plan_ b') !! e <> want_ (plan_ b) !! e ->
            exists oe, oe ∈ top /\ depth_of m e <= depth_of m oe.

(** ** Further example graphs *)

Module SimMore.

(** Two rules that feed each other: node 0 is [a], made by edge 0 from [b];
    node 1 is [b], made by edge 1 from [a]. *)
Definition g_cycle : State :=
  mkState (list_to_map [(0%nat, Sim.built "a" 0%nat [1%nat]);
                        (1%nat, Sim.built "b" 1%nat [0%nat])])
          (list_to_map [(0%nat, Sim.rule "mk_a" "mk a" [1%nat] [0%nat]);
                        (1%nat, Sim.rule "mk_b" "mk b" [0%nat] [1%nat])])
          (list_to_map [(0%nat, Sim.default_pool)]).

Definition b_cycle : Builder Sim.Outside Sim.double :=
  Sim.builder0 g_cycle Sim.config0 Sim.outside0.

(** [cc] of [Sim.g_single] has been started and is running. *)
Definition b_started : Builder Sim.Outside Sim.double :=
  with_running_edges {[0%nat := 5]} Sim.b_running.

(** What a runner reports when [cc] failed. *)
Definition cc_failed : Result := mkResult 0%nat ExitFailure "boom" "cc".

(** [Sim.b_added] with a dry-run runner, on a disk where no directory can be
    made for [a.o]. *)
Definition b_no_dir : Builder Sim.Outside Sim.double :=
  with_runner (Some (DryRun []))
    (with_world (Sim.mkOutside ∅ ["a.o"] 100 (0, 1%positive) [] 1%nat [] [] ∅)
                Sim.b_added).

(** The subprocess 1 runs [cc] and has ended with a failure. *)
Definition cc_table : RealCommandRunner := {[1%nat := 0%nat]}.

Definition b_ended : Builder Sim.Outside Sim.double :=
  with_runner (Some (Real cc_table))
    (with_world (Sim.mkOutside ∅ [] 100 (0, 1%positive) ["cc a.c"] 2%nat []
                               [1%nat] {[1%nat := "cc a.c"]})
                b_started).

Definition no_result : Result := mkResult 0%nat ExitSuccess "" "".

(** [app <- link a.o <- cc a.c]: the nodes 0, 1, 2 are [a.c], [a.o], [app];
    edge 0 is [cc], edge 1 is [link]. *)
Definition g_chain : State :=
  mkState (list_to_map [(0%nat, Sim.leaf "a.c" false [0%nat]);
                        (1%nat, Sim.built "a.o" 0%nat [1%nat]);
                        (2%nat, Sim.built "app" 1%nat [])])
          (list_to_map [(0%nat, Sim.rule "cc" "cc a.c" [0%nat] [1%nat]);
                        (1%nat, Sim.rule "link" "ld a.o" [1%nat] [2%nat])])
          (list_to_map [(0%nat, Sim.default_pool)]).

(** [app] was asked for twice. *)
Definition b_chain : Builder Sim.Outside Sim.double :=
  with_plan (mkPlan [2%nat; 2%nat]
                    {[0%nat := kWantToStart; 1%nat := kWantToStart]} [] 2 2)
            (Sim.builder0 g_chain Sim.config0 Sim.outside0).

(** [Sim.g_single] with [deps = gcc] on [cc], which names no depfile; [cc] is
    running. *)
Definition g_gcc : State :=
  mkState (nodes Sim.g_single)
          (list_to_map
             [(0%nat,
               mkEdge "cc" false 0%nat [0%nat] [1%nat] 0%nat "gcc" "" false
                      false "" "" "" "cc a.c" false false false VisitNone
                      (-1) 0)])
          (pools Sim.g_single).

Definition b_gcc : Builder Sim.Outside Sim.double :=
  with_state g_gcc b_started.

(** The layers of [g_chain]: [link] above [cc]. *)
Definition chain_depth : gmap EdgeId Z := {[0%nat := 1; 1%nat := 0]}.

(** [Sim.b_added] under a configuration that allows no failure, and what
    [PrepareQueue] makes of it. *)
Definition b_no_budget : Builder Sim.Outside Sim.double :=
  mkBuilder Sim.g_single
            (mkBuildConfig NORMAL false 4 0 (0, 1%positive) true false "logs")
            (plan_ Sim.b_added) None [] ∅ 0 ".ninja_lock" (Some []) [] []
            Sim.outside0 "".

Definition b_prepared : Builder Sim.Outside Sim.double :=
  Eval vm_compute in
    match PlanOps.PrepareQueue 3 b_no_budget with
    | Ret b' => b'
    | _ => b_no_budget
    end.

(** [g_chain] after [RecomputeDirty] has marked both edges; both are in the
    plan. *)
Definition g_marked : State :=
  update_edge 0%nat (set_mark VisitDone)
    (update_edge 1%nat (set_mark VisitDone) g_chain).

Definition b_marked : Builder Sim.Outside Sim.double :=
  with_state g_marked b_chain.

End SimMore.
(** ** Lemmas on strings *)

Section StrFacts.

Local Open Scope nat_scope.

Lemma app_cons c (s t : string) : String c s +:+ t = String c (s +:+ t).
Proof. reflexivity. Qed.

Lemma app_empty_l (s : string) : "" +:+ s = s.
Proof. reflexivity. Qed.

Lemma app_empty_r (s : string) : s +:+ "" = s.
Proof. induction s as [|c s IH]; [reflexivity|]. rewrite app_cons. by f_equal. Qed.

Lemma app_assoc' (a b c : string) : (a +:+ b) +:+ c = a +:+ (b +:+ c).
Proof.
  induction a as [|x a IH]; [reflexivity|].
  rewrite !app_cons. by f_equal.
Qed.

Lemma app_length (a b : string) :
  String.length (a +:+ b) = String.length a + String.length b.
Proof.
  induction a as [|x a IH]; [reflexivity|].
  rewrite app_cons. simpl. by rewrite IH.
Qed.

Lemma take_app (a b : string) : Str.take (String.length a) (a +:+ b) = a.
Proof.
  induction a as [|x a IH]; [by destruct b|].
  rewrite app_cons. simpl. by f_equal.
Qed.

Lemma drop_app (a b : string) : Str.drop (String.length a) (a +:+ b) = b.
Proof. induction a as [|x a IH]; [reflexivity|]. rewrite app_cons. apply IH. Qed.

Lemma take_drop (n : nat) (s : string) : Str.take n s +:+ Str.drop n s = s.
Proof.
  revert s. induction n as [|n IH]; intros [|c s]; simpl; try reflexivity.
  rewrite app_cons. by f_equal.
Qed.

Lemma take_length (n : nat) (s : string) :
  n <= String.length s -> String.length (Str.take n s) = n.
Proof.
  revert s. induction n as [|n IH]; intros [|c s]; simpl; intros H; try lia.
  rewrite IH; lia.
Qed.

(** [String.prefix] against concatenation. *)
Lemma prefix_app (p s : string) : String.prefix p (p +:+ s) = true.
Proof.
  induction p as [|c p IH]; [by destruct s|].
  rewrite app_cons. simpl. destruct (Ascii.ascii_dec c c); [done|congruence].
Qed.

Lemma prefix_true (p s : string) :
  String.prefix p s = true -> exists b, s = p +:+ b.
Proof.
  revert s. induction p as [|c p IH]; intros s H.
  - by exists s.
  - destruct s as [|d s]; simpl in H; [done|].
    destruct (Ascii.ascii_dec c d) as [->|]; [|done].
    destruct (IH _ H) as [b ->]. by exists b.
Qed.

Lemma prefix_false (p s : string) :
  String.prefix p s = false -> forall b, s <> p +:+ b.
Proof. intros H b ->. by rewrite prefix_app in H. Qed.

(** [rfind] finds nothing exactly when the pattern is absent. *)
Lemma rfind_None (s pat : string) :
  Str.rfind s pat = None -> Str.absent pat s.
Proof.
  induction s as [|c s IH]; intros H a b E.
  - destruct pat; [done|]. destruct a; done.
  - cbn [Str.rfind] in H. destruct (Str.rfind s pat) eqn:R; [done|].
    destruct (String.prefix pat (String c s)) eqn:P; [done|].
    destruct a as [|x a].
    + rewrite app_empty_l in E. by apply (prefix_false _ _ P b).
    + rewrite app_cons in E. injection E as _ E. by apply (IH eq_refl a b).
Qed.

(** What [rfind] finds is an occurrence, and the last one. *)
Lemma rfind_Some (s pat : string) (p : nat) :
  Str.rfind s pat = Some p ->
  exists b, s = Str.take p s +:+ pat +:+ b
            /\ String.length (Str.take p s) = p
            /\ (forall c t, pat +:+ b = String c t -> Str.absent pat t).
Proof.
  revert p. induction s as [|c s IH]; intros p H.
  - destruct pat; [|done]. injection H as <-. by exists "".
  - cbn [Str.rfind] in H. destruct (Str.rfind s pat) as [q|] eqn:R.
    + injection H as <-. destruct (IH q eq_refl) as (b & E & L & A).
      exists b. simpl. rewrite app_cons, <- E, L. done.
    + destruct (String.prefix pat (String c s)) eqn:P; [|done].
      injection H as <-. destruct (prefix_true _ _ P) as [b E].
      exists b. simpl. rewrite app_empty_l. split; [done|]. split; [done|].
      intros d t Et. rewrite <- E in Et. injection Et as _ <-.
      by apply rfind_None.
Qed.

Lemma absent_rfind (s pat : string) :
  pat <> "" -> Str.absent pat s -> Str.rfind s pat = None.
Proof.
  intros Hp A. destruct (Str.rfind s pat) as [p|] eqn:R; [|done].
  destruct (rfind_Some _ _ _ R) as (b & E & _). by destruct (A _ _ E).
Qed.

(** A decomposition at the last occurrence is the one [rfind] returns. *)
Lemma rfind_last (a pat b : string) :
  pat <> "" ->
  (forall c t, pat +:+ b = String c t -> Str.absent pat t) ->
  Str.rfind (a +:+ pat +:+ b) pat = Some (String.length a).
Proof.
  intros Hp A. induction a as [|x a IH].
  - rewrite app_empty_l. destruct (pat +:+ b) as [|c t] eqn:E.
    + destruct pat; [done|]. by rewrite app_cons in E.
    + cbn [Str.rfind]. rewrite (absent_rfind t pat Hp (A _ _ eq_refl)).
      rewrite <- E, prefix_app. done.
  - rewrite app_cons. cbn [Str.rfind]. rewrite IH. done.
Qed.

End StrFacts.

(** ** The failure label *)

Section FormatTargetNameFacts.

Local Open Scope nat_scope.

Import VizioLog.

Lemma FormatTargetName_no_tail (name : string) :
  Str.absent "___" name -> FormatTargetName name = name.
Proof.
  intros A. unfold FormatTargetName. by rewrite absent_rfind.
Qed.

Lemma FormatTargetName_tail (pre post : string) :
  (forall c t, "___" +:+ post = String c t -> Str.absent "___" t) ->
  FormatTargetName (pre +:+ "___" +:+ post) =
    match Str.rfind pre "_" with
    | Some pos => Str.drop (pos + 1) pre
    | None => pre
    end.
Proof.
  intros A. unfold FormatTargetName.
  rewrite rfind_last by done. by rewrite take_app.
Qed.

End FormatTargetNameFacts.

(** C9, as stated, does not hold: on a rule name without a [___] tail the
    code returns the name unchanged, leading [<prefix>_] included, while the
    wording of the claim makes the label ["bar"]. *)
Lemma FormatTargetName_keeps_prefix_without_tail :
  VizioLog.FormatTargetName "foo_bar" = "foo_bar"
  /\ VizioLog.label_as_worded "foo_bar" = "bar"
  /\ VizioLog.FormatTargetName "foo_bar" <> VizioLog.label_as_worded "foo_bar".
Proof. repeat split; vm_compute; congruence. Qed.

(** C9, amended: a name without [___] is returned as it is; a name with a
    [___] is cut at its last [___], and of what is left everything up to and
    including the last [_] is removed (nothing when there is no [_]). *)
Theorem FormatTargetName_shape (name : string) :
  (Str.absent "___" name -> VizioLog.FormatTargetName name = name)
  /\ (forall pre post,
        name = pre +:+ "___" +:+ post ->
        Str.absent "___" ("__" +:+ post) ->
        (Str.absent "_" pre -> VizioLog.FormatTargetName name = pre)
        /\ (forall a b, pre = a +:+ "_" +:+ b -> Str.absent "_" b ->
              VizioLog.FormatTargetName name = b)).
Proof.
  split; [apply FormatTargetName_no_tail|].
  intros pre post -> Hlast.
  assert (A : forall c t, "___" +:+ post = String c t -> Str.absent "___" t).
  { intros c t E. injection E as _ <-. exact Hlast. }
  rewrite (FormatTargetName_tail _ _ A). split.
  - intros Hno. by rewrite absent_rfind.
  - intros a b -> Hb.
    rewrite rfind_last; [|done|].
    + replace (String.length a + 1)%nat with (String.length (a +:+ "_")).
      * by rewrite <- app_assoc', drop_app.
      * rewrite app_length. reflexivity.
    + intros c t E. injection E as _ <-. exact Hb.
Qed.

Lemma FormatTargetName_shape_witness :
  VizioLog.FormatTargetName "lib_core___x86" = "core".
Proof.
  destruct (FormatTargetName_shape "lib_core___x86") as [_ H].
  destruct (H "lib_core" "x86" eq_refl) as [_ H2].
  - apply rfind_None. reflexivity.
  - apply (H2 "lib" "core" eq_refl). apply rfind_None. reflexivity.
Defined.

(** ** Machine integers *)

Section IntFacts.

Lemma to_signed_small (w z : Z) :
  0 < w -> - 2 ^ (w - 1) <= z < 2 ^ (w - 1) -> Int.to_signed w z = z.
Proof.
  intros Hw Hz. unfold Int.to_signed.
  assert (E : 2 ^ w = 2 * 2 ^ (w - 1)).
  { rewrite <- Z.pow_succ_r by lia. f_equal. lia. }
  assert (0 < 2 ^ (w - 1)) by (apply Z.pow_pos_nonneg; lia).
  destruct (Z.ltb_spec (z mod 2 ^ w) (2 ^ (w - 1))) as [L|L].
  - destruct (Z_lt_le_dec z 0) as [N|N].
    + rewrite <- (Z.mod_add z 1) in L by lia.
      rewrite Z.mod_small in L by lia. lia.
    + apply Z.mod_small. lia.
  - destruct (Z_lt_le_dec z 0) as [N|N].
    + rewrite <- (Z.mod_add z 1) by lia.
      rewrite Z.mod_small by lia. lia.
    + rewrite Z.mod_small in L by lia. lia.
Qed.

Lemma to_signed_mod (w z : Z) :
  0 < w -> Int.to_signed w (z mod 2 ^ w) = Int.to_signed w z.
Proof.
  intros Hw. unfold Int.to_signed. rewrite Z.mod_mod; [done|].
  apply Z.pow_nonzero; lia.
Qed.

Lemma to_int_small (z : Z) : Int.is_int z -> Int.to_int z = z.
Proof. intros H. apply to_signed_small; [lia|]. exact H. Qed.

Lemma to_int64_small (z : Z) : Int.is_int64 z -> Int.to_int64 z = z.
Proof. intros H. apply to_signed_small; [lia|]. exact H. Qed.

Lemma to_size_t_small (z : Z) : 0 <= z < 2 ^ 64 -> Int.to_size_t z = z.
Proof. intros H. apply Z.mod_small. exact H. Qed.

(** The difference of an [int] and a [size_t], computed in [size_t] and
    read back as [int64_t]. *)
Lemma size_t_difference (p n : Z) :
  Int.is_int64 (p - n) ->
  Int.to_int64 (Int.to_size_t (Int.to_size_t p - Int.to_size_t n)) = p - n.
Proof.
  intros H. unfold Int.to_int64, Int.to_size_t.
  rewrite to_signed_mod by lia.
  rewrite <- (to_signed_small 64 (p - n)) by (done || lia).
  unfold Int.to_signed. rewrite <- Zminus_mod. reflexivity.
Qed.

End IntFacts.

(** ** The admission rule of the real runner *)

(** C6, as stated, does not hold: with the load bound switched off
    ([max_load_average] not positive) the code ignores the load average. *)
Lemma CanRunMore_ignores_load_when_unbounded :
  let config := mkBuildConfig NORMAL false 8 1 (0, 1%positive) true false "" in
  Runner.RealCanRunMore config 0 0 (1, 1%positive) = 8
  /\ CanRunMoreSpec.as_worded config 0 0 (1, 1%positive) = 1
  /\ Runner.RealCanRunMore config 0 0 (1, 1%positive)
     <> CanRunMoreSpec.as_worded config 0 0 (1, 1%positive).
Proof. repeat split; vm_compute; congruence. Qed.

(** C6, amended: when [max_load_average] is positive the result is the
    smaller of [parallelism - (running + finished)] and the integer part of
    [max_load_average - load], otherwise it is
    [parallelism - (running + finished)]; in both cases not below 0, and 1
    when that is 0 and no subprocess is running. *)
Theorem CanRunMore_amended {double : Type} `{!Floating double}
    (config : BuildConfig double) (running finished : nat)
    (load_average : double) :
  Int.is_int (parallelism config) ->
  Z.of_nat running + Z.of_nat finished < 2 ^ 62 ->
  Int.is_int (d_to_int (d_sub (max_load_average config) load_average)) ->
  Runner.RealCanRunMore config running finished load_average
  = CanRunMoreSpec.amended config running finished load_average.
Proof.
  intros Hp Hn Hl. unfold Runner.RealCanRunMore, CanRunMoreSpec.amended.
  unfold Int.is_int in *.
  set (n := Z.of_nat running + Z.of_nat finished) in *.
  assert (Hn0 : 0 <= n) by (unfold n; lia).
  rewrite <- (to_size_t_small n) at 1 by lia.
  rewrite (to_size_t_small n) at 1 by lia.
  rewrite size_t_difference by (unfold Int.is_int64; lia).
  set (l := d_to_int _) in *.
  set (cap := if d_positive _ then _ else _).
  set (m := if d_positive _ then _ else _).
  assert (E : cap = m).
  { unfold cap, m. destruct (d_positive _); [|done].
    destruct (Z.ltb_spec l (parallelism config - n)); lia. }
  rewrite E. clear E cap.
  assert (Hm : - 2 ^ 62 - 2 ^ 31 <= m < 2 ^ 31).
  { unfold m. destruct (d_positive _); lia. }
  replace (if m <? 0 then 0 else m) with (Z.max 0 m)
    by (destruct (Z.ltb_spec m 0); lia).
  destruct ((Z.max 0 m =? 0) && bool_decide (running = 0%nat));
    apply to_size_t_small; lia.
Qed.

Lemma CanRunMore_amended_witness :
  let config :=
    mkBuildConfig NORMAL false 8 1 (5, 2%positive) true false "" in
  Runner.RealCanRunMore config 3 1 (1, 1%positive) = 1.
Proof.
  intros config.
  rewrite (CanRunMore_amended config 3 1 (1, 1%positive)).
  - reflexivity.
  - vm_compute. split; [discriminate|reflexivity].
  - vm_compute. reflexivity.
  - vm_compute. split; [discriminate|reflexivity].
Defined.

(** ** Reasoning about calls and loops *)

Section WpFacts.

Context {A S : Type}.

Lemma wp_mono {T} (strict : bool) (Q Q' : T -> Prop) (m : res T) :
  (forall a, Q a -> Q' a) -> wp strict Q m -> wp strict Q' m.
Proof. intros H. destruct m; simpl; auto. Qed.

Lemma wp_bind {T U} (strict : bool) (Q : U -> Prop) (m : res T)
    (k : T -> res U) :
  wp strict (fun a => wp strict Q (k a)) m -> wp strict Q (res_bind m k).
Proof. destruct m; simpl; auto. Qed.

Lemma wp_ret {T} (strict : bool) (Q : T -> Prop) (m : res T) (a : T) :
  wp strict Q m -> m = Ret a -> Q a.
Proof. intros H ->. exact H. Qed.

Lemma wp_returns {T} (Q : T -> Prop) (m : res T) :
  wp true Q m -> exists a, m = Ret a /\ Q a.
Proof. destruct m; simpl; intros H; try done. eauto. Qed.

(** A loop keeps what each of its rounds keeps. *)
Lemma wp_all_ok (strict : bool) (I : S -> Prop) (f : A -> S -> res (bool * S))
    (l : list A) (s : S) :
  I s ->
  (forall a s, a ∈ l -> I s -> wp strict (fun rs => I rs.2) (f a s)) ->
  wp strict (fun rs => I rs.2) (all_ok f l s).
Proof.
  revert s. induction l as [|a l IH]; intros s Hs Hf; simpl; [done|].
  pose proof (Hf a s ltac:(left) Hs) as Ha.
  destruct (f a s) as [[[] s']| |]; simpl in *; try done.
  apply IH; [done|]. intros a' s'' Hin. apply Hf. by right.
Qed.

Lemma wp_for_each (strict : bool) (I : S -> Prop) (f : A -> S -> res S)
    (l : list A) (s : S) :
  I s ->
  (forall a s, a ∈ l -> I s -> wp strict I (f a s)) ->
  wp strict I (for_each f l s).
Proof.
  revert s. induction l as [|a l IH]; intros s Hs Hf; simpl; [done|].
  pose proof (Hf a s ltac:(left) Hs) as Ha.
  destruct (f a s) as [s'| |]; simpl in *; try done.
  apply IH; [done|]. intros a' s'' Hin. apply Hf. by right.
Qed.

(** A loop whose rounds all answer [true] answers [true]. *)
Lemma wp_all_ok_true (strict : bool) (I : S -> Prop)
    (f : A -> S -> res (bool * S)) (l : list A) (s : S) :
  I s ->
  (forall a s, a ∈ l -> I s ->
     wp strict (fun rs => rs.1 = true /\ I rs.2) (f a s)) ->
  wp strict (fun rs => rs.1 = true /\ I rs.2) (all_ok f l s).
Proof.
  revert s. induction l as [|a l IH]; intros s Hs Hf; simpl; [done|].
  pose proof (Hf a s ltac:(left) Hs) as Ha.
  destruct (f a s) as [[[] s']| |]; simpl in *; try done.
  apply IH; [tauto|]. intros a' s'' Hin. apply Hf. by right.
Qed.

(** A loop answers [false] only when one of its rounds does. *)
Lemma all_ok_false (f : A -> S -> res (bool * S)) (l : list A) (s s' : S) :
  all_ok f l s = Ret (false, s') ->
  exists a s0, a ∈ l /\ f a s0 = Ret (false, s').
Proof.
  revert s. induction l as [|a l IH]; intros s H; simpl in H; [done|].
  destruct (f a s) as [[[] s1]| |] eqn:E; try done.
  - destruct (IH _ H) as (a' & s0 & Hin & E'). exists a', s0. split; [by right|done].
  - injection H as <-. exists a, s. split; [by left|done].
Qed.

End WpFacts.

(** ** What the pool operations leave alone *)

Section PoolFacts.

Context {X double : Type} `{!Env X double}.
Implicit Type b : Builder X double.

Lemma RetrieveReadyEdges_keeps (pid : PoolId) b :
  let b' := PlanOps.RetrieveReadyEdges pid b in
  want_ (plan_ b') = want_ (plan_ b)
  /\ wanted_edges_ (plan_ b') = wanted_edges_ (plan_ b)
  /\ command_edges_ (plan_ b') = command_edges_ (plan_ b)
  /\ targets_ (plan_ b') = targets_ (plan_ b)
  /\ edges (state_ b') = edges (state_ b)
  /\ nodes (state_ b') = nodes (state_ b)
  /\ err b' = err b.
Proof.
  unfold PlanOps.RetrieveReadyEdges.
  destruct (PoolOps.RetrieveReadyEdges _ _ _) as [p' ready']. simpl. done.
Qed.

Lemma edge_ext (g g' : State) (e : EdgeId) :
  edges g = edges g' -> edge g e = edge g' e.
Proof. unfold edge. by intros ->. Qed.

Lemma node_ext (g g' : State) (n : NodeId) :
  nodes g = nodes g' -> node g n = node g' n.
Proof. unfold node. by intros ->. Qed.

Lemma edge_update_pool (pid : PoolId) (f : Pool -> Pool) (g : State)
    (e : EdgeId) :
  edge (update_pool pid f g) e = edge g e.
Proof. reflexivity. Qed.

Lemma node_update_pool (pid : PoolId) (f : Pool -> Pool) (g : State)
    (n : NodeId) :
  node (update_pool pid f g) n = node g n.
Proof. reflexivity. Qed.





End PoolFacts.

(** ** [Plan::EdgeFinished] on a failed edge *)



(** ** [Plan::AddSubTarget] *)

Section AddSubTargetFacts.

Context {X double : Type} `{!Env X double}.
Implicit Type b : Builder X double.

Lemma want_grows_refl (m : gmap EdgeId Want) : want_grows m m.
Proof. intros e v H. eauto. Qed.

Lemma want_grows_trans (m1 m2 m3 : gmap EdgeId Want) :
  want_grows m1 m2 -> want_grows m2 m3 -> want_grows m1 m3.
Proof.
  intros H12 H23 e v H. destruct (H12 e v H) as (v' & H' & Hv).
  destruct (H23 e v' H') as (v'' & H'' & Hv'). exists v''. split; [done|].
  intros Hne. rewrite <- (Hv Hne). apply Hv'. by rewrite (Hv Hne).
Qed.

Lemma want_grows_insert_fresh (m : gmap EdgeId Want) (e : EdgeId) (w : Want) :
  m !! e = None -> want_grows m (<[e := w]> m).
Proof.
  intros Hn e' v H. exists v. split; [|done].
  rewrite lookup_insert_ne; [done|]. intros ->. congruence.
Qed.

Lemma want_grows_promote (m : gmap EdgeId Want) (e : EdgeId) (w : Want) :
  m !! e = Some kWantNothing -> want_grows m (<[e := w]> m).
Proof.
  intros Hn e' v H. destruct (decide (e = e')) as [<-|Hne].
  - exists w. rewrite lookup_insert_eq. split; [done|]. congruence.
  - exists v. by rewrite lookup_insert_ne.
Qed.

Lemma entered_state (e : EdgeId) (d : bool) b :
  state_ (entered e d b) = state_ b
  /\ ready_ (plan_ (entered e d b)) = ready_ (plan_ b)
  /\ targets_ (plan_ (entered e d b)) = targets_ (plan_ b)
  /\ err (entered e d b) = err b.
Proof.
  unfold entered, PlanOps.EdgeWanted.
  destruct (bool_decide (PlanOps.want_of b e = None));
    destruct d; cbn [andb]; try done.
  all: destruct (bool_decide (_ = kWantNothing)); try done;
    destruct (is_phony _); done.
Qed.

Lemma entered_want (e : EdgeId) (d : bool) b :
  want_grows (want_ (plan_ b)) (want_ (plan_ (entered e d b)))
  /\ exists v, want_ (plan_ (entered e d b)) !! e = Some v
               /\ (d = true -> v <> kWantNothing).
Proof.
  unfold entered, PlanOps.want_of.
  destruct (want_ (plan_ b) !! e) as [v|] eqn:Hv.
  - rewrite (bool_decide_eq_false_2 (Some v = None)) by done.
    rewrite Hv. cbn [default from_option].
    destruct d; cbn [andb].
    + destruct v.
      * rewrite (bool_decide_eq_true_2 (kWantNothing = kWantNothing)) by done.
        unfold PlanOps.EdgeWanted.
        destruct (is_phony _); simpl;
          (split; [by apply want_grows_promote|]);
          exists kWantToStart; by rewrite lookup_insert_eq.
      * rewrite (bool_decide_eq_false_2 (kWantToStart = kWantNothing)) by done.
        split; [apply want_grows_refl|]. exists kWantToStart. done.
      * rewrite (bool_decide_eq_false_2 (kWantToFinish = kWantNothing)) by done.
        split; [apply want_grows_refl|]. exists kWantToFinish. done.
    + split; [apply want_grows_refl|]. exists v. done.
  - rewrite (bool_decide_eq_true_2 (None = None)) by done.
    cbn [PlanOps.set_want with_plan plan_with_want plan_ want_].
    rewrite lookup_insert_eq. cbn [default from_option].
    rewrite (bool_decide_eq_true_2 (kWantNothing = kWantNothing)) by done.
    destruct d; cbn [andb].
    + unfold PlanOps.EdgeWanted. simpl.
      destruct (is_phony _); simpl; rewrite insert_insert_eq;
        (split; [by apply want_grows_insert_fresh|]);
        exists kWantToStart; by rewrite lookup_insert_eq.
    + simpl. split; [by apply want_grows_insert_fresh|].
      exists kWantNothing. by rewrite lookup_insert_eq.
Qed.

(** One step of the recursion, with the state [entered] made explicit. *)
Lemma AddSubTarget_unfold (fuel : nat) (n : NodeId) (dependent : option NodeId)
    (walk : option (gset EdgeId)) b :
  PlanOps.AddSubTarget (S fuel) n dependent (walk, b) =
  let nd := node (state_ b) n in
  match in_edge nd with
  | None =>
      if dirty nd && negb (generated_by_dep_loader nd) then
        Ret (false, (walk,
               with_err ("'" +:+ path nd +:+ "'" +:+
                         match dependent with
                         | Some d => ", needed by '" +:+ path (node (state_ b) d) +:+ "',"
                         | None => ""
                         end +:+ " missing and no known rule to make it") b))
      else Ret (false, (walk, b))
  | Some e =>
      if outputs_ready_ (edge (state_ b) e) then Ret (false, (walk, b))
      else
        let inserted := bool_decide (PlanOps.want_of b e = None) in
        let b1 := if inserted then PlanOps.set_want e kWantNothing b else b in
        if bool_decide (is_Some walk)
           && bool_decide (default kWantNothing (PlanOps.want_of b1 e)
                           = kWantToFinish)
        then Ret (false, (walk, b1))
        else
          let b2 := entered e (dirty nd) b in
          let walk := (fun w => {[e]} ∪ w) <$> walk in
          if negb inserted then Ret (true, (walk, b2))
          else
            all_ok
              (fun i s =>
                 match PlanOps.AddSubTarget fuel i (Some n) s with
                 | Ret (r, (walk, b')) =>
                     if negb r && negb (Str.empty (err b')) then
                       Ret (false, (walk, b'))
                     else Ret (true, (walk, b'))
                 | AssertFailed => AssertFailed
                 | OutOfFuel => OutOfFuel
                 end)
              (inputs_ (edge (state_ b2) e)) (walk, b2)
  end.
Proof.
  cbn [PlanOps.AddSubTarget]. cbv zeta.
  destruct (in_edge (node (state_ b) n)) as [e|]; [|done].
  destruct (outputs_ready_ _); [done|].
  unfold entered. destruct (bool_decide (PlanOps.want_of b e = None)); simpl;
    destruct (bool_decide (is_Some walk) && _); try done.
Qed.

Lemma want_grows_dom (m m' : gmap EdgeId Want) :
  want_grows m m' -> dom m ⊆ dom m'.
Proof.
  intros H e. rewrite !elem_of_dom. intros [v Hv].
  destruct (H e v Hv) as (v' & Hv' & _). eauto.
Qed.

Lemma same_but_want_refl b : same_but_want b b.
Proof. repeat split. apply want_grows_refl. Qed.

Lemma same_but_want_trans b1 b2 b3 :
  same_but_want b1 b2 -> same_but_want b2 b3 -> same_but_want b1 b3.
Proof.
  intros (H1 & H2 & H3 & H4) (H1' & H2' & H3' & H4').
  repeat split; try congruence. by eapply want_grows_trans.
Qed.

Lemma same_but_want_entered (e : EdgeId) (d : bool) b :
  same_but_want b (entered e d b).
Proof.
  destruct (entered_state e d b) as (H1 & H2 & H3 & _).
  destruct (entered_want e d b) as [H4 _]. done.
Qed.

Lemma same_but_want_unvisited b b' :
  same_but_want b b' -> (unvisited b' <= unvisited b)%nat.
Proof.
  intros (H1 & H2 & _). unfold unvisited. rewrite H1.
  apply subseteq_size. apply want_grows_dom in H2. set_solver.
Qed.

Lemma entered_unvisited (e : EdgeId) (d : bool) b :
  is_Some (edges (state_ b) !! e) ->
  PlanOps.want_of b e = None ->
  (unvisited (entered e d b) < unvisited b)%nat.
Proof.
  intros He Hw. unfold unvisited.
  destruct (entered_state e d b) as (-> & _).
  destruct (entered_want e d b) as (Hg & v & Hv & _).
  apply subset_size. apply want_grows_dom in Hg.
  assert (e ∈ dom (want_ (plan_ (entered e d b)))) by (apply elem_of_dom; eauto).
  assert (e ∈ dom (edges (state_ b))) by by apply elem_of_dom.
  assert (e ∉ dom (want_ (plan_ b))) by by apply not_elem_of_dom.
  set_solver.
Qed.

(** [AddSubTarget] only adds want entries and promotes [kWantNothing]; on a
    graph whose edges are all in the store it returns once the budget
    exceeds the number of edges without an entry. *)
Lemma AddSubTarget_wp (strict : bool) (fuel : nat) :
  forall (n : NodeId) (dependent : option NodeId)
         (walk : option (gset EdgeId)) b,
    (strict = true -> edges_closed (state_ b) /\ (unvisited b < fuel)%nat) ->
    wp strict (fun rs => same_but_want b rs.2.2)
       (PlanOps.AddSubTarget fuel n dependent (walk, b)).
Proof.
  induction fuel as [|fuel IH]; intros n dependent walk b Hs.
  { simpl. destruct strict; [|done]. destruct (Hs eq_refl). lia. }
  rewrite AddSubTarget_unfold. cbv zeta.
  destruct (in_edge (node (state_ b) n)) as [e|] eqn:Hin.
  2:{ destruct (dirty _ && _); simpl; [|apply same_but_want_refl].
      repeat split. apply want_grows_refl. }
  destruct (outputs_ready_ _); [apply same_but_want_refl|].
  destruct (bool_decide (is_Some walk) && _).
  { simpl. case_bool_decide as Hw; [|apply same_but_want_refl].
    repeat split. simpl. by apply want_grows_insert_fresh. }
  case_bool_decide as Hw; simpl; [|apply same_but_want_entered].
  set (b2 := entered e (dirty (node (state_ b) n)) b).
  pose proof (same_but_want_entered e (dirty (node (state_ b) n)) b) as Hent.
  fold b2 in Hent.
  eapply wp_mono; last first.
  - apply (wp_all_ok strict
             (fun s : option (gset EdgeId) * Builder X double =>
                same_but_want b2 s.2)); [apply same_but_want_refl|].
    intros i [walk' b'] _ Hb'. simpl in Hb'.
    assert (Hs' : strict = true ->
                  edges_closed (state_ b') /\ (unvisited b' < fuel)%nat).
    { intros Hst. destruct (Hs Hst) as [Hc Hu].
      split.
      - rewrite (proj1 Hb'), (proj1 Hent). exact Hc.
      - pose proof (same_but_want_unvisited _ _ Hb').
        pose proof (entered_unvisited e (dirty (node (state_ b) n)) b
                      (Hc _ _ Hin) Hw). fold b2 in H0. lia. }
    pose proof (IH i (Some n) walk' b' Hs') as Hrec.
    destruct (PlanOps.AddSubTarget fuel i (Some n) (walk', b'))
      as [[r [w'' b'']]| |]; simpl in *; try done.
    destruct (negb r && _); simpl; by eapply same_but_want_trans.
  - intros [r [w' b'']] H. simpl in *. by eapply same_but_want_trans.
Qed.

End AddSubTargetFacts.

(** ** [Plan::AddTarget] *)

Section AddTargetFacts.

Context {X double : Type} `{!Env X double}.
Implicit Type b : Builder X double.

Lemma AddTarget_unfold (fuel : nat) (t : NodeId) b :
  PlanOps.AddTarget fuel t b =
  match PlanOps.AddSubTarget fuel t None (None, pushed t b) with
  | Ret (r, (_, b')) => Ret (r, b')
  | AssertFailed => AssertFailed
  | OutOfFuel => OutOfFuel
  end.
Proof. reflexivity. Qed.

(** On a graph whose edges are all in the store, [AddTarget] returns as soon
    as the budget exceeds the number of edges without a want entry. *)
Lemma AddTarget_returns (fuel : nat) (t : NodeId) b :
  edges_closed (state_ b) -> (unvisited b < fuel)%nat ->
  returns (PlanOps.AddTarget fuel t b).
Proof.
  intros Hc Hu. rewrite AddTarget_unfold.
  pose proof (AddSubTarget_wp true fuel t None None (pushed t b)
                ltac:(intros _; split; [exact Hc|exact Hu])) as H.
  destruct (PlanOps.AddSubTarget fuel t None (None, pushed t b))
    as [[r [w b']]| |]; simpl in *; try done. by eexists.
Qed.

(** A refusal deeper in the walk comes with a message. *)
Lemma walk_refusal_has_message (fuel : nat) (n : NodeId)
    (l : list NodeId) (s : option (gset EdgeId) * Builder X double)
    (w : option (gset EdgeId)) b' :
  all_ok
    (fun i s =>
       match PlanOps.AddSubTarget fuel i (Some n) s with
       | Ret (r, (walk, b')) =>
           if negb r && negb (Str.empty (err b')) then Ret (false, (walk, b'))
           else Ret (true, (walk, b'))
       | AssertFailed => AssertFailed
       | OutOfFuel => OutOfFuel
       end) l s = Ret (false, (w, b')) ->
  Str.empty (err b') = false.
Proof.
  intros H. apply all_ok_false in H as (i & s0 & _ & H).
  destruct (PlanOps.AddSubTarget fuel i (Some n) s0)
    as [[r [w'' b'']]| |]; try done.
  destruct (negb r && negb (Str.empty (err b''))) eqn:E; [|done].
  injection H as <- <-. apply andb_true_iff in E as [_ E].
  by apply negb_true_iff in E.
Qed.

End AddTargetFacts.

Section SilentRefusal.

Context {X double : Type} `{!Floating double} `{!Env X double}.
Implicit Type b : Builder X double.

(** [AddSubTarget] never clears the error string: it leaves it alone or
    writes a message. *)
Lemma AddSubTarget_err (fuel : nat) :
  forall (n : NodeId) (dependent : option NodeId)
         (walk : option (gset EdgeId)) b,
    wp false (fun rs => err rs.2.2 = err b \/ Str.empty (err rs.2.2) = false)
       (PlanOps.AddSubTarget fuel n dependent (walk, b)).
Proof.
  induction fuel as [|fuel IH]; intros n dependent walk b; [done|].
  rewrite AddSubTarget_unfold. cbv zeta.
  destruct (in_edge (node (state_ b) n)) as [e|] eqn:Hin.
  2:{ destruct (dirty _ && _); simpl; [by right|by left]. }
  destruct (outputs_ready_ _); [by left|].
  destruct (bool_decide (is_Some walk) && _).
  { simpl. left. by case_bool_decide. }
  set (b2 := entered e (dirty (node (state_ b) n)) b).
  assert (Hent : err b2 = err b) by apply entered_state.
  case_bool_decide as Hw; simpl; [|by left].
  eapply wp_mono; last first.
  - apply (wp_all_ok false
             (fun s : option (gset EdgeId) * Builder X double =>
                err s.2 = err b \/ Str.empty (err s.2) = false));
      [by left|].
    intros i [walk' b'] _ Hb'. simpl in Hb'.
    pose proof (IH i (Some n) walk' b') as Hrec.
    destruct (PlanOps.AddSubTarget fuel i (Some n) (walk', b'))
      as [[r [w'' b'']]| |]; simpl in *; try done.
    assert (Hk : err b'' = err b \/ Str.empty (err b'') = false).
    { destruct Hrec as [Hrec|Hrec]; [|by right]. rewrite Hrec. exact Hb'. }
    by destruct (negb r && _).
  - intros [r [w' b'']] Hq. exact Hq.
Qed.

Lemma PlanAddTarget_err (fuel : nat) (t : NodeId) b b' (r : bool) :
  PlanOps.AddTarget fuel t b = Ret (r, b') ->
  err b' = err b \/ Str.empty (err b') = false.
Proof.
  rewrite AddTarget_unfold. intros H.
  pose proof (AddSubTarget_err fuel t None None (pushed t b)) as Hwp.
  destruct (PlanOps.AddSubTarget fuel t None (None, pushed t b))
    as [[r' [w b'']]| |]; [|done..].
  injection H as -> ->. exact Hwp.
Qed.

(** The silent refusals of [Plan::AddTarget]. *)
Lemma PlanAddTarget_silent (fuel : nat) (t : NodeId) b :
  err b = "" ->
  (exists b', PlanOps.AddTarget (S fuel) t b = Ret (false, b') /\ err b' = "")
  <-> (clean_leaf (state_ b) t \/ dep_loader_leaf (state_ b) t
       \/ already_built (state_ b) t).
Proof.
  intros Herr. rewrite AddTarget_unfold, AddSubTarget_unfold. cbv zeta.
  change (state_ (pushed t b)) with (state_ b).
  unfold clean_leaf, dep_loader_leaf, already_built.
  destruct (in_edge (node (state_ b) t)) as [e|] eqn:Hin.
  - destruct (outputs_ready_ (edge (state_ b) e)) eqn:Hready.
    + split; [intros _; right; right; by exists e|].
      intros _. eexists. split; [reflexivity|done].
    + cbn [bool_decide andb]. split.
      * intros (b' & H & He). exfalso.
        destruct (bool_decide (PlanOps.want_of (pushed t b) e = None));
          cbn [negb] in H; [|done].
        match type of H with
        | match ?m with _ => _ end = _ => destruct m as [[r [w b'']]| |] eqn:E
        end; [|done..].
        injection H as -> ->.
        apply walk_refusal_has_message in E. by rewrite He in E.
      * intros [[? _]|[[? _]|(e' & ? & ?)]]; congruence.
  - destruct (dirty (node (state_ b) t)) eqn:Hd;
      destruct (generated_by_dep_loader (node (state_ b) t)) eqn:Hg;
      cbn [andb negb].
    + split; [intros _; right; left; done|].
      intros _. eexists. split; [reflexivity|done].
    + split.
      * intros (b' & H & He). injection H as <-. simpl in He.
        rewrite app_cons in He. discriminate.
      * intros [[_ ?]|[[_ ?]|(e' & ? & ?)]]; congruence.
    + split; [intros _; left; done|].
      intros _. eexists. split; [reflexivity|done].
    + split; [intros _; left; done|].
      intros _. eexists. split; [reflexivity|done].
Qed.

(** A silent refusal of [Plan::AddTarget] is for a leaf or for a node that
    is built already, whatever the error string was. *)
Lemma PlanAddTarget_silent_only (fuel : nat) (t : NodeId) b b' :
  PlanOps.AddTarget (S fuel) t b = Ret (false, b') -> err b' = "" ->
  err b = ""
  /\ (clean_leaf (state_ b) t \/ dep_loader_leaf (state_ b) t
      \/ already_built (state_ b) t).
Proof.
  intros H He.
  assert (Hb : err b = "").
  { destruct (PlanAddTarget_err _ _ _ _ _ H) as [E|E]; [congruence|].
    by rewrite He in E. }
  split; [done|]. apply (PlanAddTarget_silent fuel t b Hb). eauto.
Qed.

(** The silent refusals of [Builder::AddTarget]. *)
Lemma BuilderAddTarget_silent (fuel : nat) (t : NodeId) b :
  (exists b', BuilderOps.AddTarget (S fuel) t b = Ret (false, b')
              /\ err b' = "")
  <-> (let '(ok, _, g, _, e) :=
         scan_RecomputeDirty t (state_ b) (world b) (err b) in
       e = "" /\ (ok = false \/ clean_leaf g t \/ dep_loader_leaf g t)).
Proof.
  unfold BuilderOps.AddTarget.
  destruct (scan_RecomputeDirty t (state_ b) (world b) (err b))
    as [[[[ok vs] g] x] e].
  set (b1 := with_err e (with_world x (with_state g b))).
  destruct ok; cbn [negb].
  2:{ split.
      - intros (b' & [= <-] & He). split; [exact He|by left].
      - intros [He _]. eexists. split; [reflexivity|exact He]. }
  change (state_ b1) with g.
  split.
  - intros (b' & H & He).
    assert (Hfirst : forall b2,
              PlanOps.AddTarget (S fuel) t b1 = Ret (false, b2) ->
              err b2 = "" -> in_edge (node g t) = None ->
              e = "" /\ (true = false \/ clean_leaf g t \/ dep_loader_leaf g t)).
    { intros b2 H2 He2 Hin.
      destruct (PlanAddTarget_silent_only _ _ _ _ H2 He2)
        as [Hb1 [Hc|[Hc|(e' & Hc & _)]]]; [by auto..|].
      change (state_ b1) with g in Hc. congruence. }
    assert (Hval : forall b2,
              all_ok
                (fun n b =>
                   match in_edge (node (state_ b) n) with
                   | Some vie =>
                       if outputs_ready_ (edge (state_ b) vie)
                       then Ret (true, b)
                       else PlanOps.AddTarget (S fuel) n b
                   | None => Ret (true, b)
                   end) vs b2 = Ret (false, b') -> False).
    { intros b2 H2. apply all_ok_false in H2 as (n & s0 & _ & H2).
      destruct (in_edge (node (state_ s0) n)) as [vie|] eqn:Hin; [|done].
      destruct (outputs_ready_ (edge (state_ s0) vie)) eqn:Hr; [done|].
      destruct (PlanAddTarget_silent_only _ _ _ _ H2 He)
        as [_ [[Hc _]|[[Hc _]|(e' & Hc & Hc')]]]; congruence. }
    destruct (in_edge (node g t)) as [ie|] eqn:Hin.
    + destruct (outputs_ready_ (edge g ie)) eqn:Hr.
      * cbn [res_bind negb] in H. by apply Hval in H.
      * destruct (PlanOps.AddTarget (S fuel) t b1) as [[[] b2]| |] eqn:E;
          cbn [res_bind negb] in H; try done.
        -- by apply Hval in H.
        -- injection H as ->.
           destruct (PlanAddTarget_silent_only _ _ _ _ E He)
             as [_ [[Hc _]|[[Hc _]|(e' & Hc & Hc')]]];
             change (state_ b1) with g in *; congruence.
    + destruct (PlanOps.AddTarget (S fuel) t b1) as [[[] b2]| |] eqn:E;
        cbn [res_bind negb] in H; try done.
      * by apply Hval in H.
      * injection H as ->. by apply (Hfirst b').
  - intros [-> [?|Hleaf]]; [done|].
    assert (Hin : in_edge (node g t) = None) by (destruct Hleaf as [[? _]|[? _]]; done).
    rewrite Hin.
    destruct (proj2 (PlanAddTarget_silent fuel t b1 eq_refl)) as (b' & Hb' & He').
    { change (state_ b1) with g. tauto. }
    exists b'. rewrite Hb'. done.
Qed.

End SilentRefusal.

(** C10, as stated, does not hold: [Plan::AddTarget] also returns false with
    an empty error string for a dirty leaf that the dependency loader
    generated, which is neither a clean leaf nor a node whose producing edge
    has its outputs ready; and [Builder::AddTarget] does not return false
    for a node whose producing edge has its outputs ready: it answers
    true. *)
Lemma AddTarget_silent_on_dirty_dep_loader_leaf :
  let b := Sim.builder0 Sim.g_dep_leaf Sim.config0 Sim.outside0 in
  let b1 := Sim.builder0 Sim.g_done Sim.config0 Sim.outside0 in
  (exists b', PlanOps.AddTarget 1 0%nat b = Ret (false, b') /\ err b' = "")
  /\ ~ (clean_leaf (state_ b) 0%nat \/ already_built (state_ b) 0%nat)
  /\ already_built (state_ b1) 1%nat
  /\ BuilderOps.AddTarget 1 1%nat b1 = Ret (true, b1).
Proof.
  split; [|split; [|split]].
  - eexists. split; reflexivity.
  - intros [[_ H]|(e & H & _)]; vm_compute in H; discriminate.
  - exists 0%nat. split; reflexivity.
  - reflexivity.
Qed.

(** C10, amended: called with an empty error string, [Plan::AddTarget]
    returns false and leaves the string empty exactly when the target has
    no producing edge and is clean or was generated by the dependency
    loader, or when its producing edge already has its outputs ready.
    [Builder::AddTarget] returns false and leaves the string empty exactly
    when [RecomputeDirty] fails without a message, or succeeds without one
    and the target then has no producing edge and is clean or was generated
    by the dependency loader.  For a target whose producing edge already has
    its outputs ready it does not call [Plan::AddTarget]: without validation
    nodes it answers true. *)
Theorem AddTarget_silent_false {X double : Type} `{!Floating double}
    `{!Env X double} (fuel : nat) (t : NodeId) (b : Builder X double) :
  err b = "" ->
  ((exists b', PlanOps.AddTarget (S fuel) t b = Ret (false, b') /\ err b' = "")
   <-> (clean_leaf (state_ b) t \/ dep_loader_leaf (state_ b) t
        \/ already_built (state_ b) t))
  /\ ((exists b', BuilderOps.AddTarget (S fuel) t b = Ret (false, b')
                  /\ err b' = "")
      <-> (let '(ok, _, g, _, e) :=
             scan_RecomputeDirty t (state_ b) (world b) (err b) in
           e = "" /\ (ok = false \/ clean_leaf g t \/ dep_loader_leaf g t)))
  /\ (let '(ok, validation_nodes, g, x, e) :=
        scan_RecomputeDirty t (state_ b) (world b) (err b) in
      ok = true -> validation_nodes = [] -> already_built g t ->
      BuilderOps.AddTarget (S fuel) t b
      = Ret (true, with_err e (with_world x (with_state g b)))).
Proof.
  intros Herr. split; [by apply PlanAddTarget_silent|].
  split; [apply BuilderAddTarget_silent|].
  unfold BuilderOps.AddTarget.
  destruct (scan_RecomputeDirty t (state_ b) (world b) (err b))
    as [[[[ok vs] g] x] e].
  intros -> -> (ie & Hin & Hr). cbn [negb state_ with_err with_world with_state].
  by rewrite Hin, Hr.
Qed.

Lemma AddTarget_silent_false_witness :
  let b := Sim.builder0 Sim.g_dep_leaf Sim.config0 Sim.outside0 in
  ((exists b', PlanOps.AddTarget 1 0%nat b = Ret (false, b') /\ err b' = "")
   <-> (clean_leaf (state_ b) 0%nat \/ dep_loader_leaf (state_ b) 0%nat
        \/ already_built (state_ b) 0%nat))
  /\ ((exists b', BuilderOps.AddTarget 1 0%nat b = Ret (false, b')
                  /\ err b' = "")
      <-> (let '(ok, _, g, _, e) :=
             scan_RecomputeDirty 0%nat (state_ b) (world b) (err b) in
           e = "" /\ (ok = false \/ clean_leaf g 0%nat
                      \/ dep_loader_leaf g 0%nat)))
  /\ (let '(ok, validation_nodes, g, x, e) :=
        scan_RecomputeDirty 0%nat (state_ b) (world b) (err b) in
      ok = true -> validation_nodes = [] -> already_built g 0%nat ->
      BuilderOps.AddTarget 1 0%nat b
      = Ret (true, with_err e (with_world x (with_state g b)))).
Proof.
  apply (AddTarget_silent_false 0 0%nat
           (Sim.builder0 Sim.g_dep_leaf Sim.config0 Sim.outside0)).
  reflexivity.
Defined.

Section AddTargetTwice.

Context {X double : Type} `{!Env X double}.
Implicit Type b : Builder X double.

(** After [AddSubTarget] went past the two early returns, the producing
    edge has an entry, and a wanted one when the node is dirty. *)
Lemma AddSubTarget_entry (fuel : nat) (n : NodeId) (dependent : option NodeId)
    (e : EdgeId) b (r : bool) (w : option (gset EdgeId)) b1 :
  PlanOps.AddSubTarget fuel n dependent (None, b) = Ret (r, (w, b1)) ->
  in_edge (node (state_ b) n) = Some e ->
  outputs_ready_ (edge (state_ b) e) = false ->
  same_but_want b b1
  /\ exists v, want_ (plan_ b1) !! e = Some v
               /\ (dirty (node (state_ b) n) = true -> v <> kWantNothing).
Proof.
  intros H Hin Hready. destruct fuel as [|fuel]; [done|].
  rewrite AddSubTarget_unfold in H. cbv zeta in H. rewrite Hin, Hready in H.
  cbn [bool_decide andb decide is_Some_dec fmap option_fmap option_map] in H.
  set (d := dirty (node (state_ b) n)) in *.
  pose proof (same_but_want_entered e d b) as Hent.
  destruct (entered_want e d b) as (_ & v0 & Hv0 & Hd0).
  destruct (bool_decide (PlanOps.want_of b e = None)); cbn [negb] in H.
  - assert (Hloop : same_but_want (entered e d b) b1).
    { pose proof (wp_all_ok false
        (fun s : option (gset EdgeId) * Builder X double =>
           same_but_want (entered e d b) s.2)
        (fun i s =>
           match PlanOps.AddSubTarget fuel i (Some n) s with
           | Ret (r, (walk, b')) =>
               if negb r && negb (Str.empty (err b')) then Ret (false, (walk, b'))
               else Ret (true, (walk, b'))
           | AssertFailed => AssertFailed
           | OutOfFuel => OutOfFuel
           end)
        (inputs_ (edge (state_ (entered e d b)) e)) (None, entered e d b)
        (same_but_want_refl _)) as Hwp.
      rewrite H in Hwp. apply Hwp.
      intros i [walk' b'] _ Hb'. simpl in Hb'.
      pose proof (AddSubTarget_wp false fuel i (Some n) walk' b'
                    ltac:(done)) as Hrec.
      destruct (PlanOps.AddSubTarget fuel i (Some n) (walk', b'))
        as [[r' [w'' b'']]| |]; simpl in *; try done.
      destruct (negb r' && _); simpl; by eapply same_but_want_trans. }
    split; [by eapply same_but_want_trans|].
    destruct Hloop as (_ & Hg & _).
    destruct (Hg e v0 Hv0) as (v' & Hv' & Hkeep).
    exists v'. split; [done|]. intros Hd. rewrite (Hkeep (Hd0 Hd)). auto.
  - injection H as <- <- <-. split; [done|]. eauto.
Qed.

(** A second [AddSubTarget] on the same node meets the entry and stops. *)
Lemma AddSubTarget_again (fuel : nat) (n : NodeId) (e : EdgeId) (v : Want) b :
  in_edge (node (state_ b) n) = Some e ->
  outputs_ready_ (edge (state_ b) e) = false ->
  want_ (plan_ b) !! e = Some v ->
  (dirty (node (state_ b) n) = true -> v <> kWantNothing) ->
  PlanOps.AddSubTarget (S fuel) n None (None, b) = Ret (true, (None, b)).
Proof.
  intros Hin Hready Hv Hd. rewrite AddSubTarget_unfold. cbv zeta.
  rewrite Hin, Hready.
  cbn [bool_decide andb decide is_Some_dec fmap option_fmap option_map].
  unfold entered, PlanOps.want_of. rewrite Hv.
  rewrite (bool_decide_eq_false_2 (Some v = None)) by done.
  cbn [negb default from_option]. rewrite Hv. cbn [default from_option].
  destruct (dirty (node (state_ b) n)); cbn [andb]; [|done].
  rewrite bool_decide_eq_false_2; [done|auto].
Qed.

End AddTargetTwice.

(** C8, as stated, does not hold: the second [AddTarget] on the same target
    pushes the target onto [targets_] again. *)
Lemma AddTarget_twice_repeats_target :
  exists r1 b1 r2 b2,
    PlanOps.AddTarget 2 1%nat
      (Sim.builder0 Sim.g_single Sim.config0 Sim.outside0) = Ret (r1, b1)
    /\ PlanOps.AddTarget 2 1%nat b1 = Ret (r2, b2)
    /\ targets_ (plan_ b1) = [1%nat]
    /\ targets_ (plan_ b2) = [1%nat; 1%nat]
    /\ plan_ b2 <> plan_ b1.
Proof.
  do 4 eexists. split; [reflexivity|]. split; [reflexivity|].
  split; [reflexivity|]. split; [reflexivity|].
  intros H. apply (f_equal targets_) in H. vm_compute in H. discriminate.
Qed.

(** C8, amended: a second [AddTarget] on the same target returns, leaves
    the want map, both counters, the ready queue and the graph as the first
    call left them, and pushes the target onto [targets_] once more (the
    duplicates are removed by [ComputeCriticalPath]). *)
Theorem AddTarget_twice {X double : Type} `{!Env X double}
    (fuel1 fuel2 : nat) (t : NodeId) (b b1 : Builder X double) (r1 : bool) :
  PlanOps.AddTarget fuel1 t b = Ret (r1, b1) ->
  exists r2 b2,
    PlanOps.AddTarget (S fuel2) t b1 = Ret (r2, b2)
    /\ want_ (plan_ b2) = want_ (plan_ b1)
    /\ wanted_edges_ (plan_ b2) = wanted_edges_ (plan_ b1)
    /\ command_edges_ (plan_ b2) = command_edges_ (plan_ b1)
    /\ ready_ (plan_ b2) = ready_ (plan_ b1)
    /\ state_ b2 = state_ b1
    /\ targets_ (plan_ b2) = targets_ (plan_ b1) ++ [t].
Proof.
  intros H1. rewrite AddTarget_unfold in H1.
  destruct (PlanOps.AddSubTarget fuel1 t None (None, pushed t b))
    as [[r [w b']]| |] eqn:E1; [|done..].
  injection H1 as -> ->.
  pose proof (AddSubTarget_wp false fuel1 t None None (pushed t b)
                ltac:(done)) as Hsame.
  rewrite E1 in Hsame. simpl in Hsame. destruct Hsame as (Hst & _).
  change (state_ (pushed t b)) with (state_ b) in Hst.
  rewrite AddTarget_unfold.
  destruct (in_edge (node (state_ b) t)) as [e|] eqn:Hin.
  - destruct (outputs_ready_ (edge (state_ b) e)) eqn:Hready.
    + rewrite AddSubTarget_unfold. cbv zeta.
      change (state_ (pushed t b1)) with (state_ b1).
      rewrite Hst, Hin, Hready. do 2 eexists. split; [reflexivity|]. done.
    + destruct (AddSubTarget_entry fuel1 t None e (pushed t b) _ w b1 E1 Hin Hready)
        as (_ & v & Hv & Hd).
      rewrite (AddSubTarget_again fuel2 t e v (pushed t b1)).
      * do 2 eexists. split; [reflexivity|]. done.
      * change (state_ (pushed t b1)) with (state_ b1). by rewrite Hst.
      * change (state_ (pushed t b1)) with (state_ b1). by rewrite Hst.
      * exact Hv.
      * change (state_ (pushed t b1)) with (state_ b1). by rewrite Hst.
  - rewrite AddSubTarget_unfold. cbv zeta.
    change (state_ (pushed t b1)) with (state_ b1). rewrite Hst, Hin.
    destruct (dirty _ && _); do 2 eexists; (split; [reflexivity|]); done.
Qed.

Lemma AddTarget_twice_witness :
  exists r2 b2,
    PlanOps.AddTarget 1 1%nat Sim.b_added = Ret (r2, b2)
    /\ want_ (plan_ b2) = want_ (plan_ Sim.b_added)
    /\ wanted_edges_ (plan_ b2) = wanted_edges_ (plan_ Sim.b_added)
    /\ command_edges_ (plan_ b2) = command_edges_ (plan_ Sim.b_added)
    /\ ready_ (plan_ b2) = ready_ (plan_ Sim.b_added)
    /\ state_ b2 = state_ Sim.b_added
    /\ targets_ (plan_ b2) = targets_ (plan_ Sim.b_added) ++ [1%nat].
Proof.
  apply (AddTarget_twice 2 0 1%nat
           (Sim.builder0 Sim.g_single Sim.config0 Sim.outside0)
           Sim.b_added true).
  vm_compute. reflexivity.
Defined.

(** ** [Plan::EdgeFinished] on success *)

Section FinishFacts.

Context {X double : Type} `{!Env X double}.
Implicit Type b : Builder X double.

Lemma EdgeFinished_unfold (fuel : nat) (e : EdgeId) (result : EdgeResult) b :
  PlanOps.EdgeFinished (S fuel) e result b =
  match PlanOps.want_of b e with
  | None => AssertFailed
  | Some want =>
      if negb (bool_decide (result = kEdgeSucceeded)) then
        Ret (true, finish_pool e want b)
      else
        all_ok (PlanOps.NodeFinished_ (PlanOps.EdgeFinished fuel) fuel)
               (outputs_ (edge (state_ (finish_edge e want b)) e))
               (finish_edge e want b)
  end.
Proof. reflexivity. Qed.

(** *** Shapes *)

Lemma same_shape_refl (g : State) : same_shape g g.
Proof. done. Qed.

Lemma same_shape_trans (g1 g2 g3 : State) :
  same_shape g1 g2 -> same_shape g2 g3 -> same_shape g1 g3.
Proof. intros [H1 H2] [H1' H2']. split; [congruence|]. intros e. by rewrite H2'. Qed.

Lemma same_shape_update_pool (pid : PoolId) (f : Pool -> Pool) (g : State) :
  same_shape g (update_pool pid f g).
Proof. done. Qed.

Lemma edge_update_edge (e e' : EdgeId) (f : Edge -> Edge) (g : State) :
  edge (update_edge e f g) e' = if decide (e = e') then f (edge g e) else edge g e'.
Proof.
  unfold edge, update_edge. simpl. unfold lookup_total, map_lookup_total.
  destruct (decide (e = e')) as [->|Hne].
  - by rewrite lookup_insert_eq.
  - by rewrite lookup_insert_ne.
Qed.

Lemma same_shape_set_ready (e : EdgeId) (g : State) :
  same_shape g (update_edge e (set_outputs_ready true) g).
Proof.
  split; [done|]. intros e'. rewrite edge_update_edge.
  destruct (decide (e = e')) as [->|]; [|done]. by destruct (edge g e').
Qed.

Lemma same_shape_fields (g g' : State) (e : EdgeId) :
  same_shape g g' ->
  inputs_ (edge g' e) = inputs_ (edge g e)
  /\ outputs_ (edge g' e) = outputs_ (edge g e)
  /\ pool (edge g' e) = pool (edge g e)
  /\ is_phony (edge g' e) = is_phony (edge g e).
Proof.
  intros [_ H]. specialize (H e).
  destruct (edge g' e), (edge g e). simpl in H. by injection H as -> -> -> -> ->.
Qed.

Lemma same_shape_node (g g' : State) (n : NodeId) :
  same_shape g g' -> node g' n = node g n.
Proof. intros [H _]. by apply node_ext. Qed.

Lemma RetrieveReadyEdges_shape (pid : PoolId) b :
  same_shape (state_ b) (state_ (PlanOps.RetrieveReadyEdges pid b)).
Proof.
  unfold PlanOps.RetrieveReadyEdges.
  destruct (PoolOps.RetrieveReadyEdges _ _ _) as [p' ready']. done.
Qed.

Lemma RetrieveReadyEdges_edge (pid : PoolId) b (e : EdgeId) :
  edge (state_ (PlanOps.RetrieveReadyEdges pid b)) e = edge (state_ b) e.
Proof.
  unfold PlanOps.RetrieveReadyEdges.
  destruct (PoolOps.RetrieveReadyEdges _ _ _) as [p' ready']. done.
Qed.

Lemma RetrieveReadyEdges_plan (pid : PoolId) b :
  exists q, plan_ (PlanOps.RetrieveReadyEdges pid b)
            = plan_with_ready q (plan_ b).
Proof.
  unfold PlanOps.RetrieveReadyEdges.
  destruct (PoolOps.RetrieveReadyEdges _ _ _) as [p' ready']. by exists ready'.
Qed.

(** *** The straight-line part *)

Lemma finish_pool_plan (e : EdgeId) (w : Want) b :
  exists q, plan_ (finish_pool e w b) = plan_with_ready q (plan_ b).
Proof.
  unfold finish_pool.
  destruct (RetrieveReadyEdges_plan (pool (edge (state_ b) e))
              (if negb (bool_decide (w = kWantNothing))
               then with_state (update_pool (pool (edge (state_ b) e))
                                  PoolOps.EdgeFinished (state_ b)) b
               else b)) as [q Hq].
  exists q. rewrite Hq. by destruct (negb _).
Qed.

Lemma finish_pool_edge (e e' : EdgeId) (w : Want) b :
  edge (state_ (finish_pool e w b)) e' = edge (state_ b) e'.
Proof.
  unfold finish_pool. rewrite RetrieveReadyEdges_edge. by destruct (negb _).
Qed.

Lemma finish_pool_nodes (e : EdgeId) (w : Want) b :
  nodes (state_ (finish_pool e w b)) = nodes (state_ b).
Proof.
  unfold finish_pool.
  destruct (RetrieveReadyEdges_keeps (pool (edge (state_ b) e))
              (if negb (bool_decide (w = kWantNothing))
               then with_state (update_pool (pool (edge (state_ b) e))
                                  PoolOps.EdgeFinished (state_ b)) b
               else b)) as (_ & _ & _ & _ & _ & -> & _).
  by destruct (negb _).
Qed.

Lemma finish_pool_shape (e : EdgeId) (w : Want) b :
  same_shape (state_ b) (state_ (finish_pool e w b)).
Proof.
  split; [apply finish_pool_nodes|]. intros e'. by rewrite finish_pool_edge.
Qed.

Lemma finish_edge_want (e : EdgeId) (w : Want) b :
  want_ (plan_ (finish_edge e w b)) = delete e (want_ (plan_ b)).
Proof.
  unfold finish_edge, finish_erase.
  destruct (finish_pool_plan e w b) as [q Hq].
  destruct (negb _); simpl; by rewrite Hq.
Qed.

Lemma finish_edge_shape (e : EdgeId) (w : Want) b :
  same_shape (state_ b) (state_ (finish_edge e w b)).
Proof.
  eapply same_shape_trans; [apply (finish_pool_shape e w)|].
  unfold finish_edge, finish_erase. destruct (negb _); apply same_shape_set_ready.
Qed.

Lemma finish_edge_ready (e e' : EdgeId) (w : Want) b :
  outputs_ready_ (edge (state_ (finish_edge e w b)) e')
  = if decide (e = e') then true else outputs_ready_ (edge (state_ b) e').
Proof.
  unfold finish_edge, finish_erase.
  assert (E : forall b0 : Builder X double,
            edge (state_ (with_state (update_edge e (set_outputs_ready true)
                                        (state_ b0)) b0)) e'
            = if decide (e = e') then set_outputs_ready true (edge (state_ b0) e)
              else edge (state_ b0) e').
  { intros b0. simpl. apply edge_update_edge. }
  destruct (negb _); rewrite E; simpl; destruct (decide (e = e')); try done;
    by rewrite finish_pool_edge.
Qed.

Lemma finish_edge_command_edges (e : EdgeId) (w : Want) b :
  command_edges_ (plan_ (finish_edge e w b)) = command_edges_ (plan_ b).
Proof.
  unfold finish_edge, finish_erase.
  destruct (finish_pool_plan e w b) as [q Hq].
  destruct (negb _); simpl; by rewrite Hq.
Qed.

Lemma finish_edge_wanted_edges (e : EdgeId) (w : Want) b :
  wanted_edges_ (plan_ (finish_edge e w b))
  = if bool_decide (w = kWantNothing) then wanted_edges_ (plan_ b)
    else Int.to_int (wanted_edges_ (plan_ b) - 1).
Proof.
  unfold finish_edge, finish_erase.
  destruct (finish_pool_plan e w b) as [q Hq].
  destruct (bool_decide _); simpl; by rewrite Hq.
Qed.

(** *** [ScheduleWork] *)

Lemma ScheduleWork_finish (e : EdgeId) b :
  PlanOps.want_of b e = Some kWantToFinish -> PlanOps.ScheduleWork e b = Ret b.
Proof. intros H. unfold PlanOps.ScheduleWork. by rewrite H. Qed.

Lemma ScheduleWork_total (e : EdgeId) (w : Want) b :
  PlanOps.want_of b e = Some w -> w <> kWantNothing ->
  returns (PlanOps.ScheduleWork e b).
Proof.
  unfold PlanOps.ScheduleWork. intros -> Hw.
  destruct w; [done| |by eexists].
  destruct (PoolOps.ShouldDelayEdge _); by eexists.
Qed.

Lemma ScheduleWork_shape (e : EdgeId) b b' :
  PlanOps.ScheduleWork e b = Ret b' ->
  same_shape (state_ b) (state_ b')
  /\ command_edges_ (plan_ b') = command_edges_ (plan_ b)
  /\ wanted_edges_ (plan_ b') = wanted_edges_ (plan_ b)
  /\ exists w, PlanOps.want_of b e = Some w /\ w <> kWantNothing
               /\ want_ (plan_ b') = <[e := kWantToFinish]> (want_ (plan_ b)).
Proof.
  unfold PlanOps.ScheduleWork. intros H.
  destruct (PlanOps.want_of b e) as [[]|] eqn:Hw; try done.
  - destruct (PoolOps.ShouldDelayEdge _); injection H as <-.
    + match goal with
      | |- context [PlanOps.RetrieveReadyEdges ?pid ?b0] =>
          destruct (RetrieveReadyEdges_keeps pid b0) as (Ew & En & Ec & _);
          pose proof (RetrieveReadyEdges_shape pid b0) as Es
      end.
      rewrite Ew, En, Ec. split; [|split; [done|split; [done|]]].
      * eapply same_shape_trans; [|exact Es]. done.
      * exists kWantToStart. done.
    + split; [done|]. split; [done|]. split; [done|].
      exists kWantToStart. done.
  - injection H as <-. split; [done|]. split; [done|]. split; [done|].
    exists kWantToFinish. split; [done|]. split; [done|].
    symmetry. by apply insert_id.
Qed.

(** *** Steps *)

Lemma rtc_fstep_keeps (P : gset EdgeId * Builder X double -> Prop)
    (x y : gset EdgeId * Builder X double) :
  (forall x y, fstep x y -> P x -> P y) -> rtc fstep x y -> P x -> P y.
Proof. intros Hstep Hrtc. induction Hrtc; eauto. Qed.

Lemma fstep_shape (x y : gset EdgeId * Builder X double) :
  fstep x y ->
  same_shape (state_ x.2) (state_ y.2)
  /\ x.1 ⊆ y.1
  /\ (size (want_ (plan_ y.2)) <= size (want_ (plan_ x.2)))%nat.
Proof.
  intros H. destruct H as [F b b' e w Hw Hne Hin Hfed Hs|F b e Hw Hin Hfed];
    cbn [fst snd].
  - destruct (ScheduleWork_shape _ _ _ Hs) as (Hsh & _ & _ & w' & Hw' & _ & ->).
    split; [done|]. split; [done|].
    rewrite map_size_insert_Some; [done|]. unfold PlanOps.want_of in Hw'. eauto.
  - split; [apply finish_edge_shape|]. split; [set_solver|].
    rewrite finish_edge_want, map_size_delete. by destruct (_ !! _); simpl; lia.
Qed.

Lemma rtc_fstep_shape (x y : gset EdgeId * Builder X double) :
  rtc fstep x y ->
  same_shape (state_ x.2) (state_ y.2)
  /\ x.1 ⊆ y.1
  /\ (size (want_ (plan_ y.2)) <= size (want_ (plan_ x.2)))%nat.
Proof.
  intros H. induction H as [|x y z Hxy _ IH]; [done|].
  destruct (fstep_shape _ _ Hxy) as (H1 & H2 & H3).
  destruct IH as (H1' & H2' & H3').
  split; [by eapply same_shape_trans|]. split; [set_solver|lia].
Qed.

Lemma no_dyndep_check (g : State) :
  map_Forall (fun _ nd => dyndep_pending nd = false) (nodes g) -> no_dyndep g.
Proof.
  intros H n. unfold node, lookup_total, map_lookup_total.
  destruct (nodes g !! n) as [nd|] eqn:E; simpl; [|done]. by eapply H.
Qed.

Lemma no_dyndep_shape (g g' : State) :
  same_shape g g' -> no_dyndep g -> no_dyndep g'.
Proof. intros Hs H n. rewrite (same_shape_node _ _ n Hs). apply H. Qed.

(** Without dyndep, a successful [EdgeFinished] checks its edge off and then
    takes steps; it answers true, and it returns once the budget exceeds the
    size of the want map. *)
Lemma EdgeFinished_steps (strict : bool) (fuel : nat) :
  forall (e : EdgeId) b (w : Want) (F : gset EdgeId),
    no_dyndep (state_ b) ->
    PlanOps.want_of b e = Some w ->
    (strict = true -> (size (want_ (plan_ b)) < fuel)%nat) ->
    wp strict
       (fun rs => rs.1 = true
                  /\ exists F', rtc fstep ({[e]} ∪ F, finish_edge e w b) (F', rs.2))
       (PlanOps.EdgeFinished fuel e kEdgeSucceeded b).
Proof.
  induction fuel as [|fuel IH]; intros e b w F Hnd Hw Hsz.
  { simpl. destruct strict; [|done]. specialize (Hsz eq_refl). lia. }
  rewrite EdgeFinished_unfold, Hw.
  rewrite (bool_decide_eq_true_2 (kEdgeSucceeded = kEdgeSucceeded)) by done.
  cbn [negb].
  set (b3 := finish_edge e w b).
  set (I := fun s : Builder X double =>
              exists F', rtc fstep ({[e]} ∪ F, b3) (F', s)).
  assert (Hsize3 : (S (size (want_ (plan_ b3))) = size (want_ (plan_ b)))%nat).
  { unfold b3. rewrite finish_edge_want, map_size_delete.
    unfold PlanOps.want_of in Hw. rewrite Hw. simpl.
    assert (size (want_ (plan_ b)) <> 0%nat); [|lia].
    intros Hz. apply map_size_empty_inv in Hz. rewrite Hz in Hw. done. }
  assert (HI : forall s, I s ->
             same_shape (state_ b) (state_ s)
             /\ (size (want_ (plan_ s)) <= size (want_ (plan_ b3)))%nat
             /\ exists F', rtc fstep ({[e]} ∪ F, b3) (F', s) /\ e ∈ F').
  { intros s [F' Hr]. destruct (rtc_fstep_shape _ _ Hr) as (H1 & H2 & H3).
    simpl in *. split; [|split; [done|]].
    - eapply same_shape_trans; [apply (finish_edge_shape e w)|exact H1].
    - exists F'. split; [done|]. set_solver. }
  apply (wp_all_ok_true strict I); [by exists ({[e]} ∪ F)|].
  intros n s Hn Hs. destruct (HI s Hs) as (Hsh & Hsz' & F' & Hr & HeF).
  unfold PlanOps.NodeFinished_.
  rewrite (same_shape_node _ _ n Hsh), (Hnd n).
  apply (wp_all_ok_true strict I); [done|].
  intros oe s' Hoe Hs'. destruct (HI s' Hs') as (Hsh' & Hsz'' & F'' & Hr' & HeF').
  destruct (PlanOps.want_of s' oe) as [w'|] eqn:Hw'; [|done].
  unfold PlanOps.EdgeMaybeReady_.
  destruct (AllInputsReady (state_ s') oe) eqn:Hready; [|done].
  rewrite Hw'.
  assert (Hfed : fed_by F'' (state_ s') oe).
  { exists e, n. split; [done|]. split.
    - destruct (same_shape_fields _ _ e Hsh') as (_ & -> & _).
      destruct (same_shape_fields _ _ e (finish_edge_shape e w b)) as (_ & <- & _).
      exact Hn.
    - rewrite (same_shape_node _ _ n Hsh'). exact Hoe. }
  case_bool_decide as Hnothing; cbn [negb].
  - subst w'.
    eapply wp_mono; [|apply (IH oe s' kWantNothing F'')].
    + intros [r s''] (Hr1 & F3 & Hr3). split; [done|]. exists F3.
      eapply rtc_trans; [exact Hr'|].
      eapply rtc_l; [|exact Hr3]. by apply fstep_finish.
    + by eapply no_dyndep_shape.
    + done.
    + intros Hst. specialize (Hsz Hst). lia.
  - destruct (ScheduleWork_total oe w' s' Hw' Hnothing) as [s'' Hsched].
    rewrite Hsched. simpl.
    split; [done|]. exists F''.
    eapply rtc_trans; [exact Hr'|]. apply rtc_once.
    by eapply fstep_schedule.
Qed.

End FinishFacts.

(** ** The counters along a successful [EdgeFinished] *)

Section CountFacts.

Context {X double : Type} `{!Env X double}.
Implicit Type b : Builder X double.

Lemma wanted_lookup (m : gmap EdgeId Want) (e : EdgeId) :
  Counts.wanted m !! e
  = match m !! e with
    | Some w => if bool_decide (w = kWantNothing) then None else Some w
    | None => None
    end.
Proof.
  unfold Counts.wanted. destruct (m !! e) as [w|] eqn:Hm.
  - case_bool_decide as Hw.
    + apply map_lookup_filter_None. right. intros w' Hw'. simpl.
      rewrite Hm in Hw'. injection Hw' as <-. tauto.
    + apply map_lookup_filter_Some. done.
  - apply map_lookup_filter_None. by left.
Qed.

Lemma wanted_count_delete (m : gmap EdgeId Want) (e : EdgeId) (w : Want) :
  m !! e = Some w ->
  Counts.wanted_count (delete e m)
  = Counts.wanted_count m - (if bool_decide (w = kWantNothing) then 0 else 1)
  /\ (w <> kWantNothing -> 1 <= Counts.wanted_count m).
Proof.
  intros Hm. unfold Counts.wanted_count.
  change (Counts.wanted (delete e m)) with
    (filter (fun kv : EdgeId * Want => kv.2 <> kWantNothing) (delete e m)).
  rewrite map_filter_delete. fold (Counts.wanted m).
  rewrite map_size_delete, wanted_lookup, Hm.
  case_bool_decide as Hw; simpl; [split; [lia|done]|].
  assert (size (Counts.wanted m) <> 0%nat).
  { intros Hz. apply map_size_empty_inv in Hz.
    pose proof (wanted_lookup m e) as Hl. rewrite Hz, Hm in Hl.
    rewrite bool_decide_eq_false_2 in Hl by done. done. }
  split; [lia|]. intros _. lia.
Qed.

Lemma wanted_count_insert (m : gmap EdgeId Want) (e : EdgeId) (w w' : Want) :
  m !! e = Some w -> w <> kWantNothing -> w' <> kWantNothing ->
  Counts.wanted_count (<[e := w']> m) = Counts.wanted_count m.
Proof.
  intros Hm Hw Hw'. unfold Counts.wanted_count. f_equal.
  change (Counts.wanted (<[e := w']> m)) with
    (filter (fun kv : EdgeId * Want => kv.2 <> kWantNothing) (<[e := w']> m)).
  rewrite map_filter_insert_True by done. fold (Counts.wanted m).
  apply map_size_insert_Some. rewrite wanted_lookup, Hm.
  rewrite bool_decide_eq_false_2 by done. eauto.
Qed.

Lemma ScheduleWork_edges (e : EdgeId) b b' :
  PlanOps.ScheduleWork e b = Ret b' -> edges (state_ b') = edges (state_ b).
Proof.
  unfold PlanOps.ScheduleWork. intros H.
  destruct (PlanOps.want_of b e) as [[]|]; try done.
  - destruct (PoolOps.ShouldDelayEdge _); injection H as <-; [|done].
    match goal with
    | |- context [PlanOps.RetrieveReadyEdges ?pid ?b0] =>
        destruct (RetrieveReadyEdges_keeps pid b0) as (_ & _ & _ & _ & -> & _)
    end. done.
  - by injection H as <-.
Qed.

Lemma finish_edge_wanted_ok (e : EdgeId) (w : Want) b :
  PlanOps.want_of b e = Some w -> wanted_ok b -> wanted_ok (finish_edge e w b).
Proof.
  intros Hw [Hc Hi]. unfold wanted_ok.
  rewrite finish_edge_wanted_edges, finish_edge_want.
  destruct (wanted_count_delete _ _ _ Hw) as [-> Hpos].
  unfold Int.is_int in *.
  case_bool_decide as Hn.
  - split; [lia|done].
  - specialize (Hpos Hn). rewrite to_int_small; unfold Int.is_int; lia.
Qed.

Lemma fstep_finished_inv (e0 : EdgeId) (c0 : Z)
    (x y : gset EdgeId * Builder X double) :
  fstep x y -> finished_inv e0 c0 x -> finished_inv e0 c0 y.
Proof.
  intros H. destruct H as [F b b' e w Hw Hne Hin Hfed Hs|F b e Hw Hin Hfed];
    unfold finished_inv; cbn [fst snd]; intros ((Hc & Hi) & Hcmd & Hrdy & Hout).
  - destruct (ScheduleWork_shape _ _ _ Hs) as (_ & -> & Hwe & w' & Hw' & Hne' & Hm).
    unfold wanted_ok. rewrite Hwe, Hm.
    rewrite (wanted_count_insert _ _ w') by done.
    split; [done|]. split; [done|]. split.
    + rewrite (edge_ext _ (state_ b)); [done|]. by eapply ScheduleWork_edges.
    + rewrite lookup_insert_ne; [done|]. intros ->.
      unfold PlanOps.want_of in Hw'. congruence.
  - split; [by apply finish_edge_wanted_ok|].
    rewrite finish_edge_command_edges, finish_edge_ready, finish_edge_want.
    split; [done|]. split; [by destruct (decide (e = e0))|].
    destruct (decide (e = e0)) as [->|Hne].
    + apply lookup_delete_eq.
    + by rewrite lookup_delete_ne.
Qed.

End CountFacts.

(** Without dyndep, [EdgeFinished(e, kEdgeSucceeded)] on an edge of the plan
    returns true, given a budget above the size of the want map. *)
Lemma EdgeFinished_succeeded_returns {X double : Type} `{!Env X double}
    (fuel : nat) (e : EdgeId) (b : Builder X double) :
  no_dyndep (state_ b) ->
  is_Some (PlanOps.want_of b e) ->
  (size (want_ (plan_ b)) < fuel)%nat ->
  exists b', PlanOps.EdgeFinished fuel e kEdgeSucceeded b = Ret (true, b').
Proof.
  intros Hnd [w Hw] Hsz.
  destruct (wp_returns _ _ (EdgeFinished_steps true fuel e b w ∅ Hnd Hw
                              ltac:(done))) as ([r b'] & E & Hr & _).
  simpl in Hr. subst r. eauto.
Qed.

(** C1, as stated, does not hold: [command_edges_] is not decremented when an
    edge finishes, so after the only command edge of the plan has finished
    it is 1 while no wanted command edge is left in the want map. *)
Lemma EdgeFinished_keeps_command_edges :
  exists b',
    wanted_edges_ (plan_ Sim.b_running)
      = Counts.wanted_count (want_ (plan_ Sim.b_running))
    /\ command_edges_ (plan_ Sim.b_running)
       = Counts.command_count (state_ Sim.b_running) (want_ (plan_ Sim.b_running))
    /\ PlanOps.EdgeFinished 2 0%nat kEdgeSucceeded Sim.b_running = Ret (true, b')
    /\ command_edges_ (plan_ b') = 1
    /\ Counts.command_count (state_ b') (want_ (plan_ b')) = 0.
Proof. eexists. repeat split; vm_compute; reflexivity. Qed.

(** When no node waits for dyndep information and [wanted_edges_] agrees
    with the want map, then after [EdgeFinished(e, kEdgeSucceeded)] returned
    true the outputs of [e] are ready, [e] has no want entry, [wanted_edges_]
    is the number of entries that are not [kWantNothing], and
    [command_edges_] is what it was. *)
Theorem EdgeFinished_succeeded_effect {X double : Type} `{!Env X double}
    (fuel : nat) (e : EdgeId) (b b' : Builder X double) :
  no_dyndep (state_ b) ->
  wanted_edges_ (plan_ b) = Counts.wanted_count (want_ (plan_ b)) ->
  Int.is_int (wanted_edges_ (plan_ b)) ->
  PlanOps.EdgeFinished fuel e kEdgeSucceeded b = Ret (true, b') ->
  outputs_ready_ (edge (state_ b') e) = true
  /\ PlanOps.want_of b' e = None
  /\ wanted_edges_ (plan_ b') = Counts.wanted_count (want_ (plan_ b'))
  /\ command_edges_ (plan_ b') = command_edges_ (plan_ b).
Proof.
  intros Hnd Hc Hi Hret.
  destruct (PlanOps.want_of b e) as [w|] eqn:Hw.
  2:{ destruct fuel; [done|]. rewrite EdgeFinished_unfold, Hw in Hret. done. }
  pose proof (EdgeFinished_steps false fuel e b w ∅ Hnd Hw ltac:(done)) as Hwp.
  rewrite Hret in Hwp. destruct Hwp as (_ & F' & Hr). cbn [snd] in Hr.
  assert (H0 : finished_inv e (command_edges_ (plan_ b))
                 ({[e]} ∪ ∅, finish_edge e w b)).
  { unfold finished_inv. cbn [fst snd].
    split; [by apply finish_edge_wanted_ok|].
    rewrite finish_edge_command_edges, finish_edge_ready, finish_edge_want.
    split; [done|]. split; [by rewrite decide_True|]. apply lookup_delete_eq. }
  pose proof (rtc_fstep_keeps _ _ _ (fstep_finished_inv e _) Hr H0)
    as ((Hc' & _) & Hcmd & Hrdy & Hout).
  done.
Qed.

Lemma EdgeFinished_succeeded_effect_witness :
  exists b',
    PlanOps.EdgeFinished 2 0%nat kEdgeSucceeded Sim.b_running = Ret (true, b')
    /\ outputs_ready_ (edge (state_ b') 0%nat) = true
    /\ PlanOps.want_of b' 0%nat = None
    /\ wanted_edges_ (plan_ b') = Counts.wanted_count (want_ (plan_ b'))
    /\ command_edges_ (plan_ b') = command_edges_ (plan_ Sim.b_running).
Proof.
  eexists. split; [vm_compute; reflexivity|].
  apply (EdgeFinished_succeeded_effect 2 0%nat Sim.b_running).
  - apply no_dyndep_check.
    apply (bool_decide_unpack
             (map_Forall (fun (_ : NodeId) nd => dyndep_pending nd = false)
                         (nodes (state_ Sim.b_running)))).
    vm_compute. exact I.
  - vm_compute. reflexivity.
  - vm_compute. split; [discriminate|reflexivity].
  - vm_compute. reflexivity.
Defined.

(** ** The label heuristic, continued *)

Section LabelFacts.

Local Open Scope nat_scope.

Lemma absent_triple_of_single (s : string) :
  Str.absent "_" s -> Str.absent "___" s.
Proof.
  intros H a b E. apply (H a ("__" +:+ b)). rewrite E. reflexivity.
Qed.

(** What [FormatTargetName] returns for a name with a [___] has no
    underscore left. *)
Lemma FormatTargetName_tail_no_underscore (name : string) (pos : nat) :
  Str.rfind name "___" = Some pos ->
  Str.absent "_" (VizioLog.FormatTargetName name).
Proof.
  intros H. unfold VizioLog.FormatTargetName. rewrite H.
  destruct (Str.rfind (Str.take pos name) "_") as [p|] eqn:R.
  - destruct (rfind_Some _ _ _ R) as (b & E & L & A).
    assert (Eb : Str.drop (p + 1) (Str.take pos name) = b).
    { rewrite E at 1. rewrite <- L at 1.
      replace (String.length (Str.take p (Str.take pos name)) + 1)
        with (String.length (Str.take p (Str.take pos name) +:+ "_"))
        by (by rewrite app_length).
      by rewrite <- app_assoc', drop_app. }
    rewrite Eb. eapply A. reflexivity.
  - by apply rfind_None.
Qed.

End LabelFacts.

(** [FormatTargetName] is idempotent: a label is its own label. *)
Theorem FormatTargetName_idempotent (name : string) :
  VizioLog.FormatTargetName (VizioLog.FormatTargetName name)
  = VizioLog.FormatTargetName name.
Proof.
  destruct (Str.rfind name "___") as [pos|] eqn:R.
  - apply FormatTargetName_no_tail, absent_triple_of_single.
    by eapply FormatTargetName_tail_no_underscore.
  - unfold VizioLog.FormatTargetName at 2. rewrite R.
    unfold VizioLog.FormatTargetName. by rewrite R.
Qed.

(** ** [VizioLog::getLastNotEmptyLine] *)

Section LastLineFacts.

Import VizioLogMore.

Local Open Scope nat_scope.

Lemma newlines_length (k : nat) : String.length (newlines k) = k.
Proof. induction k as [|k IH]; simpl; congruence. Qed.

Lemma newlines_snoc (k : nat) : newlines (S k) = newlines k +:+ newline.
Proof.
  induction k as [|k IH]; [reflexivity|].
  change (newlines (S (S k))) with (String (Ascii.ascii_of_nat 10) (newlines (S k))).
  rewrite IH at 1. reflexivity.
Qed.

Lemma take_newlines (j k : nat) : j <= k -> Str.take j (newlines k) = newlines j.
Proof.
  revert k. induction j as [|j IH]; intros [|k] H; simpl; try reflexivity; try lia.
  f_equal. apply IH. lia.
Qed.

Lemma take_all (s : string) : Str.take (String.length s) s = s.
Proof. induction s as [|c s IH]; simpl; congruence. Qed.

Lemma drop_all (s : string) : Str.drop (String.length s) s = "".
Proof. induction s as [|c s IH]; simpl; congruence. Qed.

(** In a string that ends with a line feed the last line feed is the last
    character. *)
Lemma rfind_newline_end (s : string) :
  Str.rfind (s +:+ newline) newline = Some (String.length s).
Proof.
  pose proof (rfind_last s newline "") as H.
  rewrite app_empty_r in H. apply H; [done|].
  intros c t E. injection E as _ <-. intros a b Eab. by destruct a.
Qed.

Lemma rfind_newlines (k : nat) :
  Str.rfind (newlines k) newline
  = match k with O => None | S j => Some j end.
Proof.
  destruct k as [|k]; [reflexivity|].
  rewrite newlines_snoc, rfind_newline_end. by rewrite newlines_length.
Qed.

(** On line feeds only, the loop goes on with line feeds only. *)
Lemma last_line_loop_newlines (fuel : nat) :
  forall (k : nat) (found : option nat),
    match found with Some j => j <= k | None => True end ->
    last_line_loop fuel (newlines k) found = OutOfFuel.
Proof.
  induction fuel as [|fuel IH]; intros k found Hf; [reflexivity|].
  cbn [last_line_loop].
  assert (E : exists j, substr_upto (newlines k) found = newlines j) .
  { destruct found as [j|]; simpl; [|by exists k].
    exists j. by apply take_newlines. }
  destruct E as [j ->]. rewrite rfind_newlines.
  destruct j as [|j].
  - simpl. apply (IH 0 None). done.
  - cbn [substr_after]. replace (j + 1) with (String.length (newlines (S j))).
    + rewrite drop_all. simpl Str.empty. cbv iota. apply (IH (S j) (Some j)). lia.
    + rewrite newlines_length. lia.
Qed.

End LastLineFacts.

(** [getLastNotEmptyLine] never returns on an output that consists of line
    feeds only (the empty output included): its loop keeps asking for a
    non-empty line that is not there. *)
Theorem getLastNotEmptyLine_hangs_on_blank (fuel k : nat) :
  VizioLogMore.getLastNotEmptyLine fuel (VizioLogMore.newlines k) = OutOfFuel.
Proof.
  unfold VizioLogMore.getLastNotEmptyLine.
  rewrite last_line_loop_newlines; [done|]. by rewrite newlines_length.
Qed.

Section LastLineReturns.

Import VizioLogMore.

Local Open Scope nat_scope.

Lemma take_app_plus (a s : string) (j : nat) :
  Str.take (String.length a + j) (a +:+ s) = a +:+ Str.take j s.
Proof.
  induction a as [|c a IH]; [reflexivity|].
  rewrite !app_cons. simpl. by rewrite IH.
Qed.

Lemma drop_app_plus (a s : string) (j : nat) :
  Str.drop (String.length a + j) (a +:+ s) = Str.drop j s.
Proof. induction a as [|c a IH]; [reflexivity|]. rewrite app_cons. apply IH. Qed.

Lemma take_zero (s : string) : Str.take 0 s = "".
Proof. by destruct s. Qed.

(** The loop strips the line feeds at the end and stops at the last line
    that is not empty. *)
Lemma last_line_loop_strips (j : nat) :
  forall (fuel k : nat) (base : string),
    j <= k -> j < fuel ->
    Str.empty (substr_after base (Str.rfind base newline)) = false ->
    last_line_loop fuel (base +:+ newlines k) (Some (String.length base + j))
    = Ret (base, Str.rfind base newline,
           substr_after base (Str.rfind base newline)).
Proof.
  induction j as [|j IH]; intros fuel k base Hjk Hfuel Hne;
    (destruct fuel as [|fuel]; [lia|]); cbn [last_line_loop substr_upto].
  - rewrite take_app_plus, take_zero, app_empty_r. by rewrite Hne.
  - rewrite take_app_plus, take_newlines by lia.
    rewrite newlines_snoc, <- app_assoc', rfind_newline_end.
    cbn [substr_after].
    replace (String.length (base +:+ newlines j) + 1)
      with (String.length ((base +:+ newlines j) +:+ newline))
      by (rewrite !app_length; reflexivity).
    rewrite drop_all. simpl Str.empty. cbv iota.
    rewrite app_assoc', <- newlines_snoc, app_length, newlines_length.
    apply IH; [lia|lia|done].
Qed.

End LastLineReturns.

(** On an output whose last non-empty line is [line], followed by [k] line
    feeds, [getLastNotEmptyLine] returns after [k + 1] rounds: the whole
    line when it is the first line of the output, and what follows its last
    carriage return otherwise. *)
Theorem getLastNotEmptyLine_last_line (line : string) (k fuel : nat) :
  line <> "" -> Str.absent VizioLogMore.newline line -> (k < fuel)%nat ->
  VizioLogMore.getLastNotEmptyLine fuel (line +:+ VizioLogMore.newlines k)
  = Ret line
  /\ forall pre,
       VizioLogMore.getLastNotEmptyLine fuel
         (((pre +:+ VizioLogMore.newline) +:+ line) +:+ VizioLogMore.newlines k)
       = Ret (VizioLogMore.after_last_cr line).
Proof.
  intros Hne Habs Hfuel. unfold VizioLogMore.getLastNotEmptyLine. split.
  - rewrite app_length, newlines_length.
    rewrite (last_line_loop_strips k fuel k line); [|lia|lia|].
    + rewrite (absent_rfind line VizioLogMore.newline); done.
    + rewrite (absent_rfind line VizioLogMore.newline) by done.
      by destruct line.
  - intros pre.
    assert (R : Str.rfind ((pre +:+ VizioLogMore.newline) +:+ line)
                          VizioLogMore.newline = Some (String.length pre)).
    { rewrite app_assoc'. apply rfind_last; [done|].
      intros c t E. injection E as _ <-. exact Habs. }
    assert (D : VizioLogMore.substr_after
                  ((pre +:+ VizioLogMore.newline) +:+ line)
                  (Some (String.length pre)) = line).
    { cbn [VizioLogMore.substr_after].
      replace (String.length pre + 1)%nat
        with (String.length (pre +:+ VizioLogMore.newline))
        by (by rewrite app_length).
      apply drop_app. }
    rewrite app_length, newlines_length.
    rewrite (last_line_loop_strips k fuel k); [|lia|lia|].
    + rewrite R, D. cbn [res_bind]. unfold VizioLogMore.after_last_cr.
      by destruct (Str.rfind line VizioLogMore.carriage_return).
    + rewrite R, D. by destruct line.
Qed.

Lemma getLastNotEmptyLine_last_line_witness :
  VizioLogMore.getLastNotEmptyLine 3 ("[1/2] cc a.c" +:+ VizioLogMore.newlines 2)
  = Ret "[1/2] cc a.c".
Proof.
  apply (getLastNotEmptyLine_last_line "[1/2] cc a.c" 2 3).
  - discriminate.
  - apply rfind_None. reflexivity.
  - lia.
Defined.

(** ** The dry-run runner *)

Section DryRunFacts.

Context {X double : Type} `{!Floating double} `{!Env X double}.
Implicit Type b : Builder X double.

Lemma start_all_dry (es : list EdgeId) (q : list EdgeId) b :
  DryRunOps.start_all es (DryRun q) b = (DryRun (q ++ es), b).
Proof.
  unfold DryRunOps.start_all. revert q.
  induction es as [|e es IH]; intros q; simpl.
  - by rewrite app_nil_r.
  - rewrite IH. by rewrite <- app_assoc.
Qed.

Lemma wait_all_dry (n : nat) (q : list EdgeId) b :
  DryRunOps.wait_all n (DryRun q) b
  = ((fun e => (e, ExitSuccess)) <$> take n q, DryRun (drop n q)).
Proof.
  revert q. induction n as [|n IH]; intros q; [done|].
  destruct q as [|e q]; [done|]. simpl. by rewrite IH.
Qed.

End DryRunFacts.

(** The dry-run runner is a queue: the commands started are reported in the
    order they were started, each as a success and none twice, and a wait
    on the drained runner reports nothing.  Neither call touches the
    builder. *)
Theorem dry_run_reports_in_start_order {X double : Type}
    `{!Floating double} `{!Env X double}
    (es : list EdgeId) (n : nat) (b : Builder X double) :
  (DryRunOps.start_all es (DryRun []) b).2 = b
  /\ DryRunOps.wait_all n (DryRunOps.start_all es (DryRun []) b).1 b
     = ((fun e => (e, ExitSuccess)) <$> take n es, DryRun (drop n es)).
Proof. rewrite start_all_dry. simpl. split; [done|]. apply wait_all_dry. Qed.

(** ** Bounds of the admission rule *)

(** [RealCommandRunner::CanRunMore] lets at least one command start when no
    subprocess is running, whatever the load, and never admits more than
    the free slots [parallelism - (running + finished)] unless that would
    leave the runner idle. *)
Theorem CanRunMore_progress_and_bound {double : Type} `{!Floating double}
    (config : BuildConfig double) (running finished : nat)
    (load_average : double) :
  Int.is_int (parallelism config) ->
  Z.of_nat running + Z.of_nat finished < 2 ^ 62 ->
  Int.is_int (d_to_int (d_sub (max_load_average config) load_average)) ->
  let n := Runner.RealCanRunMore config running finished load_average in
  0 <= n
  /\ (running = 0%nat -> 1 <= n)
  /\ n <= Z.max 1 (parallelism config - (Z.of_nat running + Z.of_nat finished)).
Proof.
  intros Hp Hn Hl. unfold Runner.RealCanRunMore. unfold Int.is_int in *.
  set (k := Z.of_nat running + Z.of_nat finished) in *.
  assert (Hk : 0 <= k) by (unfold k; lia).
  rewrite <- (to_size_t_small k) at 1 by lia.
  rewrite (to_size_t_small k) at 1 by lia.
  rewrite size_t_difference by (unfold Int.is_int64; lia).
  set (l := d_to_int _) in *.
  set (cap := if d_positive _ then _ else _).
  assert (Hcap : cap <= parallelism config - k /\ - 2 ^ 62 - 2 ^ 31 <= cap).
  { unfold cap. destruct (d_positive _); [|lia].
    destruct (Z.ltb_spec l (parallelism config - k)); lia. }
  set (cap0 := if cap <? 0 then 0 else cap).
  assert (Hcap0 : 0 <= cap0 /\ cap0 <= Z.max 0 (parallelism config - k)).
  { unfold cap0. destruct (Z.ltb_spec cap 0); lia. }
  case_bool_decide as Hrun.
  - rewrite andb_true_r. destruct (Z.eqb_spec cap0 0) as [E|E];
      rewrite to_size_t_small by lia; lia.
  - rewrite andb_false_r. rewrite to_size_t_small by lia.
    split; [lia|]. split; [done|]. lia.
Qed.

Lemma CanRunMore_progress_and_bound_witness :
  let config :=
    mkBuildConfig NORMAL false 2 1 (1, 2%positive) true false "" in
  let n := Runner.RealCanRunMore config 0 3 (9, 1%positive) in
  0 <= n /\ (0%nat = 0%nat -> 1 <= n) /\ n <= Z.max 1 (2 - (0 + 3)).
Proof.
  apply (CanRunMore_progress_and_bound
           (mkBuildConfig NORMAL false 2 1 (1, 2%positive) true false "")
           0 3 (9, 1%positive)).
  - vm_compute. split; [discriminate|reflexivity].
  - vm_compute. reflexivity.
  - vm_compute. split; [discriminate|reflexivity].
Defined.

(** What the wait loop hands over is a subprocess that [NextFinished]
    returned. *)
Lemma next_finished_Some {X double : Type} `{!Env X double}
    (fuel : nat) (x x' : X) (sp : nat) :
  Runner.next_finished fuel x = Ret (Some sp, x') ->
  exists x0, subprocs_NextFinished x0 = (Some sp, x').
Proof.
  revert x. induction fuel as [|fuel IH]; intros x; cbn [Runner.next_finished];
    destruct (subprocs_NextFinished x) as [[sp0|] x1] eqn:E.
  - intros [= <- <-]. by exists x.
  - done.
  - intros [= <- <-]. by exists x.
  - destruct (subprocs_DoWork x1) as [[] x2]; [done|]. apply IH.
Qed.

(** A result that [RealCommandRunner::WaitForCommand] reports belongs to
    the subprocess that [NextFinished] returned: its edge is the entry of
    that subprocess in [subproc_to_edge_] (an active edge), which is removed
    from the table, its status is what [Finish] of that subprocess gave and
    its output is [GetOutput] of it when bufferization is enabled.  The
    result carries the formatted rule name exactly when the command did not
    succeed.  The plan and the graph are not touched. *)
Theorem WaitForCommand_reports_active {X double : Type} `{!Floating double}
    `{!Env X double} (fuel : nat) (m : RealCommandRunner)
    (result result' : Result) (rn' : CommandRunner) (b b' : Builder X double) :
  Runner.WaitForCommand fuel (Real m) result b = Ret (true, result', rn', b') ->
  (exists sp x,
     Runner.next_finished fuel (world b) = Ret (Some sp, x)
     /\ (exists x0, subprocs_NextFinished x0 = (Some sp, x))
     /\ m !! sp = Some (result_edge result')
     /\ rn' = Real (delete sp m)
     /\ result_status result' = (subproc_Finish sp x).1
     /\ result_output result'
        = (if enable_bufferization (config_ b)
           then subproc_GetOutput sp (subproc_Finish sp x).2
           else result_output result)
     /\ world b' = subproc_delete sp (subproc_Finish sp x).2)
  /\ result_edge result' ∈ Runner.GetActiveEdges (Real m)
  /\ formatEdgeName result'
     = (if success result' then formatEdgeName result
        else VizioLog.FormatTargetName
               (rule_name (edge (state_ b) (result_edge result'))))
  /\ plan_ b' = plan_ b
  /\ state_ b' = state_ b.
Proof.
  cbn [Runner.WaitForCommand]. intros H.
  destruct (Runner.next_finished fuel (world b)) as [[[sp|] x]| |] eqn:Hnf;
    [|done..].
  pose proof (next_finished_Some _ _ _ _ Hnf) as Hx0.
  cbn [res_bind] in H.
  destruct (subproc_Finish sp x) as [status x1] eqn:Hfin.
  destruct (m !! sp) as [e|] eqn:Hm; [|done].
  assert (He : e ∈ Runner.GetActiveEdges (Real m)).
  { cbn [Runner.GetActiveEdges]. apply list_elem_of_fmap.
    exists (sp, e). split; [done|]. by apply elem_of_map_to_list. }
  unfold success in *. cbn [result_status] in H.
  case_bool_decide as Hs; cbn [negb] in H; injection H as <- <- <-;
    cbn [result_edge result_status result_output formatEdgeName].
  - rewrite bool_decide_eq_true_2 by done.
    split; [exists sp, x; rewrite Hfin; by eauto 10|]. eauto 10.
  - rewrite bool_decide_eq_false_2 by done.
    split; [exists sp, x; rewrite Hfin; by eauto 10|]. eauto 10.
Qed.

Lemma WaitForCommand_reports_active_witness :
  exists result' b',
    Runner.WaitForCommand 1 (Real SimMore.cc_table) SimMore.no_result
                          SimMore.b_ended
      = Ret (true, result', Real ∅, b')
    /\ (exists sp x,
          Runner.next_finished 1 (world SimMore.b_ended) = Ret (Some sp, x)
          /\ (exists x0, subprocs_NextFinished x0 = (Some sp, x))
          /\ SimMore.cc_table !! sp = Some (result_edge result')
          /\ Real ∅ = Real (delete sp SimMore.cc_table)
          /\ result_status result' = (subproc_Finish sp x).1
          /\ result_output result'
             = (if enable_bufferization (config_ SimMore.b_ended)
                then subproc_GetOutput sp (subproc_Finish sp x).2
                else result_output SimMore.no_result)
          /\ world b' = subproc_delete sp (subproc_Finish sp x).2)
    /\ result_edge result' ∈ Runner.GetActiveEdges (Real SimMore.cc_table)
    /\ formatEdgeName result'
       = (if success result' then formatEdgeName SimMore.no_result
          else VizioLog.FormatTargetName
                 (rule_name (edge (state_ SimMore.b_ended) (result_edge result'))))
    /\ plan_ b' = plan_ SimMore.b_ended
    /\ state_ b' = state_ SimMore.b_ended.
Proof.
  eexists _, _. split; [vm_compute; reflexivity|].
  eapply (WaitForCommand_reports_active 1 SimMore.cc_table SimMore.no_result).
  vm_compute. reflexivity.
Defined.

(** ** What [Plan::AddTarget] touches *)

(** [AddTarget] never writes to the graph or to the ready queue, never
    removes a want entry and never changes an entry other than from
    [kWantNothing]; it pushes the target onto [targets_]. *)
Theorem AddTarget_only_grows_want {X double : Type} `{!Env X double}
    (fuel : nat) (t : NodeId) (b b' : Builder X double) (r : bool) :
  PlanOps.AddTarget fuel t b = Ret (r, b') ->
  state_ b' = state_ b
  /\ ready_ (plan_ b') = ready_ (plan_ b)
  /\ targets_ (plan_ b') = targets_ (plan_ b) ++ [t]
  /\ want_grows (want_ (plan_ b)) (want_ (plan_ b')).
Proof.
  intros H. rewrite AddTarget_unfold in H.
  pose proof (AddSubTarget_wp false fuel t None None (pushed t b)
                ltac:(done)) as Hwp.
  destruct (PlanOps.AddSubTarget fuel t None (None, pushed t b))
    as [[r0 [w b0]]| |]; [|done..].
  injection H as -> ->. destruct Hwp as (H1 & H2 & H3 & H4). done.
Qed.

Lemma AddTarget_only_grows_want_witness :
  state_ Sim.b_added = state_ (Sim.builder0 Sim.g_single Sim.config0 Sim.outside0)
  /\ ready_ (plan_ Sim.b_added) = []
  /\ targets_ (plan_ Sim.b_added) = [] ++ [1%nat]
  /\ want_grows ∅ (want_ (plan_ Sim.b_added)).
Proof.
  apply (AddTarget_only_grows_want 2 1%nat
           (Sim.builder0 Sim.g_single Sim.config0 Sim.outside0) Sim.b_added true).
  vm_compute. reflexivity.
Defined.

(** [AddTarget] returns on every graph whose nodes name edges of the store,
    cyclic or not, once the budget of the model exceeds the number of edges
    that have no want entry. *)
Theorem AddTarget_terminates {X double : Type} `{!Env X double}
    (fuel : nat) (t : NodeId) (b : Builder X double) :
  edges_closed (state_ b) -> (unvisited b < fuel)%nat ->
  exists r b', PlanOps.AddTarget fuel t b = Ret (r, b').
Proof.
  intros Hc Hu. destruct (AddTarget_returns fuel t b Hc Hu) as [[r b'] E].
  eauto.
Qed.

Lemma edges_closed_check (g : State) :
  map_Forall (fun _ nd => match in_edge nd with
                          | Some e => bool_decide (is_Some (edges g !! e))
                          | None => true
                          end = true) (nodes g) ->
  edges_closed g.
Proof.
  intros H n e. unfold node, lookup_total, map_lookup_total.
  destruct (nodes g !! n) as [nd|] eqn:E; simpl; [|done].
  intros Hin. specialize (H n nd E). simpl in H. rewrite Hin in H.
  by apply bool_decide_eq_true in H.
Qed.

Lemma AddTarget_terminates_witness :
  exists r b', PlanOps.AddTarget 3 0%nat SimMore.b_cycle = Ret (r, b').
Proof.
  apply (AddTarget_terminates 3 0%nat SimMore.b_cycle).
  - apply edges_closed_check.
    apply (bool_decide_unpack
             (map_Forall (fun (_ : NodeId) nd =>
                            match in_edge nd with
                            | Some e =>
                                bool_decide (is_Some (edges SimMore.g_cycle !! e))
                            | None => true
                            end = true) (nodes SimMore.g_cycle))).
    vm_compute. exact I.
  - vm_compute. lia.
Defined.

Lemma EdgeFinished_succeeded_returns_witness :
  exists b', PlanOps.EdgeFinished 2 0%nat kEdgeSucceeded Sim.b_running
             = Ret (true, b').
Proof.
  apply (EdgeFinished_succeeded_returns 2 0%nat Sim.b_running).
  - apply no_dyndep_check.
    apply (bool_decide_unpack
             (map_Forall (fun (_ : NodeId) nd => dyndep_pending nd = false)
                         (nodes (state_ Sim.b_running)))).
    vm_compute. exact I.
  - exists kWantToFinish. reflexivity.
  - vm_compute. lia.
Defined.

(** ** Scheduling an edge twice *)

(** [ScheduleWork] is idempotent: once it has returned for an edge, a second
    call for the same edge changes nothing (the entry is [kWantToFinish] by
    then, so the edge is not queued a second time). *)
Theorem ScheduleWork_idempotent {X double : Type} `{!Env X double}
    (e : EdgeId) (b b1 : Builder X double) :
  PlanOps.ScheduleWork e b = Ret b1 ->
  PlanOps.want_of b1 e = Some kWantToFinish
  /\ PlanOps.ScheduleWork e b1 = Ret b1.
Proof.
  intros H.
  assert (Hw : PlanOps.want_of b1 e = Some kWantToFinish).
  { unfold PlanOps.ScheduleWork in H.
    destruct (PlanOps.want_of b e) as [[| |]|] eqn:Hw; try done.
    - destruct (PoolOps.ShouldDelayEdge _); injection H as <-.
      + unfold PlanOps.want_of.
        match goal with
        | |- context [PlanOps.RetrieveReadyEdges ?pid ?bb] =>
            rewrite (proj1 (RetrieveReadyEdges_keeps pid bb))
        end.
        apply lookup_insert_eq.
      + apply lookup_insert_eq.
    - by injection H as <-. }
  split; [exact Hw|]. unfold PlanOps.ScheduleWork. by rewrite Hw.
Qed.

Lemma ScheduleWork_idempotent_witness :
  exists b1,
    PlanOps.ScheduleWork 0%nat Sim.b_added = Ret b1
    /\ PlanOps.want_of b1 0%nat = Some kWantToFinish
    /\ PlanOps.ScheduleWork 0%nat b1 = Ret b1.
Proof.
  eexists. split; [vm_compute; reflexivity|].
  eapply (ScheduleWork_idempotent 0%nat Sim.b_added). vm_compute. reflexivity.
Defined.
(** ** The counters of the plan agree with the want map *)

Section CountsAgree.

Context {X double : Type} `{!Env X double}.
Implicit Type b : Builder X double.

Lemma size_filter_insert (P : EdgeId * Want -> Prop)
    `{!forall x, Decision (P x)} (m : gmap EdgeId Want) (i : EdgeId) (x : Want) :
  (size (filter P (<[i := x]> m))
   + match m !! i with
     | Some y => if decide (P (i, y)) then 1 else 0
     | None => 0
     end
   = size (filter P m) + if decide (P (i, x)) then 1 else 0)%nat.
Proof.
  assert (Hl : filter P m !! i
               = match m !! i with
                 | Some y => if decide (P (i, y)) then Some y else None
                 | None => None
                 end).
  { destruct (m !! i) as [y|] eqn:Hm.
    - destruct (decide (P (i, y))).
      + by apply map_lookup_filter_Some.
      + apply map_lookup_filter_None. right. intros y' Hy'.
        rewrite Hm in Hy'. by injection Hy' as <-.
    - apply map_lookup_filter_None. by left. }
  destruct (decide (P (i, x))) as [Hx|Hx].
  - rewrite map_filter_insert_True by done.
    destruct (m !! i) as [y|]; [destruct (decide (P (i, y)))|].
    + rewrite map_size_insert_Some by (rewrite Hl; eauto). lia.
    + rewrite map_size_insert_None by done. lia.
    + rewrite map_size_insert_None by done. lia.
  - rewrite map_filter_insert_False, map_filter_delete, map_size_delete by done.
    rewrite Hl.
    destruct (m !! i) as [y|]; [destruct (decide (P (i, y)))|];
      cbn [id option_rect]; try lia.
    assert (size (filter P m) <> 0)%nat; [|lia].
    intros H0. apply map_size_empty_inv in H0. rewrite H0 in Hl.
    by rewrite lookup_empty in Hl.
Qed.

Lemma wanted_count_le (m : gmap EdgeId Want) :
  0 <= Counts.wanted_count m <= Z.of_nat (size m).
Proof.
  unfold Counts.wanted_count, Counts.wanted.
  pose proof (map_subseteq_size _ _
                (map_filter_subseteq (fun kv : EdgeId * Want => kv.2 <> kWantNothing) m)).
  lia.
Qed.

Lemma command_count_le (g : State) (m : gmap EdgeId Want) :
  0 <= Counts.command_count g m <= Z.of_nat (size m).
Proof.
  unfold Counts.command_count, Counts.commands.
  pose proof (map_subseteq_size _ _
                (map_filter_subseteq
                   (fun kv : EdgeId * Want =>
                      kv.2 <> kWantNothing /\ is_phony (edge g kv.1) = false) m)).
  lia.
Qed.

Lemma counts_insert (g : State) (m : gmap EdgeId Want) (e : EdgeId) (w : Want) :
  (m !! e = None \/ m !! e = Some kWantNothing) ->
  Counts.wanted_count (<[e := w]> m)
  = Counts.wanted_count m + (if bool_decide (w = kWantNothing) then 0 else 1)
  /\ Counts.command_count g (<[e := w]> m)
     = Counts.command_count g m
       + (if bool_decide (w = kWantNothing) then 0
          else if is_phony (edge g e) then 0 else 1).
Proof.
  intros Hm. unfold Counts.wanted_count, Counts.command_count,
    Counts.wanted, Counts.commands.
  pose proof (size_filter_insert
                (fun kv : EdgeId * Want => kv.2 <> kWantNothing) m e w) as H1.
  pose proof (size_filter_insert
                (fun kv : EdgeId * Want =>
                   kv.2 <> kWantNothing /\ is_phony (edge g kv.1) = false)
                m e w) as H2.
  cbn [fst snd] in H1, H2.
  assert (Hold1 : (match m !! e with
                   | Some y => if decide (y <> kWantNothing) then 1 else 0
                   | None => 0
                   end = 0)%nat).
  { destruct Hm as [-> | ->]; [done|]. by rewrite decide_False by tauto. }
  assert (Hold2 : (match m !! e with
                   | Some y => if decide (y <> kWantNothing
                                          /\ is_phony (edge g e) = false)
                               then 1 else 0
                   | None => 0
                   end = 0)%nat).
  { destruct Hm as [-> | ->]; [done|]. by rewrite decide_False by tauto. }
  rewrite Hold1 in H1. rewrite Hold2 in H2. clear Hold1 Hold2.
  case_bool_decide as Hw.
  - rewrite decide_False in H1 by tauto. rewrite decide_False in H2 by tauto.
    lia.
  - rewrite decide_True in H1 by done.
    destruct (is_phony (edge g e)) eqn:Hp.
    + rewrite decide_False in H2 by (intros [_ ?]; done). lia.
    + rewrite decide_True in H2 by done. lia.
Qed.

Lemma size_insert_le (m : gmap EdgeId Want) (e : EdgeId) (w : Want) :
  (size m <= size (<[e := w]> m))%nat.
Proof.
  destruct (m !! e) eqn:Hm.
  - by rewrite map_size_insert_Some by eauto.
  - rewrite map_size_insert_None by done. lia.
Qed.

Lemma want_grows_size (m m' : gmap EdgeId Want) :
  want_grows m m' -> (size m <= size m')%nat.
Proof.
  intros H. rewrite <- !size_dom.
  apply subseteq_size, (want_grows_dom _ _ H).
Qed.

(** Entering an edge keeps the counters in step with the want map. *)
Lemma entered_counts (e : EdgeId) (d : bool) b :
  (countable_plan b -> counts_agree b) ->
  countable_plan (entered e d b) -> counts_agree (entered e d b).
Proof.
  intros Hb Hc.
  pose proof (proj1 (entered_want e d b)) as Hg.
  apply want_grows_size in Hg.
  assert (Hcb : countable_plan b) by (unfold countable_plan in *; lia).
  destruct (Hb Hcb) as [Hw Hk]. clear Hb.
  pose proof (wanted_count_le (want_ (plan_ (entered e d b)))) as Hle1.
  pose proof (command_count_le (state_ (entered e d b))
                (want_ (plan_ (entered e d b)))) as Hle2.
  unfold countable_plan in Hc.
  revert Hc Hle1 Hle2. clear Hg.
  unfold counts_agree, entered, PlanOps.want_of, PlanOps.EdgeWanted,
    PlanOps.set_want.
  destruct (want_ (plan_ b) !! e) as [v|] eqn:Hv.
  - rewrite (bool_decide_eq_false_2 (Some v = None)) by done.
    rewrite Hv. cbn [default from_option id].
    destruct d; cbn [andb]; [|done].
    case_bool_decide as Hn; [|done]. subst v.
    destruct (counts_insert (state_ b) (want_ (plan_ b)) e kWantToStart
                ltac:(by right)) as [C1 C2].
    rewrite bool_decide_eq_false_2 in C1, C2 by done.
    destruct (is_phony (edge (state_ b) e)) eqn:Hp; simpl; rewrite ?Hp;
      simpl; intros Hc Hle1 Hle2; rewrite C1 in Hle1; rewrite C2 in Hle2;
      rewrite C1, C2, ?Hw, ?Hk;
      pose proof (wanted_count_le (want_ (plan_ b)));
      pose proof (command_count_le (state_ b) (want_ (plan_ b)));
      split; rewrite ?to_int_small by (unfold Int.is_int; lia); lia.
  - rewrite (bool_decide_eq_true_2 (None = None)) by done.
    simpl. rewrite lookup_insert_eq. cbn [default from_option id].
    rewrite (bool_decide_eq_true_2 (kWantNothing = kWantNothing)) by done.
    destruct (counts_insert (state_ b) (want_ (plan_ b)) e kWantNothing
                ltac:(by left)) as [C1 C2].
    rewrite bool_decide_eq_true_2 in C1, C2 by done.
    destruct d; cbn [andb].
    + destruct (counts_insert (state_ b) (<[e := kWantNothing]> (want_ (plan_ b)))
                  e kWantToStart
                  ltac:(right; apply lookup_insert_eq)) as [D1 D2].
      rewrite bool_decide_eq_false_2 in D1, D2 by done.
      rewrite insert_insert_eq in D1, D2.
      rewrite C1 in D1. rewrite C2 in D2.
      destruct (is_phony (edge (state_ b) e)) eqn:Hp; simpl; rewrite ?Hp;
        simpl; rewrite insert_insert_eq;
        intros Hc Hle1 Hle2; rewrite D1 in Hle1; rewrite D2 in Hle2;
        rewrite D1, D2, ?Hw, ?Hk;
        pose proof (wanted_count_le (want_ (plan_ b)));
        pose proof (command_count_le (state_ b) (want_ (plan_ b)));
        split; rewrite ?to_int_small by (unfold Int.is_int; lia); lia.
    + simpl. intros _ _ _. rewrite C1, C2. split; lia.
Qed.

Lemma AddSubTarget_counts (fuel : nat) :
  forall (n : NodeId) (dependent : option NodeId)
         (walk : option (gset EdgeId)) b,
    (countable_plan b -> counts_agree b) ->
    wp false (fun rs => countable_plan rs.2.2 -> counts_agree rs.2.2)
       (PlanOps.AddSubTarget fuel n dependent (walk, b)).
Proof.
  induction fuel as [|fuel IH]; intros n dependent walk b Hb; [done|].
  rewrite AddSubTarget_unfold. cbv zeta.
  destruct (in_edge (node (state_ b) n)) as [e|] eqn:Hin.
  2:{ destruct (dirty _ && _); simpl; exact Hb. }
  destruct (outputs_ready_ _); [exact Hb|].
  destruct (bool_decide (is_Some walk) && _).
  { simpl. apply (entered_counts e false b Hb). }
  pose proof (entered_counts e (dirty (node (state_ b) n)) b Hb) as Hent.
  case_bool_decide as Hw; simpl; [|exact Hent].
  set (b2 := entered e (dirty (node (state_ b) n)) b) in *.
  eapply wp_mono; last first.
  - apply (wp_all_ok false
             (fun s : option (gset EdgeId) * Builder X double =>
                countable_plan s.2 -> counts_agree s.2)); [exact Hent|].
    intros i [walk' b'] _ Hb'. simpl in Hb'.
    pose proof (IH i (Some n) walk' b' Hb') as Hrec.
    destruct (PlanOps.AddSubTarget fuel i (Some n) (walk', b'))
      as [[r [w'' b'']]| |]; simpl in *; try done.
    destruct (negb r && _); simpl; exact Hrec.
  - intros [r [w' b'']] H. exact H.
Qed.

End CountsAgree.

(** When [wanted_edges_] and [command_edges_] count the wanted edges and the
    wanted edges that are not phony before [AddTarget], they do so after it,
    whatever it answers, as long as the want map has fewer than 2^31
    entries. *)
Theorem AddTarget_keeps_counts {X double : Type} `{!Env X double}
    (fuel : nat) (t : NodeId) (b b' : Builder X double) (r : bool) :
  PlanOps.AddTarget fuel t b = Ret (r, b') ->
  counts_agree b -> countable_plan b' -> counts_agree b'.
Proof.
  intros H Hb Hc. rewrite AddTarget_unfold in H.
  pose proof (AddSubTarget_counts fuel t None None (pushed t b)
                (fun _ => Hb)) as Hwp.
  destruct (PlanOps.AddSubTarget fuel t None (None, pushed t b))
    as [[r0 [w b0]]| |]; [|done..].
  injection H as -> ->. by apply Hwp.
Qed.

Lemma AddTarget_keeps_counts_witness : counts_agree Sim.b_added.
Proof.
  apply (AddTarget_keeps_counts 2 1%nat
           (Sim.builder0 Sim.g_single Sim.config0 Sim.outside0) Sim.b_added true).
  - vm_compute. reflexivity.
  - split; vm_compute; reflexivity.
  - unfold countable_plan. vm_compute. reflexivity.
Defined.
(** ** The exits of [Builder::Build] *)

Section BuildExits.

Context {X double : Type} `{!Floating double} `{!Env X double}.
Implicit Type b : Builder X double.

Lemma last_tell (ev : StatusEvent) b : last (status_ (tell ev b)) = Some ev.
Proof. unfold tell. simpl. apply last_snoc. Qed.

Lemma start_commands_exit (fuel0 fuel : nat) :
  forall (capacity pending : Z) b p' b',
    BuilderOps.start_commands fuel0 fuel capacity pending b
      = Ret (false, (p', b')) ->
    last (status_ b') = Some BuildFinished.
Proof.
  induction fuel as [|fuel IH]; intros capacity pending b p' b' H;
    cbn [BuilderOps.start_commands] in H;
    (destruct (negb (0 <? capacity)); [done|]); [done|].
  destruct (PlanOps.FindWork b) as [[e|] b1]; [|done].
  destruct (if binding_generator (edge (state_ b1) e) then _ else _)
    as [b2| |]; [|done..]. cbn [res_bind] in H.
  destruct (BuilderOps.StartEdge e b2) as [[ok b3]| |]; [|done..].
  cbn [res_bind] in H. destruct ok; cbn [negb] in H.
  2:{ injection H as _ <-. apply last_tell. }
  destruct (is_phony (edge (state_ b3) e)).
  - destruct (PlanOps.EdgeFinished fuel0 e kEdgeSucceeded b3)
      as [[ok b4]| |]; [|done..].
    cbn [res_bind] in H. destruct ok; cbn [negb] in H; [by eapply IH|].
    injection H as _ <-. apply last_tell.
  - destruct (command_runner_ b3); [by eapply IH|done].
Qed.

Lemma build_loop_exit (fuel0 fuel : nat) :
  forall (pending failures : Z) b r b',
    BuilderOps.build_loop fuel0 fuel pending failures b = Ret (r, b') ->
    last (status_ b') = Some BuildFinished
    /\ (r = true -> more_to_do (plan_ b') = false).
Proof.
  assert (Hdone : forall b, more_to_do (plan_ b) = false ->
            last (status_ (BuilderOps.build_done b)) = Some BuildFinished
            /\ (true = true -> more_to_do (plan_ (BuilderOps.build_done b)) = false)).
  { intros b Hm. split; [apply last_tell|done]. }
  induction fuel as [|fuel IH]; intros pending failures b r b' H;
    cbn [BuilderOps.build_loop] in H;
    (destruct (more_to_do (plan_ b)) eqn:Hm; cbn [negb] in H;
     [|injection H as <- <-; by apply Hdone]); [done|].
  destruct (if negb (failures =? 0) then _ else _) as [[ok [p1 b1]]| |] eqn:Hs;
    [|done..].
  cbn [res_bind] in H. destruct ok; cbn [negb] in H.
  2:{ injection H as <- <-. split; [|done].
      destruct (negb (failures =? 0)); [|done].
      destruct (command_runner_ b); [|done]. by eapply start_commands_exit. }
  destruct (negb (failures =? 0) && (p1 =? 0) && negb (more_to_do (plan_ b1)))
    eqn:Hbrk.
  { injection H as <- <-. apply Hdone.
    apply andb_prop in Hbrk as [_ Hbrk]. by destruct (more_to_do (plan_ b1)). }
  destruct (negb (p1 =? 0)).
  - destruct (command_runner_ b1) as [rn|]; [|done].
    destruct (Runner.WaitForCommand fuel0 rn _ b1)
      as [[[[ok result] rn'] b2]| |]; [|done..].
    cbn [res_bind] in H.
    destruct (negb ok || _).
    { injection H as <- <-. split; [|done]. apply last_tell. }
    destruct (BuilderOps.FinishCommand fuel0 result _)
      as [[[ok' result'] b3]| |]; [|done..].
    cbn [res_bind] in H. destruct ok'; cbn [negb] in H.
    2:{ injection H as <- <-. split; [|done]. apply last_tell. }
    destruct (negb (success result')); by eapply IH.
  - injection H as <- <-. split; [|done].
    destruct ((failures =? 0) && _ && logfiles_enabled _); simpl;
      apply last_snoc.
Qed.

End BuildExits.

(** Whenever [Build] returns, [BuildFinished] is the last event it reported
    to the status; when it returns true, the plan has nothing more to do. *)
Theorem Build_exits {X double : Type} `{!Floating double} `{!Env X double}
    (fuel : nat) (b b' : Builder X double) (r : bool) :
  BuilderOps.Build fuel b = Ret (r, b') ->
  last (status_ b') = Some BuildFinished
  /\ (r = true -> more_to_do (plan_ b') = false).
Proof.
  unfold BuilderOps.Build. intros H.
  destruct (BuilderOps.AlreadyUpToDate b); [done|].
  destruct (PlanOps.PrepareQueue fuel b) as [b1| |]; [|done..].
  cbn [res_bind] in H. by eapply build_loop_exit.
Qed.

Lemma Build_exits_witness :
  exists b',
    BuilderOps.Build 5 Sim.b_added = Ret (true, b')
    /\ last (status_ b') = Some BuildFinished
    /\ (true = true -> more_to_do (plan_ b') = false).
Proof.
  eexists. split; [vm_compute; reflexivity|].
  eapply (Build_exits 5 Sim.b_added). vm_compute. reflexivity.
Defined.

(** ** [Builder::FinishCommand] on a failed command *)

Section FinishFailed.

Context {X double : Type} `{!Floating double} `{!Env X double}.
Implicit Type b : Builder X double.

(** [ExtractDeps] keeps the edge and the exit status of the result, and of
    the builder it touches the graph and the outside world only. *)
Lemma ExtractDeps_keeps (result : Result) (deps_type deps_prefix : string)
    (deps_nodes : list NodeId) (extract_err : string) b
    (ok : bool) (result' : Result) (dn : list NodeId) (e' : string) b' :
  BuilderOps.ExtractDeps result deps_type deps_prefix deps_nodes extract_err b
    = Ret (ok, result', dn, e', b') ->
  result_edge result' = result_edge result
  /\ result_status result' = result_status result
  /\ formatEdgeName result' = formatEdgeName result
  /\ plan_ b' = plan_ b
  /\ build_log_ b' = build_log_ b
  /\ deps_log_ b' = deps_log_ b
  /\ running_edges_ b' = running_edges_ b
  /\ status_ b' = status_ b
  /\ err b' = err b.
Proof.
  unfold BuilderOps.ExtractDeps. intros H.
  destruct (String.eqb deps_type "msvc").
  { destruct (CLParser_Parse _ _ _) as [[[ok1 output] includes] e1].
    destruct ok1; cbn [negb] in H; [|by injection H as <- <- <- <- <-].
    destruct (foldl _ _ includes) as [dn1 g1].
    by injection H as <- <- <- <- <-. }
  destruct (String.eqb deps_type "gcc"); [|done].
  destruct (Str.empty _); [by injection H as <- <- <- <- <-|].
  destruct (disk_ReadFile _ _ _) as [[status content] e1].
  destruct status; [| |by injection H as <- <- <- <- <-].
  all: destruct (Str.empty content); [by injection H as <- <- <- <- <-|].
  all: destruct (DepfileParser_Parse _ _) as [[ok1 ins] e2].
  all: destruct ok1; cbn [negb] in H; [|by injection H as <- <- <- <- <-].
  all: destruct (foldl _ _ ins) as [dn1 g1].
  all: destruct (negb g_keep_depfile); [|by injection H as <- <- <- <- <-].
  all: destruct (disk_RemoveFile _ _) as [rc x].
  all: destruct (rc <? 0); by injection H as <- <- <- <- <-.
Qed.

Lemma RetrieveReadyEdges_members (pid : PoolId) b :
  let b' := PlanOps.RetrieveReadyEdges pid b in
  build_log_ b' = build_log_ b
  /\ deps_log_ b' = deps_log_ b
  /\ running_edges_ b' = running_edges_ b
  /\ status_ b' = status_ b.
Proof.
  unfold PlanOps.RetrieveReadyEdges.
  destruct (PoolOps.RetrieveReadyEdges _ _ _) as [p' ready']. done.
Qed.

End FinishFailed.

(** A command that failed is checked off without a trace in the journals:
    [FinishCommand] answers true, the result still reports a failure, nothing
    is appended to the build log or to the deps log, the edge leaves
    [running_edges_], the want map and both counters of the plan stay as they
    are, and the status is told once that the edge finished without
    success. *)
Theorem FinishCommand_failed {X double : Type} `{!Floating double}
    `{!Env X double} (fuel : nat) (result result' : Result)
    (b b' : Builder X double) (r : bool) :
  success result = false ->
  BuilderOps.FinishCommand fuel result b = Ret (r, result', b') ->
  r = true
  /\ success result' = false
  /\ build_log_ b' = build_log_ b
  /\ deps_log_ b' = deps_log_ b
  /\ running_edges_ b' = delete (result_edge result) (running_edges_ b)
  /\ want_ (plan_ b') = want_ (plan_ b)
  /\ wanted_edges_ (plan_ b') = wanted_edges_ (plan_ b)
  /\ command_edges_ (plan_ b') = command_edges_ (plan_ b)
  /\ exists t, status_ b'
               = status_ b ++ [BuildEdgeFinished (result_edge result) t false
                                                 (result_output result')].
Proof.
  intros Hf H. unfold BuilderOps.FinishCommand in H.
  set (e := result_edge result) in *.
  destruct (if negb (Str.empty (binding_deps (edge (state_ b) e))) then _ else _)
    as [[[result1 dn] b1]| |] eqn:Hx; [|done..].
  assert (Hk : success result1 = false
               /\ plan_ b1 = plan_ b /\ build_log_ b1 = build_log_ b
               /\ deps_log_ b1 = deps_log_ b
               /\ running_edges_ b1 = running_edges_ b
               /\ status_ b1 = status_ b).
  { destruct (negb (Str.empty _)); [|by injection Hx as <- <- <-].
    destruct (BuilderOps.ExtractDeps result _ _ [] "" b)
      as [[[[[ok result2] dn2] e2] b2]| |] eqn:Hd; [|done..].
    cbn [res_bind] in Hx.
    destruct (ExtractDeps_keeps _ _ _ _ _ _ _ _ _ _ _ Hd)
      as (_ & Hst & _ & Hp & Hbl & Hdl & Hre & Hs & _).
    assert (Hf2 : success result2 = false).
    { unfold success in *. by rewrite Hst. }
    rewrite Hf2, andb_false_r in Hx. by injection Hx as <- <- <-. }
  destruct Hk as (Hf1 & Hp & Hbl & Hdl & Hre & Hs).
  cbn [res_bind] in H.
  destruct (running_edges_ b1 !! e) as [start|]; [|done].
  destruct (GetTimeMillis (world b1)) as [now x].
  rewrite Hf1 in H. cbn [negb] in H.
  destruct fuel as [|fuel]; [done|]. cbn [PlanOps.EdgeFinished] in H.
  match type of H with
  | context [PlanOps.want_of ?bb e] => destruct (PlanOps.want_of bb e) as [w|]
  end; [|done].
  cbn [negb bool_decide decide_rel] in H. cbn [res_bind] in H.
  injection H as <- <- <-.
  match goal with
  | |- context [PlanOps.RetrieveReadyEdges ?pid ?bb] =>
      destruct (RetrieveReadyEdges_keeps pid bb) as (Kw & Kn & Kc & _);
      destruct (RetrieveReadyEdges_members pid bb) as (Mb & Md & Mr & Ms)
  end.
  rewrite Kw, Kn, Kc, Mb, Md, Mr, Ms.
  split; [done|]. split; [done|].
  destruct (negb (bool_decide (w = kWantNothing))); simpl;
    rewrite ?Hp, ?Hbl, ?Hdl, ?Hre, ?Hs; repeat split; eauto.
Qed.

Lemma FinishCommand_failed_witness :
  exists b',
    BuilderOps.FinishCommand 1 SimMore.cc_failed SimMore.b_started
      = Ret (true, SimMore.cc_failed, b')
    /\ true = true
    /\ success SimMore.cc_failed = false
    /\ build_log_ b' = build_log_ SimMore.b_started
    /\ deps_log_ b' = deps_log_ SimMore.b_started
    /\ running_edges_ b'
       = delete (result_edge SimMore.cc_failed) (running_edges_ SimMore.b_started)
    /\ want_ (plan_ b') = want_ (plan_ SimMore.b_started)
    /\ wanted_edges_ (plan_ b') = wanted_edges_ (plan_ SimMore.b_started)
    /\ command_edges_ (plan_ b') = command_edges_ (plan_ SimMore.b_started)
    /\ exists t, status_ b'
                 = status_ SimMore.b_started
                   ++ [BuildEdgeFinished (result_edge SimMore.cc_failed) t false
                                         (result_output SimMore.cc_failed)].
Proof.
  eexists. split; [vm_compute; reflexivity|].
  eapply (FinishCommand_failed 1 SimMore.cc_failed SimMore.cc_failed
            SimMore.b_started).
  - vm_compute. reflexivity.
  - vm_compute. reflexivity.
Defined.


(** ** [Builder::StartEdge] *)

Section StartEdgeFacts.

Context {X double : Type} `{!Floating double} `{!Env X double}.
Implicit Type b : Builder X double.

Lemma StartCommand_keeps (r : CommandRunner) (e : EdgeId) b :
  let rb := Runner.StartCommand r e b in
  running_edges_ rb.2 = running_edges_ b
  /\ plan_ rb.2 = plan_ b
  /\ status_ rb.2 = status_ b
  /\ state_ rb.2 = state_ b
  /\ err rb.2 = err b.
Proof.
  destruct r as [fin|m]; [done|]. cbn [Runner.StartCommand].
  destruct (if logfiles_enabled (config_ b) then _ else _) as [fp x].
  destruct (subprocs_Add _ _ _ _ _) as [[sp|] x']; done.
Qed.

Lemma StartEdge_dirs b0 (outs : list NodeId) (s : Z * Builder X double) :
  dirs_frame b0 s ->
  wp false (fun rs => dirs_frame b0 rs.2)
     (all_ok
        (fun o '(build_start, b) =>
           let '(ok, x) := disk_MakeDirs (path (node (state_ b) o)) (world b) in
           let b := with_world x b in
           if negb ok then Ret (false, (build_start, b))
           else if build_start =? -1 then
             let '(_, x) := disk_WriteFile (lock_file_path_ b) "" (world b) in
             let b := with_world x b in
             let '(build_start, msg) :=
               disk_Stat (lock_file_path_ b) (world b) (err b) in
             let b := with_err msg b in
             Ret (true, (if build_start =? -1 then 0 else build_start, b))
           else Ret (true, (build_start, b)))
        outs s).
Proof.
  intros Hs.
  eapply wp_mono; [|apply (wp_all_ok false (dirs_frame b0)); [exact Hs|]].
  { intros [r s'] Hr. exact Hr. }
  intros o [bs b] _ Hb.
  destruct (disk_MakeDirs _ _) as [ok x]. destruct ok; cbn [negb]; [|exact Hb].
  destruct (bs =? -1); [|exact Hb].
  destruct (disk_WriteFile _ _ _) as [ok' x'].
  destruct (disk_Stat _ _ _) as [bs' msg]. exact Hb.
Qed.

End StartEdgeFacts.

(** [StartEdge] on an edge that is not phony registers the edge in
    [running_edges_] and tells the status that it started before anything
    can fail: whatever it answers, the edge is registered afterwards, an
    earlier registration keeps its time, no other registration and nothing
    of the plan changes. *)
Theorem StartEdge_registers {X double : Type} `{!Floating double}
    `{!Env X double} (e : EdgeId) (b b' : Builder X double) (r : bool) :
  is_phony (edge (state_ b) e) = false ->
  BuilderOps.StartEdge e b = Ret (r, b') ->
  is_Some (running_edges_ b' !! e)
  /\ (forall t, running_edges_ b !! e = Some t -> running_edges_ b' !! e = Some t)
  /\ (forall e', e' <> e -> running_edges_ b' !! e' = running_edges_ b !! e')
  /\ plan_ b' = plan_ b
  /\ exists t, status_ b' = status_ b ++ [BuildEdgeStarted e t].
Proof.
  intros Hp H. unfold BuilderOps.StartEdge in H. rewrite Hp in H.
  destruct (GetTimeMillis (world b)) as [now x].
  set (t := Int.to_int64 (now - start_time_millis_ (with_world x b))) in *.
  set (b1 := tell (BuildEdgeStarted e t) _) in *.
  assert (H1 : is_Some (running_edges_ b1 !! e)
               /\ (forall t, running_edges_ b !! e = Some t ->
                             running_edges_ b1 !! e = Some t)
               /\ (forall e', e' <> e ->
                              running_edges_ b1 !! e' = running_edges_ b !! e')
               /\ plan_ b1 = plan_ b
               /\ status_ b1 = status_ b ++ [BuildEdgeStarted e t]).
  { unfold b1, tell, with_status, with_world, with_running_edges.
    cbn [running_edges_]. destruct (running_edges_ b !! e) as [t0|] eqn:Ht;
      cbn [running_edges_ plan_ status_].
    - rewrite Ht. eauto 10.
    - rewrite lookup_insert_eq. split; [eauto|]. split; [done|].
      split; [|done]. intros e' Hne. by rewrite lookup_insert_ne. }
  clearbody b1.
  pose proof (StartEdge_dirs b1 (outputs_ (edge (state_ b1) e)) (-1, b1)
                ltac:(done)) as Hwp.
  destruct (all_ok _ _ _) as [[r1 [bs b2]]| |]; [|done..].
  cbn [res_bind] in H. destruct Hwp as (Kr & Kp & Ks & Kg & Kc). simpl in *.
  assert (Hgoal : forall b3 : Builder X double,
                             running_edges_ b3 = running_edges_ b2 ->
                             plan_ b3 = plan_ b2 -> status_ b3 = status_ b2 ->
            is_Some (running_edges_ b3 !! e)
            /\ (forall t, running_edges_ b !! e = Some t ->
                          running_edges_ b3 !! e = Some t)
            /\ (forall e', e' <> e ->
                           running_edges_ b3 !! e' = running_edges_ b !! e')
            /\ plan_ b3 = plan_ b
            /\ exists t, status_ b3 = status_ b ++ [BuildEdgeStarted e t]).
  { intros b3 -> -> ->. rewrite Kr, Kp, Ks.
    destruct H1 as (A & B & C & D & E). eauto 10. }
  destruct r1; cbn [negb] in H; [|injection H as <- <-; by apply Hgoal].
  match type of H with
  | context [if negb (Str.empty ?rsp) then _ else _] =>
      destruct (negb (Str.empty rsp))
  end.
  - destruct (disk_WriteFile _ _ _) as [ok x'].
    destruct ok; cbn [negb] in H; [|injection H as <- <-; by apply Hgoal].
    destruct (command_runner_ _) as [rn|]; [|done].
    match type of H with
    | context [Runner.StartCommand rn e ?bb] =>
        pose proof (StartCommand_keeps rn e bb) as (S1 & S2 & S3 & _);
        destruct (Runner.StartCommand rn e bb) as [[ok rn'] b4]
    end.
    simpl in S1, S2, S3.
    destruct ok; cbn [negb] in H; injection H as <- <-; by apply Hgoal.
  - cbn [negb] in H.
    destruct (command_runner_ _) as [rn|]; [|done].
    match type of H with
    | context [Runner.StartCommand rn e ?bb] =>
        pose proof (StartCommand_keeps rn e bb) as (S1 & S2 & S3 & _);
        destruct (Runner.StartCommand rn e bb) as [[ok rn'] b4]
    end.
    simpl in S1, S2, S3.
    destruct ok; cbn [negb] in H; injection H as <- <-; by apply Hgoal.
Qed.

Lemma StartEdge_registers_witness :
  exists b',
    BuilderOps.StartEdge 0%nat SimMore.b_no_dir = Ret (false, b')
    /\ is_Some (running_edges_ b' !! 0%nat)
    /\ (forall t, running_edges_ SimMore.b_no_dir !! 0%nat = Some t ->
                  running_edges_ b' !! 0%nat = Some t)
    /\ (forall e', e' <> 0%nat ->
                   running_edges_ b' !! e' = running_edges_ SimMore.b_no_dir !! e')
    /\ plan_ b' = plan_ SimMore.b_no_dir
    /\ exists t, status_ b'
                 = status_ SimMore.b_no_dir ++ [BuildEdgeStarted 0%nat t].
Proof.
  eexists. split; [vm_compute; reflexivity|].
  eapply (StartEdge_registers 0%nat SimMore.b_no_dir).
  - vm_compute. reflexivity.
  - vm_compute. reflexivity.
Defined.

(** When the directory of the first output cannot be made, [StartEdge]
    returns false without a message: the error string, the command runner
    and the graph are as they were, and the outside world is as [MakeDirs]
    left it (no lock file written, no command started). *)
Theorem StartEdge_no_dir_is_silent {X double : Type} `{!Floating double}
    `{!Env X double} (e : EdgeId) (b : Builder X double) (o : NodeId)
    (rest : list NodeId) (x' : X) :
  is_phony (edge (state_ b) e) = false ->
  outputs_ (edge (state_ b) e) = o :: rest ->
  disk_MakeDirs (path (node (state_ b) o)) (GetTimeMillis (world b)).2
    = (false, x') ->
  exists b',
    BuilderOps.StartEdge e b = Ret (false, b')
    /\ err b' = err b
    /\ command_runner_ b' = command_runner_ b
    /\ state_ b' = state_ b
    /\ world b' = x'.
Proof.
  intros Hp Ho Hm. unfold BuilderOps.StartEdge. rewrite Hp.
  destruct (GetTimeMillis (world b)) as [now x]. cbn [snd] in Hm.
  destruct (running_edges_ (with_world x b) !! e);
    match goal with
    | |- context [all_ok ?f (outputs_ (edge (state_ ?bb) e)) ?s] =>
        change (state_ bb) with (state_ b); rewrite Ho; cbn [all_ok];
        change (state_ bb) with (state_ b); change (world bb) with x
    end;
    rewrite Hm; cbn [negb res_bind]; eexists; (split; [reflexivity|done]).
Qed.

Lemma StartEdge_no_dir_is_silent_witness :
  exists b',
    BuilderOps.StartEdge 0%nat SimMore.b_no_dir = Ret (false, b')
    /\ err b' = err SimMore.b_no_dir
    /\ command_runner_ b' = command_runner_ SimMore.b_no_dir
    /\ state_ b' = state_ SimMore.b_no_dir
    /\ world b' = Sim.tick (world SimMore.b_no_dir).
Proof.
  apply (StartEdge_no_dir_is_silent 0%nat SimMore.b_no_dir 1%nat []).
  - vm_compute. reflexivity.
  - vm_compute. reflexivity.
  - vm_compute. reflexivity.
Defined.

(** ** [Builder::Cleanup] *)

Section CleanupFacts.

Context {X double : Type} `{!Floating double} `{!Env X double}.
Implicit Type b : Builder X double.

Lemma foldl_keeps {A S : Type} (P : S -> Prop) (f : S -> A -> S) (l : list A) :
  (forall s a, P s -> P (f s a)) -> forall s, P s -> P (foldl f s l).
Proof. intros Hf. induction l as [|a l IH]; intros s Hs; simpl; auto. Qed.

Lemma cleanup_frame_refl b : cleanup_frame b b.
Proof.
  repeat split. exists []. by rewrite app_nil_r.
Qed.

Lemma cleanup_frame_world b b' (x : X) :
  cleanup_frame b b' -> cleanup_frame b (with_world x b').
Proof. intros H. exact H. Qed.

Lemma cleanup_frame_error b b' (msg : string) :
  cleanup_frame b b' -> cleanup_frame b (tell (StatusError msg) b').
Proof.
  intros (H1 & H2 & H3 & H4 & H5 & H6 & H7 & H8 & evs & Hs & He).
  repeat split; try done. exists (evs ++ [StatusError msg]). split.
  - simpl. by rewrite Hs, app_assoc.
  - apply Forall_app. split; [done|]. by constructor.
Qed.

End CleanupFacts.

(** [Cleanup] works on the outside world only: the graph, the plan, the
    error string, the command runner with its table of subprocesses,
    [running_edges_] and the journals are as before, and all it tells the
    status are errors of [Stat]. *)
Theorem Cleanup_frame {X double : Type} `{!Floating double} `{!Env X double}
    (b : Builder X double) :
  cleanup_frame b (BuilderOps.Cleanup b).
Proof.
  unfold BuilderOps.Cleanup.
  set (b1 := match command_runner_ b with Some r => _ | None => b end).
  assert (H1 : cleanup_frame b b1).
  { unfold b1. destruct (command_runner_ b) as [r|]; [|apply cleanup_frame_refl].
    apply foldl_keeps.
    - intros s e Hs.
      set (s1 := foldl _ s _).
      assert (Hs1 : cleanup_frame b s1).
      { unfold s1. apply foldl_keeps; [|exact Hs].
        intros s' o Hs'. destruct (disk_Stat _ _ _) as [new_mtime msg].
        destruct (new_mtime =? -1);
          (destruct (_ || _); [apply cleanup_frame_world|]);
          try apply cleanup_frame_error; exact Hs'. }
      destruct (negb _); [apply cleanup_frame_world|]; exact Hs1.
    - destruct r; [apply cleanup_frame_refl|].
      apply cleanup_frame_world, cleanup_frame_refl. }
  destruct (0 <? _); [apply cleanup_frame_world|]; exact H1.
Qed.
(** ** [Plan::ComputeCriticalPath] *)

Section RemoveSeen.

Lemma remove_seen_spec (l : list NodeId) :
  forall seen : gset NodeId,
    NoDup (PlanOps.remove_seen seen l)
    /\ forall x, x ∈ PlanOps.remove_seen seen l <-> x ∈ l /\ x ∉ seen.
Proof.
  induction l as [|a l IH]; intros seen; cbn [PlanOps.remove_seen].
  - split; [constructor|]. intros x. split; [by intros ?%elem_of_nil|].
    by intros [?%elem_of_nil _].
  - case_bool_decide as Ha.
    + destruct (IH seen) as [Hn Hx]. split; [done|]. intros x.
      rewrite Hx, elem_of_cons. split; [tauto|].
      intros [[->|?] ?]; tauto.
    + destruct (IH ({[a]} ∪ seen)) as [Hn Hx]. split.
      * constructor; [|done]. rewrite Hx. set_solver.
      * intros x. rewrite !elem_of_cons, Hx.
        destruct (decide (x = a)) as [->|Hne]; [tauto|]. set_solver.
Qed.

End RemoveSeen.

Section Backflow.

Variable g0 : State.
Implicit Type s : PlanOps.Backflow.
Implicit Type g : State.

Lemma sbw_refl : same_but_weights g0 g0.
Proof.
  split; [done|]. split; [done|]. intros e. unfold weight_of.
  by destruct (edge g0 e).
Qed.

Lemma sbw_node g (n : NodeId) :
  same_but_weights g0 g -> node g n = node g0 n.
Proof. intros (Hn & _). by apply node_ext. Qed.

Lemma sbw_inputs g (e : EdgeId) :
  same_but_weights g0 g -> inputs_ (edge g e) = inputs_ (edge g0 e).
Proof. intros (_ & _ & He). by rewrite (He e). Qed.

Lemma sbw_heuristic g (i : EdgeId) :
  same_but_weights g0 g ->
  PlanOps.EdgeWeightHeuristic g i = PlanOps.EdgeWeightHeuristic g0 i.
Proof.
  intros (_ & _ & He). unfold PlanOps.EdgeWeightHeuristic. by rewrite (He i).
Qed.

Lemma weight_update g (i e : EdgeId) (w' : Z) :
  weight_of (update_edge i (set_critical_path_weight w') g) e
  = if decide (i = e) then w' else weight_of g e.
Proof.
  unfold weight_of. rewrite edge_update_edge. by destruct (decide (i = e)).
Qed.

Lemma sbw_update g (i : EdgeId) (w' : Z) :
  same_but_weights g0 g ->
  same_but_weights g0 (update_edge i (set_critical_path_weight w') g).
Proof.
  intros (Hn & Hp & He). split; [done|]. split; [done|].
  intros e. rewrite weight_update, edge_update_edge.
  destruct (decide (i = e)) as [->|]; [|apply He].
  by rewrite (He e).
Qed.

Lemma relaxed_sbw g (e : EdgeId) :
  same_but_weights g0 g ->
  relaxed_at g0 (weight_of g) e -> relaxed g e.
Proof.
  intros Hs H it i Hit Hi.
  rewrite sbw_inputs in Hit by done. rewrite sbw_node in Hi by done.
  rewrite sbw_heuristic by done. by apply (H it i).
Qed.

(** Setting a weight that is no smaller keeps the queue in order. *)
Lemma raise_base (i : EdgeId) (w' : Z) s :
  bf_base g0 s ->
  weight_of (PlanOps.bf_state s) i <= w' ->
  bf_base g0 (raise i w' s)
  /\ (forall e, weight_of (PlanOps.bf_state (raise i w' s)) e
                = if decide (i = e) then w'
                  else weight_of (PlanOps.bf_state s) e)
  /\ (forall e, e ∈ PlanOps.work_queue (raise i w' s)
                <-> e ∈ PlanOps.work_queue s \/ e = i).
Proof.
  intros (Hs & Hm & Hn & Ha) Hw. unfold raise, PlanOps.push_unseen.
  cbn [PlanOps.active_edges PlanOps.work_queue PlanOps.bf_state].
  assert (Hm' : forall e, weight_of g0 e
                          <= weight_of (update_edge i (set_critical_path_weight w')
                                          (PlanOps.bf_state s)) e).
  { intros e. rewrite weight_update. destruct (decide (i = e)) as [<-|]; [|done].
    specialize (Hm i). lia. }
  unfold bf_base.
  case_bool_decide as Hi;
    cbn [PlanOps.active_edges PlanOps.work_queue PlanOps.bf_state].
  - split; [|split].
    + split; [by apply sbw_update|]. done.
    + intros e. apply weight_update.
    + intros e. apply Ha in Hi. split; [tauto|]. by intros [?| ->].
  - split; [|split].
    + split; [by apply sbw_update|]. split; [done|]. split.
      * apply NoDup_app. split; [done|]. split; [|apply NoDup_singleton].
        intros x Hx ->%list_elem_of_singleton. apply Hi. by apply Ha.
      * intros e. rewrite elem_of_app, list_elem_of_singleton, elem_of_union,
          elem_of_singleton, Ha. tauto.
    + intros e. apply weight_update.
    + intros e. by rewrite elem_of_app, list_elem_of_singleton.
Qed.

Lemma target_edge_snoc (targets : list NodeId) (t : NodeId) (e : EdgeId) :
  target_edge g0 (targets ++ [t]) e
  <-> target_edge g0 targets e \/ in_edge (node g0 t) = Some e.
Proof.
  unfold target_edge. split.
  - intros (t' & [Ht| ->%list_elem_of_singleton]%elem_of_app & He); eauto.
  - intros [(t' & Ht & He)|He].
    + exists t'. rewrite elem_of_app. eauto.
    + exists t. rewrite elem_of_app, list_elem_of_singleton. eauto.
Qed.

Lemma seed_step (targets : list NodeId) (t : NodeId) s :
  bf_seeded g0 targets s ->
  bf_seeded g0 (targets ++ [t]) (PlanOps.seed_target s t).
Proof.
  intros (Hb & Hl & Hq). unfold PlanOps.seed_target.
  pose proof (proj1 Hb) as Hs. rewrite sbw_node by done.
  destruct (in_edge (node g0 t)) as [i|] eqn:Hi.
  - rewrite sbw_heuristic by done.
    set (w' := Z.max _ _).
    destruct (raise_base i w' s Hb ltac:(lia)) as (Hb' & Hw' & Hq').
    fold (raise i w' s). split; [done|]. split.
    + intros e [He|He]%target_edge_snoc; rewrite Hw'.
      * destruct (decide (i = e)) as [<-|]; [lia|by apply Hl].
      * rewrite Hi in He. injection He as <-. rewrite decide_True by done. lia.
    + intros e He. apply Hq'.
      destruct (decide (e = i)) as [->|Hne]; [by right|left].
      apply Hq. destruct He as [[He|He]%target_edge_snoc|He].
      * by left.
      * congruence.
      * right. by rewrite Hw', decide_False in He by done.
  - split; [done|]. split.
    + intros e [He|He]%target_edge_snoc; [by apply Hl|congruence].
    + intros e [[He|He]%target_edge_snoc|He]; [|congruence|].
      * apply Hq. by left.
      * apply Hq. by right.
Qed.

Lemma seed_all (l targets : list NodeId) :
  forall s, bf_seeded g0 targets s ->
            bf_seeded g0 (targets ++ l) (foldl PlanOps.seed_target s l).
Proof.
  revert targets. induction l as [|t l IH]; intros targets s Hs.
  - by rewrite app_nil_r.
  - cbn [foldl]. rewrite (assoc_L (++) targets [t] l : targets ++ t :: l = _).
    apply IH. by apply seed_step.
Qed.

Lemma relax_step (targets : list NodeId) (e : EdgeId) (seen : list NodeId)
    (it : NodeId) s :
  bf_inner g0 targets e seen s ->
  bf_inner g0 targets e (seen ++ [it]) (PlanOps.relax_input e s it).
Proof.
  intros (Hb & Hl & Hr & Hp). unfold PlanOps.relax_input.
  pose proof (proj1 Hb) as Hs. rewrite sbw_node by done.
  destruct (in_edge (node g0 it)) as [i|] eqn:Hi.
  2:{ split; [done|]. split; [done|]. split; [done|].
      intros He it' i' [Hin| ->%list_elem_of_singleton]%elem_of_app Hi';
        [by apply (Hp He it' i')|congruence]. }
  rewrite sbw_heuristic by done.
  set (p := Int.to_int64 _).
  destruct (weight_of (PlanOps.bf_state s) i <? p) eqn:Hlt.
  2:{ apply Z.ltb_ge in Hlt. split; [done|]. split; [done|]. split; [done|].
      intros He it' i' [Hin| ->%list_elem_of_singleton]%elem_of_app Hi';
        [by apply (Hp He it' i')|]. rewrite Hi in Hi'. by injection Hi' as <-. }
  apply Z.ltb_lt in Hlt.
  destruct (raise_base i p s Hb ltac:(lia)) as (Hb' & Hw' & Hq').
  fold (raise i p s).
  assert (Hmono : forall x, weight_of (PlanOps.bf_state s) x
                            <= weight_of (PlanOps.bf_state (raise i p s)) x).
  { intros x. rewrite Hw'. destruct (decide (i = x)) as [<-|]; lia. }
  split; [done|]. split.
  { intros x Hx. specialize (Hl x Hx). specialize (Hmono x). lia. }
  split.
  - intros e' Ht Hnq Hne.
    assert (Hni : e' <> i) by (intros ->; apply Hnq, Hq'; by right).
    assert (Hnq0 : e' ∉ PlanOps.work_queue s)
      by (intros ?; apply Hnq, Hq'; by left).
    assert (Ht0 : touched g0 targets (PlanOps.bf_state s) e').
    { destruct Ht as [Ht|Ht]; [by left|right].
      by rewrite Hw', decide_False in Ht by done. }
    intros it' i' Hin' Hi'.
    pose proof (Hr e' Ht0 Hnq0 Hne it' i' Hin' Hi') as Hrel.
    rewrite (Hw' e'), decide_False by done.
    specialize (Hmono i'). lia.
  - intros Hnq.
    assert (Hni : e <> i) by (intros ->; apply Hnq, Hq'; by right).
    assert (Hnq0 : e ∉ PlanOps.work_queue s)
      by (intros ?; apply Hnq, Hq'; by left).
    intros it' i' [Hin| ->%list_elem_of_singleton]%elem_of_app Hi'.
    + pose proof (Hp Hnq0 it' i' Hin Hi') as Hrel.
      rewrite (Hw' e), decide_False by done.
      specialize (Hmono i'). lia.
    + rewrite Hi in Hi'. injection Hi' as <-.
      rewrite (Hw' e), decide_False by done.
      rewrite (Hw' i), decide_True by done. unfold p. lia.
Qed.

Lemma relax_all (targets : list NodeId) (e : EdgeId) (l seen : list NodeId) :
  forall s, bf_inner g0 targets e seen s ->
            bf_inner g0 targets e (seen ++ l)
                     (foldl (PlanOps.relax_input e) s l).
Proof.
  revert seen. induction l as [|it l IH]; intros seen s Hs.
  - by rewrite app_nil_r.
  - cbn [foldl]. rewrite (assoc_L (++) seen [it] l : seen ++ it :: l = _).
    apply IH. by apply relax_step.
Qed.

(** One round of the loop over the queue. *)
Lemma round_enter (targets : list NodeId) (e : EdgeId) (rest : list EdgeId) s :
  bf_inv g0 targets s ->
  PlanOps.work_queue s = e :: rest ->
  bf_inner g0 targets e []
    (PlanOps.mkBackflow rest (PlanOps.active_edges s ∖ {[e]})
                        (PlanOps.bf_state s)).
Proof.
  intros (Hb & Hl & Hr) Hq. destruct Hb as (Hs & Hm & Hn & Ha).
  rewrite Hq in Hn, Ha. apply NoDup_cons in Hn as [He Hn].
  split; [|split; [done|split]].
  - split; [done|]. split; [done|]. split; [done|].
    intros x. cbn [PlanOps.active_edges PlanOps.work_queue].
    rewrite elem_of_difference, elem_of_singleton, Ha, elem_of_cons.
    split; [tauto|]. intros Hx. split; [tauto|]. by intros ->.
  - intros e' Ht Hnq Hne. apply Hr; [done|].
    rewrite Hq, elem_of_cons. cbn [PlanOps.work_queue] in Hnq. tauto.
  - intros _ it i []%elem_of_nil.
Qed.

Lemma round_leave (targets : list NodeId) (e : EdgeId) s :
  bf_inner g0 targets e (inputs_ (edge g0 e)) s -> bf_inv g0 targets s.
Proof.
  intros (Hb & Hl & Hr & Hp). split; [done|]. split; [done|].
  intros e' Ht Hnq. destruct (decide (e' = e)) as [->|Hne]; [|by apply Hr].
  intros it i Hin Hi. by apply (Hp Hnq it i).
Qed.

Lemma round_inv (targets : list NodeId) (e : EdgeId) (rest : list EdgeId) s :
  bf_inv g0 targets s ->
  PlanOps.work_queue s = e :: rest ->
  bf_inv g0 targets
    (foldl (PlanOps.relax_input e)
       (PlanOps.mkBackflow rest (PlanOps.active_edges s ∖ {[e]})
                           (PlanOps.bf_state s))
       (inputs_ (edge (PlanOps.bf_state s) e))).
Proof.
  intros Hi Hq. apply (round_leave targets e).
  rewrite (sbw_inputs _ e (proj1 (proj1 Hi))).
  apply (relax_all targets e (inputs_ (edge g0 e)) []).
  by apply round_enter.
Qed.

Lemma backflow_final (targets : list NodeId) (fuel : nat) :
  forall s g', bf_inv g0 targets s ->
               PlanOps.backflow fuel s = Ret g' ->
               bf_final g0 targets g'.
Proof.
  induction fuel as [|fuel IH]; intros s g' Hi H;
    cbn [PlanOps.backflow] in H;
    destruct (PlanOps.work_queue s) as [|e rest] eqn:Hq; try done.
  - injection H as <-. destruct Hi as ((Hs & Hm & _) & Hl & Hr).
    split; [done|]. split; [done|]. split; [done|].
    intros e He. apply Hr; [done|]. rewrite Hq. apply not_elem_of_nil.
  - injection H as <-. destruct Hi as ((Hs & Hm & _) & Hl & Hr).
    split; [done|]. split; [done|]. split; [done|].
    intros e He. apply Hr; [done|]. rewrite Hq. apply not_elem_of_nil.
  - cbn [PlanOps.bf_state] in H. apply IH in H; [done|]. by apply round_inv.
Qed.

End Backflow.

Section CriticalPathResult.

Context {X double : Type} `{!Env X double}.
Implicit Type b : Builder X double.

Lemma target_edge_remove_seen (g : State) (l : list NodeId) (e : EdgeId) :
  target_edge g (PlanOps.remove_seen ∅ l) e <-> target_edge g l e.
Proof.
  unfold target_edge. split; intros (t & Ht & He); exists t; split; try done.
  - by apply (proj2 (remove_seen_spec l ∅)) in Ht as [Ht _].
  - apply (proj2 (remove_seen_spec l ∅)). split; [done|]. apply not_elem_of_empty.
Qed.

Lemma ComputeCriticalPath_final (fuel : nat) b b' :
  PlanOps.ComputeCriticalPath fuel b = Ret b' ->
  b' = with_state (state_ b')
         (with_plan (plan_with_targets
                       (PlanOps.remove_seen ∅ (targets_ (plan_ b))) (plan_ b)) b)
  /\ bf_final (state_ b) (PlanOps.remove_seen ∅ (targets_ (plan_ b))) (state_ b').
Proof.
  unfold PlanOps.ComputeCriticalPath. intros H.
  set (targets := PlanOps.remove_seen ∅ (targets_ (plan_ b))) in *.
  destruct (PlanOps.backflow fuel _) as [g| |] eqn:Hbf; [|done..].
  cbn [res_bind] in H. injection H as <-. split; [done|].
  cbn [state_ with_state].
  eapply backflow_final; [|exact Hbf].
  assert (Hs : bf_seeded (state_ b) ([] ++ targets)
                 (foldl PlanOps.seed_target
                    (PlanOps.mkBackflow [] ∅ (state_ b)) targets)).
  { apply seed_all. split; [|split].
    - split; [apply sbw_refl|]. split; [done|]. split; [constructor|].
      intros e. cbn [PlanOps.active_edges PlanOps.work_queue]. set_solver.
    - intros e (t & []%elem_of_nil & _).
    - intros e [(t & []%elem_of_nil & _)|He]; done. }
  cbn [app] in Hs. destruct Hs as (Hb & Hl & Hq).
  split; [done|]. split; [done|]. intros e He Hn. by destruct Hn; apply Hq.
Qed.

End CriticalPathResult.

(** [ComputeCriticalPath] removes the duplicates from [targets_] and writes
    weights, nothing else: every target stays, once; the rest of the plan
    and of the builder, the nodes, the pools and every field of every edge
    but its weight are as before; and no weight gets smaller. *)
Theorem ComputeCriticalPath_frame {X double : Type} `{!Env X double}
    (fuel : nat) (b b' : Builder X double) :
  PlanOps.ComputeCriticalPath fuel b = Ret b' ->
  NoDup (targets_ (plan_ b'))
  /\ (forall t, t ∈ targets_ (plan_ b') <-> t ∈ targets_ (plan_ b))
  /\ b' = with_state (state_ b')
            (with_plan (plan_with_targets (targets_ (plan_ b')) (plan_ b)) b)
  /\ same_but_weights (state_ b) (state_ b')
  /\ (forall e, weight_of (state_ b) e <= weight_of (state_ b') e).
Proof.
  intros H. destruct (ComputeCriticalPath_final fuel b b' H) as [Hb Hf].
  destruct Hf as (Hs & Hm & _).
  assert (Ht : targets_ (plan_ b')
               = PlanOps.remove_seen ∅ (targets_ (plan_ b))) by by rewrite Hb.
  rewrite Ht. destruct (remove_seen_spec (targets_ (plan_ b)) ∅) as [Hn Hx].
  split; [done|]. split.
  { intros t. rewrite Hx. split; [tauto|]. intros Hin. split; [done|].
    apply not_elem_of_empty. }
  done.
Qed.

Lemma ComputeCriticalPath_frame_witness :
  exists b',
    PlanOps.ComputeCriticalPath 3 SimMore.b_chain = Ret b'
    /\ NoDup (targets_ (plan_ b'))
    /\ (forall t, t ∈ targets_ (plan_ b') <-> t ∈ targets_ (plan_ SimMore.b_chain))
    /\ b' = with_state (state_ b')
              (with_plan (plan_with_targets (targets_ (plan_ b'))
                                            (plan_ SimMore.b_chain))
                         SimMore.b_chain)
    /\ same_but_weights (state_ SimMore.b_chain) (state_ b')
    /\ (forall e, weight_of (state_ SimMore.b_chain) e <= weight_of (state_ b') e).
Proof.
  eexists. split; [vm_compute; reflexivity|].
  eapply (ComputeCriticalPath_frame 3 SimMore.b_chain). vm_compute. reflexivity.
Defined.

(** When [ComputeCriticalPath] returns, the edge of every target weighs at
    least its own cost, and every edge that makes a target or whose weight
    was changed is relaxed: each edge that makes one of its inputs weighs at
    least the weight of the edge plus its own cost (in 64-bit arithmetic). *)
Theorem ComputeCriticalPath_relaxes {X double : Type} `{!Env X double}
    (fuel : nat) (b b' : Builder X double) :
  PlanOps.ComputeCriticalPath fuel b = Ret b' ->
  forall e,
    touched (state_ b) (targets_ (plan_ b)) (state_ b') e ->
    relaxed (state_ b') e
    /\ (target_edge (state_ b) (targets_ (plan_ b)) e ->
        PlanOps.EdgeWeightHeuristic (state_ b') e <= weight_of (state_ b') e).
Proof.
  intros H e He. destruct (ComputeCriticalPath_final fuel b b' H) as [_ Hf].
  destruct Hf as (Hs & Hm & Hl & Hr). split.
  - apply (relaxed_sbw (state_ b)); [done|]. apply Hr.
    destruct He as [He|He]; [left|by right].
    by apply target_edge_remove_seen.
  - intros Ht. rewrite (sbw_heuristic (state_ b)) by done.
    apply Hl. by apply target_edge_remove_seen.
Qed.

Lemma ComputeCriticalPath_relaxes_witness :
  exists b',
    PlanOps.ComputeCriticalPath 3 SimMore.b_chain = Ret b'
    /\ weight_of (state_ b') 0%nat = 2
    /\ weight_of (state_ b') 1%nat = 1
    /\ forall e,
         touched (state_ SimMore.b_chain) (targets_ (plan_ SimMore.b_chain))
                 (state_ b') e ->
         relaxed (state_ b') e
         /\ (target_edge (state_ SimMore.b_chain)
                         (targets_ (plan_ SimMore.b_chain)) e ->
             PlanOps.EdgeWeightHeuristic (state_ b') e <= weight_of (state_ b') e).
Proof.
  eexists. split; [vm_compute; reflexivity|].
  split; [vm_compute; reflexivity|]. split; [vm_compute; reflexivity|].
  eapply (ComputeCriticalPath_relaxes 3 SimMore.b_chain). vm_compute. reflexivity.
Defined.
(** ** The weights on a layered graph *)

Section Exact.

Variable g0 : State.
Variable T : list NodeId.
Variable m : gmap EdgeId Z.
Variable N : Z.
Hypothesis Hfresh : fresh_weights g0.
Hypothesis Hlay : well_layered g0 m N.
Hypothesis HN : N < 2 ^ 62.

Implicit Type s : PlanOps.Backflow.

Lemma fresh_lt (e : EdgeId) : weight_of g0 e < 0.
Proof.
  unfold weight_of, edge, lookup_total, map_lookup_total.
  destruct (edges g0 !! e) as [ed|] eqn:He; simpl; [|done].
  by apply (Hfresh e ed).
Qed.

Lemma depth_range (e : EdgeId) : 0 <= depth_of m e <= N.
Proof.
  destruct Hlay as (H0 & Hm & _). unfold depth_of.
  destruct (m !! e) as [v|] eqn:He; simpl; [by apply (Hm e v)|lia].
Qed.

Lemma layered (e : EdgeId) (it : NodeId) (i : EdgeId) :
  it ∈ inputs_ (edge g0 e) -> in_edge (node g0 it) = Some i ->
  depth_of m e < depth_of m i.
Proof.
  destruct Hlay as (_ & _ & He). intros Hit Hi.
  unfold edge, lookup_total, map_lookup_total in Hit.
  destruct (edges g0 !! e) as [ed|] eqn:Hed; simpl in Hit;
    [|by apply elem_of_nil in Hit].
  specialize (He e ed Hed). unfold layered_edge in He.
  rewrite forallb_forall in He. apply list_elem_of_In in Hit.
  specialize (He it Hit). rewrite Hi in He. by apply Z.ltb_lt.
Qed.

Lemma heuristic_range (g : State) (i : EdgeId) :
  0 <= PlanOps.EdgeWeightHeuristic g i <= 1.
Proof. unfold PlanOps.EdgeWeightHeuristic. destruct (is_phony _); lia. Qed.

Lemma path_cost_bound (e : EdgeId) (c : Z) :
  path_cost g0 T e c -> 0 <= c <= depth_of m e + 1.
Proof.
  induction 1 as [t i Ht Hi|e it i c Hp IH Hit Hi].
  - pose proof (heuristic_range g0 i). pose proof (depth_range i). lia.
  - pose proof (heuristic_range g0 i). pose proof (layered e it i Hit Hi). lia.
Qed.

Lemma raise_costs (i : EdgeId) (w' : Z) s :
  bf_base g0 s -> bf_costs g0 T s ->
  weight_of (PlanOps.bf_state s) i <= w' ->
  path_cost g0 T i w' ->
  bf_costs g0 T (raise i w' s).
Proof.
  intros Hb [Hc Hq] Hle Hp.
  destruct (raise_base g0 i w' s Hb Hle) as (_ & Hw' & Hq').
  split.
  - intros e. rewrite Hw'. destruct (decide (i = e)) as [<-|]; [done|apply Hc].
  - intros e [He| ->]%Hq'; rewrite Hw'.
    + destruct (decide (i = e)) as [<-|]; [done|by apply Hq].
    + by rewrite decide_True.
Qed.

Lemma seed_step_costs (pre : list NodeId) (t : NodeId) s :
  t ∈ T -> bf_seeded g0 pre s -> bf_costs g0 T s ->
  bf_costs g0 T (PlanOps.seed_target s t).
Proof.
  intros Ht (Hb & _) Hc. unfold PlanOps.seed_target.
  pose proof (proj1 Hb) as Hs. rewrite (sbw_node g0) by done.
  destruct (in_edge (node g0 t)) as [i|] eqn:Hi; [|done].
  rewrite (sbw_heuristic g0) by done. fold (raise i (Z.max (PlanOps.EdgeWeightHeuristic g0 i) (weight_of (PlanOps.bf_state s) i)) s).
  apply raise_costs; [done|done|lia|].
  destruct (Z.max_spec (PlanOps.EdgeWeightHeuristic g0 i)
                       (weight_of (PlanOps.bf_state s) i)) as [[Hlt ->]|[Hge ->]].
  - apply (proj1 Hc). pose proof (fresh_lt i).
    pose proof (heuristic_range g0 i). lia.
  - by eapply path_target.
Qed.

Lemma seed_all_costs (l : list NodeId) :
  forall (pre : list NodeId) s,
    (forall t, t ∈ l -> t ∈ T) ->
    bf_seeded g0 pre s -> bf_costs g0 T s ->
    bf_costs g0 T (foldl PlanOps.seed_target s l).
Proof.
  induction l as [|t l IH]; intros pre s Hl Hs Hc; [done|].
  cbn [foldl]. apply (IH (pre ++ [t])).
  - intros t' Ht'. apply Hl. by right.
  - by apply seed_step.
  - eapply seed_step_costs; [|done..]. apply Hl. by left.
Qed.

Lemma relax_step_costs (targets : list NodeId) (e : EdgeId)
    (seen : list NodeId) (it : NodeId) s :
  it ∈ inputs_ (edge g0 e) ->
  bf_inner g0 targets e seen s -> bf_costs g0 T s ->
  path_cost g0 T e (weight_of (PlanOps.bf_state s) e) ->
  bf_costs g0 T (PlanOps.relax_input e s it)
  /\ path_cost g0 T e (weight_of (PlanOps.bf_state (PlanOps.relax_input e s it)) e).
Proof.
  intros Hit (Hb & _) Hc He. unfold PlanOps.relax_input.
  pose proof (proj1 Hb) as Hs. rewrite (sbw_node g0) by done.
  destruct (in_edge (node g0 it)) as [i|] eqn:Hi; [|done].
  rewrite (sbw_heuristic g0) by done.
  pose proof (path_cost_bound _ _ He) as Hbound.
  pose proof (depth_range e) as Hd. pose proof (heuristic_range g0 i) as Hh.
  rewrite to_int64_small by (unfold Int.is_int64; lia).
  destruct (weight_of (PlanOps.bf_state s) i <? _) eqn:Hlt; [|done].
  apply Z.ltb_lt in Hlt.
  set (p := weight_of (PlanOps.bf_state s) e + PlanOps.EdgeWeightHeuristic g0 i)
    in *.
  fold (raise i p s).
  assert (Hp : path_cost g0 T i p) by by eapply path_step.
  split; [apply raise_costs; [done|done|lia|done]|].
  destruct (raise_base g0 i p s Hb ltac:(lia)) as (_ & Hw' & _).
  rewrite Hw'. destruct (decide (i = e)) as [<-|]; done.
Qed.

Lemma relax_all_costs (targets : list NodeId) (e : EdgeId) (l : list NodeId) :
  forall (seen : list NodeId) s,
    (forall it, it ∈ l -> it ∈ inputs_ (edge g0 e)) ->
    bf_inner g0 targets e seen s -> bf_costs g0 T s ->
    path_cost g0 T e (weight_of (PlanOps.bf_state s) e) ->
    bf_costs g0 T (foldl (PlanOps.relax_input e) s l).
Proof.
  induction l as [|it l IH]; intros seen s Hl Hi Hc He; [done|].
  cbn [foldl].
  destruct (relax_step_costs targets e seen it s) as [Hc' He'];
    [apply Hl; by left|done..|].
  apply (IH (seen ++ [it])); [|by apply relax_step|done..].
  intros it' Hit'. apply Hl. by right.
Qed.

Lemma backflow_costs (targets : list NodeId) (fuel : nat) :
  forall s g', bf_inv g0 targets s -> bf_costs g0 T s ->
               PlanOps.backflow fuel s = Ret g' ->
               forall e, weight_of g' e <> weight_of g0 e ->
                         path_cost g0 T e (weight_of g' e).
Proof.
  induction fuel as [|fuel IH]; intros s g' Hi Hc H;
    cbn [PlanOps.backflow] in H;
    destruct (PlanOps.work_queue s) as [|e rest] eqn:Hq; try done.
  - injection H as <-. apply (proj1 Hc).
  - injection H as <-. apply (proj1 Hc).
  - cbn [PlanOps.bf_state] in H. revert H. apply IH.
    + by apply round_inv.
    + rewrite (sbw_inputs g0 _ e (proj1 (proj1 Hi))).
      eapply (relax_all_costs targets e _ []).
      * done.
      * by apply round_enter.
      * destruct Hc as [Hc1 Hc2]. split; [done|].
        intros e' He'. apply Hc2. rewrite Hq. by right.
      * apply (proj2 Hc). rewrite Hq. by left.
Qed.

(** What the bounds give for the graph the backflow returns. *)
Lemma final_is_greatest (g' : State) :
  bf_final g0 T g' ->
  (forall e, weight_of g' e <> weight_of g0 e ->
             path_cost g0 T e (weight_of g' e)) ->
  forall e c, path_cost g0 T e c -> c <= weight_of g' e.
Proof.
  intros (Hs & Hm & Hl & Hr) Hc e c Hp.
  induction Hp as [t i Ht Hi|e it i c Hp IH Hit Hi].
  - apply Hl. by exists t.
  - pose proof (path_cost_bound _ _ Hp) as Hb.
    pose proof (fresh_lt e) as Hf.
    assert (Hne : weight_of g' e <> weight_of g0 e) by lia.
    pose proof (path_cost_bound _ _ (Hc e Hne)) as Hb'.
    pose proof (depth_range e) as Hd. pose proof (heuristic_range g0 i) as Hh.
    pose proof (Hr e ltac:(by right) it i Hit Hi) as Hrel.
    rewrite to_int64_small in Hrel by (unfold Int.is_int64; lia). lia.
Qed.

End Exact.

Lemma path_cost_ext (g : State) (T T' : list NodeId) (e : EdgeId) (c : Z) :
  (forall t, t ∈ T -> t ∈ T') -> path_cost g T e c -> path_cost g T' e c.
Proof.
  intros HT. induction 1 as [t i Ht Hi|e it i c Hp IH Hit Hi].
  - eapply path_target; [by apply HT|done].
  - by eapply path_step.
Qed.

(** On a graph whose edges have no weights yet and lie in layers (so it has
    no cycle), [ComputeCriticalPath] computes the critical path: the weight
    of an edge that a chain of inputs links to a target is the greatest cost
    of such a chain (phony edges cost 0, the others 1), and the weight of
    every other edge is left as it was. *)
Theorem ComputeCriticalPath_exact {X double : Type} `{!Env X double}
    (fuel : nat) (b b' : Builder X double) (m : gmap EdgeId Z) (N : Z) :
  fresh_weights (state_ b) ->
  well_layered (state_ b) m N ->
  N < 2 ^ 62 ->
  PlanOps.ComputeCriticalPath fuel b = Ret b' ->
  (forall e c,
     path_cost (state_ b) (targets_ (plan_ b)) e c ->
     path_cost (state_ b) (targets_ (plan_ b)) e (weight_of (state_ b') e)
     /\ c <= weight_of (state_ b') e)
  /\ (forall e,
        (forall c, ~ path_cost (state_ b) (targets_ (plan_ b)) e c) ->
        weight_of (state_ b') e = weight_of (state_ b) e).
Proof.
  intros Hfresh Hlay HN H.
  pose proof (ComputeCriticalPath_final fuel b b' H) as [_ Hfin].
  unfold PlanOps.ComputeCriticalPath in H.
  set (T := PlanOps.remove_seen ∅ (targets_ (plan_ b))) in *.
  destruct (PlanOps.backflow fuel _) as [g| |] eqn:Hbf; [|done..].
  cbn [res_bind] in H. injection H as <-. cbn [state_ with_state] in *.
  assert (HT : forall t, t ∈ T <-> t ∈ targets_ (plan_ b)).
  { intros t. unfold T. rewrite (proj2 (remove_seen_spec _ ∅)).
    split; [tauto|]. intros Ht. split; [done|]. apply not_elem_of_empty. }
  set (s0 := PlanOps.mkBackflow [] ∅ (state_ b)) in *.
  assert (Hs0 : bf_seeded (state_ b) [] s0).
  { split; [|split].
    - split; [apply sbw_refl|]. split; [done|]. split; [constructor|].
      intros e. cbn [PlanOps.active_edges PlanOps.work_queue]. set_solver.
    - intros e (t & []%elem_of_nil & _).
    - intros e [(t & []%elem_of_nil & _)|He]; done. }
  assert (Hc0 : bf_costs (state_ b) T s0).
  { split; [done|]. intros e []%elem_of_nil. }
  pose proof (seed_all (state_ b) T [] s0 Hs0) as Hs1. cbn [app] in Hs1.
  pose proof (seed_all_costs (state_ b) T Hfresh T [] s0
                ltac:(done) Hs0 Hc0) as Hc1.
  assert (Hi1 : bf_inv (state_ b) T (foldl PlanOps.seed_target s0 T)).
  { destruct Hs1 as (Hb & Hl & Hq). split; [done|]. split; [done|].
    intros e He Hn. by destruct Hn; apply Hq. }
  pose proof (backflow_costs (state_ b) T m N Hlay HN T fuel _ g
                Hi1 Hc1 Hbf) as Hcost.
  pose proof (final_is_greatest (state_ b) T m N Hfresh Hlay HN g Hfin Hcost)
    as Hmax.
  split.
  - intros e c Hp.
    assert (Hp' : path_cost (state_ b) T e c)
      by (eapply path_cost_ext; [|exact Hp]; intros t; apply HT).
    pose proof (Hmax e c Hp') as Hle. split; [|done].
    pose proof (path_cost_bound (state_ b) T m N Hlay e c Hp') as Hb.
    pose proof (fresh_lt (state_ b) Hfresh e) as Hf.
    eapply path_cost_ext; [|apply Hcost; lia]. intros t. apply HT.
  - intros e Hno. destruct (decide (weight_of g e = weight_of (state_ b) e))
      as [Heq|Hne]; [done|].
    exfalso. apply (Hno (weight_of g e)).
    eapply path_cost_ext; [|by apply Hcost]. intros t. apply HT.
Qed.

Lemma ComputeCriticalPath_exact_witness :
  exists b',
    PlanOps.ComputeCriticalPath 3 SimMore.b_chain = Ret b'
    /\ weight_of (state_ b') 0%nat = 2
    /\ weight_of (state_ b') 1%nat = 1
    /\ (forall e c,
          path_cost (state_ SimMore.b_chain) (targets_ (plan_ SimMore.b_chain))
                    e c ->
          path_cost (state_ SimMore.b_chain) (targets_ (plan_ SimMore.b_chain))
                    e (weight_of (state_ b') e)
          /\ c <= weight_of (state_ b') e)
    /\ (forall e,
          (forall c, ~ path_cost (state_ SimMore.b_chain)
                                 (targets_ (plan_ SimMore.b_chain)) e c) ->
          weight_of (state_ b') e = weight_of (state_ SimMore.b_chain) e).
Proof.
  eexists. split; [vm_compute; reflexivity|].
  split; [vm_compute; reflexivity|]. split; [vm_compute; reflexivity|].
  eapply (ComputeCriticalPath_exact 3 SimMore.b_chain _ SimMore.chain_depth 1).
  - apply (bool_decide_unpack
             (map_Forall (fun (_ : EdgeId) ed => critical_path_weight_ ed < 0)
                         (edges (state_ SimMore.b_chain)))).
    vm_compute. exact I.
  - split; [lia|]. split.
    + apply (bool_decide_unpack
               (map_Forall (fun (_ : EdgeId) (v : Z) => 0 <= v <= 1)
                           SimMore.chain_depth)).
      vm_compute. exact I.
    + apply (bool_decide_unpack
               (map_Forall (fun (e : EdgeId) ed =>
                              layered_edge (state_ SimMore.b_chain)
                                           SimMore.chain_depth e ed = true)
                           (edges (state_ SimMore.b_chain)))).
      vm_compute. exact I.
  - lia.
  - vm_compute. reflexivity.
Defined.
(** ** The backflow returns on a layered graph *)

Section Sums.

Lemma zsum_ext (f f' : EdgeId -> Z) (l : list EdgeId) :
  (forall e, e ∈ l -> f' e = f e) -> zsum f' l = zsum f l.
Proof.
  induction l as [|a l IH]; intros H; [done|]. cbn [zsum].
  rewrite (H a) by by left. rewrite IH; [done|]. intros e He. apply H. by right.
Qed.

Lemma zsum_update (f f' : EdgeId -> Z) (l : list EdgeId) (i : EdgeId) :
  NoDup l -> i ∈ l -> (forall e, e <> i -> f' e = f e) ->
  zsum f' l = zsum f l + f' i - f i.
Proof.
  induction l as [|a l IH]; intros Hn Hi Hf; [by apply elem_of_nil in Hi|].
  apply NoDup_cons in Hn as [Ha Hn]. cbn [zsum].
  destruct (decide (a = i)) as [->|Hne].
  - rewrite (zsum_ext f f' l); [lia|].
    intros e He. apply Hf. by intros ->.
  - apply elem_of_cons in Hi as [->|Hi]; [done|].
    rewrite (Hf a Hne), (IH Hn Hi Hf). lia.
Qed.

Lemma zsum_nonneg (f : EdgeId -> Z) (l : list EdgeId) :
  (forall e, e ∈ l -> 0 <= f e) -> 0 <= zsum f l.
Proof.
  induction l as [|a l IH]; intros H; cbn [zsum]; [lia|].
  pose proof (H a ltac:(by left)).
  assert (0 <= zsum f l) by (apply IH; intros e He; apply H; by right). lia.
Qed.

End Sums.

Section Returns.

Variable g0 : State.
Variable T : list NodeId.
Variable m : gmap EdgeId Z.
Variable N : Z.
Hypothesis Hfresh : fresh_weights g0.
Hypothesis Hlay : well_layered g0 m N.
Hypothesis HN : N < 2 ^ 62.
Hypothesis Hclosed : edges_closed g0.

Implicit Type s : PlanOps.Backflow.

Lemma slack_update (g : State) (i : EdgeId) (w' : Z) :
  is_Some (edges g0 !! i) ->
  slack g0 N (update_edge i (set_critical_path_weight w') g)
  = slack g0 N g - (w' - weight_of g i).
Proof.
  intros Hi. unfold slack.
  rewrite (zsum_update (fun e => N + 1 - weight_of g e)
             (fun e => N + 1 - weight_of
                                 (update_edge i (set_critical_path_weight w') g) e)
             _ i).
  - rewrite weight_update, decide_True by done. lia.
  - apply NoDup_elements.
  - by apply elem_of_elements, elem_of_dom.
  - intros e Hne. rewrite weight_update, decide_False by done. done.
Qed.

(** Setting a greater weight, or the same weight on an edge of the queue,
    does not raise the budget. *)
Lemma raise_budget (i : EdgeId) (w' : Z) s :
  bf_base g0 s -> is_Some (edges g0 !! i) ->
  weight_of (PlanOps.bf_state s) i < w'
  \/ (w' = weight_of (PlanOps.bf_state s) i /\ i ∈ PlanOps.work_queue s) ->
  bf_budget g0 N (raise i w' s) <= bf_budget g0 N s.
Proof.
  intros (_ & _ & _ & Ha) Hi Hw. unfold bf_budget, raise, PlanOps.push_unseen.
  cbn [PlanOps.active_edges PlanOps.work_queue PlanOps.bf_state].
  case_bool_decide as Hin;
    cbn [PlanOps.active_edges PlanOps.work_queue PlanOps.bf_state];
    rewrite slack_update by done.
  - lia.
  - rewrite length_app. cbn [length].
    destruct Hw as [Hw|[_ Hq]]; [lia|]. by apply Ha in Hq.
Qed.

Lemma weight_le_top s (e : EdgeId) :
  bf_costs g0 T s -> weight_of (PlanOps.bf_state s) e <= N + 1.
Proof.
  intros [Hc _].
  destruct (decide (weight_of (PlanOps.bf_state s) e = weight_of g0 e))
    as [->|Hne].
  - pose proof (fresh_lt g0 Hfresh e). pose proof (proj1 Hlay). lia.
  - pose proof (path_cost_bound g0 T m N Hlay e _ (Hc e Hne)).
    pose proof (depth_range g0 m N Hlay e). lia.
Qed.

Lemma budget_covers_queue s :
  bf_costs g0 T s ->
  Z.of_nat (length (PlanOps.work_queue s)) <= bf_budget g0 N s.
Proof.
  intros Hc. unfold bf_budget, slack.
  assert (0 <= zsum (fun e => N + 1 - weight_of (PlanOps.bf_state s) e)
                    (elements (dom (edges g0)))); [|lia].
  apply zsum_nonneg. intros e _. pose proof (weight_le_top s e Hc). lia.
Qed.

Lemma seed_step_budget (pre : list NodeId) (t : NodeId) s :
  bf_seeded g0 pre s ->
  bf_budget g0 N (PlanOps.seed_target s t) <= bf_budget g0 N s.
Proof.
  intros (Hb & _ & Hq). unfold PlanOps.seed_target.
  pose proof (proj1 Hb) as Hs. rewrite (sbw_node g0) by done.
  destruct (in_edge (node g0 t)) as [i|] eqn:Hi; [|done].
  rewrite (sbw_heuristic g0) by done.
  set (w' := Z.max _ _). fold (raise i w' s).
  apply raise_budget; [done|by eapply Hclosed|].
  destruct (Z.max_spec (PlanOps.EdgeWeightHeuristic g0 i)
                       (weight_of (PlanOps.bf_state s) i)) as [[Hlt E]|[Hge E]];
    fold w' in E.
  - right. split; [done|]. apply Hq. right.
    pose proof (fresh_lt g0 Hfresh i).
    pose proof (heuristic_range g0 i). lia.
  - destruct (decide (weight_of (PlanOps.bf_state s) i
                      = PlanOps.EdgeWeightHeuristic g0 i)) as [Heq|Hne].
    + right. split; [lia|]. apply Hq. right.
      pose proof (fresh_lt g0 Hfresh i).
      pose proof (heuristic_range g0 i). lia.
    + left. lia.
Qed.

Lemma seed_all_budget (l : list NodeId) :
  forall (pre : list NodeId) s,
    bf_seeded g0 pre s ->
    bf_budget g0 N (foldl PlanOps.seed_target s l) <= bf_budget g0 N s.
Proof.
  induction l as [|t l IH]; intros pre s Hs; [done|].
  cbn [foldl]. etrans; [apply (IH (pre ++ [t])); by apply seed_step|].
  by eapply seed_step_budget.
Qed.

Lemma relax_step_budget (targets : list NodeId) (e : EdgeId)
    (seen : list NodeId) (it : NodeId) s :
  bf_inner g0 targets e seen s ->
  path_cost g0 T e (weight_of (PlanOps.bf_state s) e) ->
  bf_budget g0 N (PlanOps.relax_input e s it) <= bf_budget g0 N s.
Proof.
  intros (Hb & _) He. unfold PlanOps.relax_input.
  pose proof (proj1 Hb) as Hs. rewrite (sbw_node g0) by done.
  destruct (in_edge (node g0 it)) as [i|] eqn:Hi; [|done].
  rewrite (sbw_heuristic g0) by done.
  destruct (weight_of (PlanOps.bf_state s) i <? _) eqn:Hlt; [|done].
  apply Z.ltb_lt in Hlt.
  match goal with
  | |- context [set_critical_path_weight ?p] => fold (raise i p s)
  end.
  apply raise_budget; [done|by eapply Hclosed|by left].
Qed.

Lemma relax_all_budget (targets : list NodeId) (e : EdgeId) (l : list NodeId) :
  forall (seen : list NodeId) s,
    (forall it, it ∈ l -> it ∈ inputs_ (edge g0 e)) ->
    bf_inner g0 targets e seen s -> bf_costs g0 T s ->
    path_cost g0 T e (weight_of (PlanOps.bf_state s) e) ->
    bf_budget g0 N (foldl (PlanOps.relax_input e) s l) <= bf_budget g0 N s.
Proof.
  induction l as [|it l IH]; intros seen s Hl Hi Hc He; [done|].
  cbn [foldl].
  destruct (relax_step_costs g0 T m N Hlay HN targets e seen it s)
    as [Hc' He']; [apply Hl; by left|done..|].
  etrans; [apply (IH (seen ++ [it])); [|by apply relax_step|done..]|].
  - intros it' Hit'. apply Hl. by right.
  - by eapply relax_step_budget.
Qed.

Lemma backflow_returns (targets : list NodeId) (fuel : nat) :
  forall s, bf_inv g0 targets s -> bf_costs g0 T s ->
            bf_budget g0 N s <= Z.of_nat fuel ->
            exists g', PlanOps.backflow fuel s = Ret g'.
Proof.
  induction fuel as [|fuel IH]; intros s Hi Hc Hb;
    pose proof (budget_covers_queue s Hc) as Hq;
    cbn [PlanOps.backflow];
    destruct (PlanOps.work_queue s) as [|e rest] eqn:Hwq; eauto.
  - cbn [length] in Hq. lia.
  - cbn [PlanOps.bf_state]. apply IH.
    + by apply round_inv.
    + rewrite (sbw_inputs g0 _ e (proj1 (proj1 Hi))).
      eapply (relax_all_costs g0 T m N Hlay HN targets e _ []).
      * done.
      * by apply round_enter.
      * destruct Hc as [Hc1 Hc2]. split; [done|].
        intros e' He'. apply Hc2. rewrite Hwq. by right.
      * apply (proj2 Hc). rewrite Hwq. by left.
    + rewrite (sbw_inputs g0 _ e (proj1 (proj1 Hi))).
      etrans; [eapply (relax_all_budget targets e _ [])|].
      * done.
      * by apply round_enter.
      * destruct Hc as [Hc1 Hc2]. split; [done|].
        intros e' He'. apply Hc2. rewrite Hwq. by right.
      * apply (proj2 Hc). rewrite Hwq. by left.
      * unfold bf_budget in *. cbn [PlanOps.bf_state PlanOps.work_queue].
        rewrite Hwq in Hb. cbn [length] in Hb. lia.
Qed.

End Returns.

(** On a graph whose edges have no weights yet, lie in [N] layers and are
    all in the store, [ComputeCriticalPath] returns: every round of its loop
    takes an edge from the queue and puts back only edges whose weight it
    raised, and no weight exceeds [N + 1], so a budget of the model of
    [N + 1 - weight] rounds per edge suffices. *)
Theorem ComputeCriticalPath_returns {X double : Type} `{!Env X double}
    (fuel : nat) (b : Builder X double) (m : gmap EdgeId Z) (N : Z) :
  fresh_weights (state_ b) ->
  well_layered (state_ b) m N ->
  N < 2 ^ 62 ->
  edges_closed (state_ b) ->
  slack (state_ b) N (state_ b) <= Z.of_nat fuel ->
  exists b', PlanOps.ComputeCriticalPath fuel b = Ret b'.
Proof.
  intros Hfresh Hlay HN Hclosed Hfuel. unfold PlanOps.ComputeCriticalPath.
  set (T := PlanOps.remove_seen ∅ (targets_ (plan_ b))).
  cbn [state_ with_state with_plan].
  set (s0 := PlanOps.mkBackflow [] ∅ (state_ b)).
  assert (Hs0 : bf_seeded (state_ b) [] s0).
  { split; [|split].
    - split; [apply sbw_refl|]. split; [done|]. split; [constructor|].
      intros e. cbn [PlanOps.active_edges PlanOps.work_queue]. set_solver.
    - intros e (t & []%elem_of_nil & _).
    - intros e [(t & []%elem_of_nil & _)|He]; done. }
  assert (Hc0 : bf_costs (state_ b) T s0).
  { split; [done|]. intros e []%elem_of_nil. }
  pose proof (seed_all (state_ b) T [] s0 Hs0) as Hs1. cbn [app] in Hs1.
  pose proof (seed_all_costs (state_ b) T Hfresh T [] s0
                ltac:(done) Hs0 Hc0) as Hc1.
  pose proof (seed_all_budget (state_ b) N Hfresh Hclosed T [] s0 Hs0) as Hb1.
  assert (Hi1 : bf_inv (state_ b) T (foldl PlanOps.seed_target s0 T)).
  { destruct Hs1 as (Hb & Hl & Hq). split; [done|]. split; [done|].
    intros e He Hn. by destruct Hn; apply Hq. }
  destruct (backflow_returns (state_ b) T m N Hfresh Hlay HN Hclosed T fuel
              _ Hi1 Hc1) as [g' Hg'].
  { etrans; [exact Hb1|]. unfold bf_budget, s0.
    cbn [PlanOps.bf_state PlanOps.work_queue length]. lia. }
  rewrite Hg'. cbn [res_bind]. eauto.
Qed.

Lemma ComputeCriticalPath_returns_witness :
  exists b', PlanOps.ComputeCriticalPath 6 SimMore.b_chain = Ret b'.
Proof.
  apply (ComputeCriticalPath_returns 6 SimMore.b_chain SimMore.chain_depth 1).
  - apply (bool_decide_unpack
             (map_Forall (fun (_ : EdgeId) ed => critical_path_weight_ ed < 0)
                         (edges (state_ SimMore.b_chain)))).
    vm_compute. exact I.
  - split; [lia|]. split.
    + apply (bool_decide_unpack
               (map_Forall (fun (_ : EdgeId) (v : Z) => 0 <= v <= 1)
                           SimMore.chain_depth)).
      vm_compute. exact I.
    + apply (bool_decide_unpack
               (map_Forall (fun (e : EdgeId) ed =>
                              layered_edge (state_ SimMore.b_chain)
                                           SimMore.chain_depth e ed = true)
                           (edges (state_ SimMore.b_chain)))).
      vm_compute. exact I.
  - lia.
  - apply edges_closed_check.
    apply (bool_decide_unpack
             (map_Forall (fun (_ : NodeId) nd =>
                            match in_edge nd with
                            | Some e =>
                                bool_decide
                                  (is_Some (edges (state_ SimMore.b_chain) !! e))
                            | None => true
                            end = true) (nodes (state_ SimMore.b_chain)))).
    vm_compute. exact I.
  - vm_compute. discriminate.
Defined.
(** ** The plan leaves the other members of the builder alone *)

Section PlanFrame.

Context {X double : Type} `{!Env X double}.
Implicit Type b : Builder X double.

Lemma entered_members (e : EdgeId) (d : bool) b :
  members (entered e d b) = members b.
Proof.
  unfold entered, PlanOps.EdgeWanted.
  destruct (bool_decide (PlanOps.want_of b e = None));
    destruct d; cbn [andb]; try done.
  all: destruct (bool_decide (_ = kWantNothing)); try done;
    destruct (is_phony _); done.
Qed.

Lemma AddSubTarget_members (fuel : nat) :
  forall (n : NodeId) (dependent : option NodeId)
         (walk : option (gset EdgeId)) b,
    wp false (fun rs => members rs.2.2 = members b)
       (PlanOps.AddSubTarget fuel n dependent (walk, b)).
Proof.
  induction fuel as [|fuel IH]; intros n dependent walk b; [done|].
  rewrite AddSubTarget_unfold. cbv zeta.
  destruct (in_edge (node (state_ b) n)) as [e|] eqn:Hin.
  2:{ destruct (dirty _ && _); done. }
  destruct (outputs_ready_ _); [done|].
  destruct (bool_decide (is_Some walk) && _).
  { simpl. apply (entered_members e false b). }
  pose proof (entered_members e (dirty (node (state_ b) n)) b) as Hent.
  case_bool_decide as Hw; simpl; [|exact Hent].
  set (b2 := entered e (dirty (node (state_ b) n)) b) in *.
  eapply wp_mono; last first.
  - apply (wp_all_ok false
             (fun s : option (gset EdgeId) * Builder X double =>
                members s.2 = members b)); [exact Hent|].
    intros i [walk' b'] _ Hb'. simpl in Hb'.
    pose proof (IH i (Some n) walk' b') as Hrec.
    destruct (PlanOps.AddSubTarget fuel i (Some n) (walk', b'))
      as [[r [w'' b'']]| |]; simpl in *; try done.
    destruct (negb r && _); simpl; congruence.
  - intros [r [w' b'']] H. exact H.
Qed.

Lemma AddTarget_members (fuel : nat) (t : NodeId) b :
  wp false (fun rb => members rb.2 = members b) (PlanOps.AddTarget fuel t b).
Proof.
  rewrite AddTarget_unfold.
  pose proof (AddSubTarget_members fuel t None None (pushed t b)) as H.
  destruct (PlanOps.AddSubTarget fuel t None (None, pushed t b))
    as [[r [w b']]| |]; done.
Qed.

Lemma RetrieveReadyEdges_all_members (pid : PoolId) b :
  members (PlanOps.RetrieveReadyEdges pid b) = members b.
Proof.
  unfold PlanOps.RetrieveReadyEdges.
  destruct (PoolOps.RetrieveReadyEdges _ _ _) as [p' ready']. done.
Qed.

Lemma ScheduleWork_members (e : EdgeId) b :
  wp false (fun b' => members b' = members b) (PlanOps.ScheduleWork e b).
Proof.
  unfold PlanOps.ScheduleWork.
  destruct (PlanOps.want_of b e) as [[| |]|]; try done.
  destruct (PoolOps.ShouldDelayEdge _); simpl; [|done].
  by rewrite RetrieveReadyEdges_all_members.
Qed.

Lemma UnmarkDependents_members (fuel : nat) :
  forall (n : NodeId) (s : gset NodeId * Builder X double),
    wp false (fun s' => members s'.2 = members s.2)
       (PlanOps.UnmarkDependents fuel n s).
Proof.
  induction fuel as [|fuel IH]; intros n s; [done|].
  cbn [PlanOps.UnmarkDependents].
  apply (wp_for_each false
           (fun s' : gset NodeId * Builder X double =>
              members s'.2 = members s.2)); [done|].
  intros oe [dependents b] _ Hb. simpl in Hb.
  destruct (PlanOps.want_of b oe); [|done].
  case_bool_decide; [|done].
  apply (wp_for_each false
           (fun s' : gset NodeId * Builder X double =>
              members s'.2 = members s.2)); [done|].
  intros o [dependents' b'] _ Hb'. simpl in Hb'.
  case_bool_decide; [done|].
  eapply wp_mono; [|apply IH]. intros s' Hs'. simpl in Hs'. congruence.
Qed.

Lemma RefreshDyndepDependents_members (fuel : nat) (n : NodeId) b :
  wp false (fun rb => members rb.2 = members b)
     (PlanOps.RefreshDyndepDependents fuel n b).
Proof.
  unfold PlanOps.RefreshDyndepDependents.
  pose proof (UnmarkDependents_members fuel n (∅, b)) as Hu.
  destruct (PlanOps.UnmarkDependents fuel n (∅, b)) as [[dependents b1]| |];
    [|done..].
  cbn [res_bind]. simpl in Hu.
  apply (wp_all_ok false (fun b' : Builder X double => members b' = members b));
    [done|].
  intros n' b2 _ Hb2.
  destruct (scan_RecomputeDirty _ _ _ _) as [[[[ok vs] g] x] e].
  destruct ok; cbn [negb]; [|done].
  set (b3 := with_err e _).
  pose proof (wp_all_ok false
                (fun b' : Builder X double => members b' = members b)
                (fun v b =>
                   match in_edge (node (state_ b) v) with
                   | Some ie =>
                       if outputs_ready_ (edge (state_ b) ie) then Ret (true, b)
                       else PlanOps.AddTarget fuel v b
                   | None => Ret (true, b)
                   end) vs b3 Hb2) as Hv.
  destruct (all_ok _ vs b3) as [[r b4]| |].
  - cbn [res_bind]. simpl in Hv.
    assert (H4 : members b4 = members b).
    { apply Hv. intros v b' _ Hb'.
      destruct (in_edge _) as [ie|]; [|done].
      destruct (outputs_ready_ _); [done|].
      eapply wp_mono; [|apply AddTarget_members]. intros rb Hrb. simpl in *.
      congruence. }
    destruct r; cbn [negb]; [|done].
    destruct (dirty _); cbn [negb]; [|done].
    destruct (in_edge _) as [e'|]; [|done].
    destruct (outputs_ready_ _); [done|].
    destruct (PlanOps.want_of b4 e') as [[| |]|]; done.
  - done.
  - done.
Qed.

Section OverEdgeFinished.

Variable EF : EdgeId -> EdgeResult -> Builder X double
              -> res (bool * Builder X double).
Hypothesis EF_members :
  forall e r b, wp false (fun rb => members rb.2 = members b) (EF e r b).

Lemma EdgeMaybeReady_members (e : EdgeId) b :
  wp false (fun rb => members rb.2 = members b) (PlanOps.EdgeMaybeReady_ EF e b).
Proof.
  unfold PlanOps.EdgeMaybeReady_.
  destruct (AllInputsReady _ _); [|done].
  destruct (PlanOps.want_of b e) as [want|]; [|done].
  destruct (negb _); [|apply EF_members].
  pose proof (ScheduleWork_members e b) as H.
  by destruct (PlanOps.ScheduleWork e b).
Qed.

Lemma wanted_round_members (l : list EdgeId) b0 b :
  members b = members b0 ->
  wp false (fun rb => members rb.2 = members b0)
     (all_ok (fun wi b =>
                match PlanOps.want_of b wi with
                | None => Ret (true, b)
                | Some _ => PlanOps.EdgeMaybeReady_ EF wi b
                end) l b).
Proof.
  intros Hb.
  apply (wp_all_ok false (fun b' : Builder X double => members b' = members b0));
    [done|].
  intros wi b' _ Hb'. destruct (PlanOps.want_of b' wi); [|done].
  eapply wp_mono; [|apply EdgeMaybeReady_members].
  intros rb Hrb. simpl in *. congruence.
Qed.

Lemma DyndepsLoaded_members (fuel : nat) (n : NodeId) (ddf : DyndepFile) b :
  wp false (fun rb => members rb.2 = members b)
     (PlanOps.DyndepsLoaded_ EF fuel n ddf b).
Proof.
  unfold PlanOps.DyndepsLoaded_.
  pose proof (RefreshDyndepDependents_members fuel n b) as Hr.
  destruct (PlanOps.RefreshDyndepDependents fuel n b) as [[r b1]| |]; [|done..].
  cbn [res_bind]. simpl in Hr. destruct r; cbn [negb]; [|done].
  set (roots := filter _ ddf).
  pose proof (wp_all_ok false
                (fun s : option (gset EdgeId) * Builder X double =>
                   members s.2 = members b)
                (fun (oe : EdgeId * list NodeId) s =>
                   all_ok
                     (fun i s =>
                        match PlanOps.AddSubTarget fuel i
                                (head (outputs_ (edge (state_ s.2) oe.1))) s with
                        | Ret (r, (walk, b')) =>
                            if negb r && negb (Str.empty (err b')) then
                              Ret (false, (walk, b'))
                            else Ret (true, (walk, b'))
                        | AssertFailed => AssertFailed
                        | OutOfFuel => OutOfFuel
                        end) oe.2 s)
                roots (Some ∅, b1) Hr) as Hw.
  destruct (all_ok _ roots (Some ∅, b1)) as [[r [walk b2]]| |].
  - cbn [res_bind]. simpl in Hw.
    assert (H2 : members b2 = members b).
    { apply Hw. intros oe s _ Hs.
      apply (wp_all_ok false
               (fun s : option (gset EdgeId) * Builder X double =>
                  members s.2 = members b)); [done|].
      intros i [walk' b'] _ Hb'. simpl in Hb'.
      pose proof (AddSubTarget_members fuel i
                    (head (outputs_ (edge (state_ b') oe.1))) walk' b') as Ha.
      cbn [snd].
      destruct (PlanOps.AddSubTarget fuel i _ (walk', b'))
        as [[r' [w'' b'']]| |]; simpl in *; try done.
      destruct (negb r' && _); simpl; congruence. }
    destruct r; cbn [negb]; [|done].
    by apply wanted_round_members.
  - done.
  - done.
Qed.

Lemma LoadDyndeps_members (fuel : nat) (n : NodeId) b :
  wp false (fun rb => members rb.2 = members b)
     (PlanOps.LoadDyndeps_ EF fuel n b).
Proof.
  unfold PlanOps.LoadDyndeps_.
  destruct (scan_LoadDyndeps _ _ _ _) as [[[[ok ddf] g] x] e].
  destruct ok; cbn [negb]; [|done].
  set (b1 := with_err e _).
  pose proof (DyndepsLoaded_members fuel n ddf b1) as H.
  destruct (PlanOps.DyndepsLoaded_ EF fuel n ddf b1) as [[r b2]| |]; [|done..].
  cbn [res_bind]. simpl in H. destruct r; cbn [negb]; done.
Qed.

Lemma NodeFinished_members (fuel : nat) (n : NodeId) b :
  wp false (fun rb => members rb.2 = members b)
     (PlanOps.NodeFinished_ EF fuel n b).
Proof.
  unfold PlanOps.NodeFinished_.
  destruct (dyndep_pending _); [apply LoadDyndeps_members|].
  by apply wanted_round_members.
Qed.

End OverEdgeFinished.

Lemma EdgeFinished_members (fuel : nat) :
  forall (e : EdgeId) (result : EdgeResult) b,
    wp false (fun rb => members rb.2 = members b)
       (PlanOps.EdgeFinished fuel e result b).
Proof.
  induction fuel as [|fuel IH]; intros e result b; [done|].
  rewrite EdgeFinished_unfold.
  destruct (PlanOps.want_of b e) as [want|]; [|done].
  assert (H1 : members (finish_pool e want b) = members b).
  { unfold finish_pool. cbv zeta. rewrite RetrieveReadyEdges_all_members.
    by destruct (negb _). }
  assert (H2 : members (finish_edge e want b) = members b).
  { unfold finish_edge, finish_erase. cbv zeta. rewrite <- H1.
    by destruct (negb _). }
  destruct (negb (bool_decide (result = kEdgeSucceeded))); [done|].
  apply (wp_all_ok false (fun b' : Builder X double => members b' = members b));
    [done|].
  intros o b' _ Hb'.
  eapply wp_mono; [|apply (NodeFinished_members _ IH)].
  intros rb Hrb. simpl in *. congruence.
Qed.

Lemma CleanNode_members (fuel : nat) :
  forall (n : NodeId) b,
    wp false (fun rb => members rb.2 = members b) (PlanOps.CleanNode fuel n b).
Proof.
  induction fuel as [|fuel IH]; intros n b; [done|].
  cbn [PlanOps.CleanNode].
  apply (wp_all_ok false (fun b' : Builder X double => members b' = members b));
    [done|].
  intros oe b1 _ Hb1.
  destruct (PlanOps.want_of b1 oe) as [[| |]|]; try done;
    (destruct (deps_missing_ _); [done|]);
    (destruct (forallb _ _); [|done]);
    destruct (scan_RecomputeOutputsDirty _ _ _ _ _) as [[ok od] e'];
    (destruct ok; cbn [negb]; [|done]);
    (destruct od; cbn [negb]; [done|]);
    match goal with
    | |- context [all_ok (PlanOps.CleanNode fuel) ?l ?bb] =>
        pose proof (wp_all_ok false
                      (fun b' : Builder X double => members b' = members b)
                      (PlanOps.CleanNode fuel) l bb Hb1) as Hc;
        destruct (all_ok (PlanOps.CleanNode fuel) l bb) as [[r b2]| |];
        [|done..]
    end;
    cbn [res_bind]; simpl in Hc;
    (assert (H2 : members b2 = members b)
       by (apply Hc; intros o b' _ Hb'; (eapply wp_mono; [|apply IH]);
           intros rb Hrb; simpl in *; congruence));
    (destruct r; cbn [negb]; [|done]);
    simpl; by destruct (is_phony _).
Qed.

End PlanFrame.
(** ** [Builder::FinishCommand] on a command that succeeded *)

Section FinishSucceeded.

Context {X double : Type} `{!Floating double} `{!Env X double}.
Implicit Type b : Builder X double.

Lemma ExtractDeps_members (result : Result) (deps_type deps_prefix : string)
    (deps_nodes : list NodeId) (extract_err : string) b :
  wp false (fun r => members r.2 = members b)
     (BuilderOps.ExtractDeps result deps_type deps_prefix deps_nodes
                             extract_err b).
Proof.
  unfold BuilderOps.ExtractDeps.
  destruct (String.eqb deps_type "msvc").
  { destruct (CLParser_Parse _ _ _) as [[[ok1 output] includes] e1].
    destruct ok1; cbn [negb]; [|done].
    by destruct (foldl _ _ includes) as [dn1 g1]. }
  destruct (String.eqb deps_type "gcc"); [|done].
  destruct (Str.empty _); [done|].
  destruct (disk_ReadFile _ _ _) as [[status content] e1].
  destruct status; [| |done];
    (destruct (Str.empty content); [done|]);
    destruct (DepfileParser_Parse _ _) as [[ok1 ins] e2];
    (destruct ok1; cbn [negb]; [|done]);
    destruct (foldl _ _ ins) as [dn1 g1];
    (destruct (negb g_keep_depfile); [|done]);
    destruct (disk_RemoveFile _ _) as [rc x];
    by destruct (rc <? 0).
Qed.

Lemma restat_outputs_members (fuel : nat) (e : EdgeId) (restat : bool)
    (s : TimeStamp * bool * Builder X double) :
  wp false (fun rs => members rs.2.2 = members s.2)
     (BuilderOps.restat_outputs fuel e restat s).
Proof.
  unfold BuilderOps.restat_outputs.
  apply (wp_all_ok false
           (fun s' : TimeStamp * bool * Builder X double =>
              members s'.2 = members s.2)); [done|].
  intros o [[rm nc] b1] _ Hb1. simpl in Hb1.
  destruct (disk_Stat _ _ _) as [new_mtime msg].
  destruct (new_mtime =? -1); [done|].
  destruct (_ && restat); [|done].
  match goal with
  | |- context [PlanOps.CleanNode fuel o ?bb] =>
      pose proof (CleanNode_members fuel o bb) as Hc;
      destruct (PlanOps.CleanNode fuel o bb) as [[ok b2]| |]; [|done..]
  end.
  cbn [res_bind]. simpl in Hc.
  destruct ok; simpl; (etrans; [exact Hc|exact Hb1]).
Qed.

End FinishSucceeded.

(** When [FinishCommand] answers true for a command that succeeded and there
    is a build log, exactly one record was handed to the log: it is for the
    edge of the result and carries the start time that [running_edges_] held
    for it; the edge has left [running_edges_].  In a dry run the recorded
    mtime is 0 and nothing is handed to the deps log. *)
Theorem FinishCommand_records {X double : Type} `{!Floating double}
    `{!Env X double} (fuel : nat) (result result' : Result)
    (b b' : Builder X double) (records : list LogRecord) :
  BuilderOps.FinishCommand fuel result b = Ret (true, result', b') ->
  success result' = true ->
  build_log_ b = Some records ->
  exists start t m,
    running_edges_ b !! result_edge result = Some start
    /\ build_log_ b'
       = Some (records ++ [mkLogRecord (result_edge result) start t m])
    /\ running_edges_ b' = delete (result_edge result) (running_edges_ b)
    /\ (dry_run (config_ b) = true -> m = 0 /\ deps_log_ b' = deps_log_ b).
Proof.
  intros H Hs Hbl. unfold BuilderOps.FinishCommand in H.
  set (e := result_edge result) in *.
  destruct (if negb (Str.empty (binding_deps (edge (state_ b) e))) then _ else _)
    as [[[result1 dn] b1]| |] eqn:Hx; [|done..].
  assert (Hm1 : members b1 = members b).
  { destruct (negb (Str.empty _)); [|by injection Hx as <- <- <-].
    pose proof (ExtractDeps_members result
                  (binding_deps (edge (state_ b) e))
                  (binding_msvc_deps_prefix (edge (state_ b) e)) [] "" b) as Hd.
    destruct (BuilderOps.ExtractDeps result _ _ [] "" b)
      as [[[[[ok result2] dn2] e2] b2]| |]; [|done..].
    cbn [res_bind] in Hx. simpl in Hd.
    destruct (negb ok && success result2); by injection Hx as <- <- <-. }
  cbn [res_bind] in H.
  destruct (running_edges_ b1 !! e) as [start|] eqn:Hst; [|done].
  destruct (GetTimeMillis (world b1)) as [now x].
  destruct (success result1) eqn:Hs1; cbn [negb] in H.
  2:{ destruct (PlanOps.EdgeFinished fuel e kEdgeFailed _) as [[r b2]| |];
        [|done..].
      cbn [res_bind] in H. injection H as -> <- <-. congruence. }
  set (t := Int.to_int64 _) in H.
  set (b1' := tell _ _) in H.
  assert (Hm1' : config_ b1' = config_ b /\ build_log_ b1' = Some records
                 /\ deps_log_ b1' = deps_log_ b
                 /\ running_edges_ b1' = delete e (running_edges_ b)
                 /\ running_edges_ b !! e = Some start).
  { injection Hm1 as Hc _ Hr _ _ Hb Hd _. unfold b1'. cbn.
    rewrite <- Hr, Hc, Hb, Hd. done. }
  clearbody b1'. destruct Hm1' as (Hc1 & Hb1 & Hd1 & Hr1 & Hst0).
  destruct (if negb (dry_run (config_ b1')) then _ else _)
    as [[ok [rm b2]]| |] eqn:Hres; [|done..].
  assert (Hm2 : members b2 = members b1'
                /\ (dry_run (config_ b1') = true -> rm = 0)).
  { destruct (dry_run (config_ b1')); cbn [negb] in Hres.
    - by injection Hres as <- <- <-.
    - split; [|done].
      destruct (if (_ =? 0) || _ || _ then _ else _)
        as [[ok' [[rm' nc] b3]]| |] eqn:Hro; [|done..].
      assert (H3 : members b3 = members b1').
      { destruct ((_ =? 0) || _ || _); [|by injection Hro as <- <- <- <-].
        match type of Hro with
        | BuilderOps.restat_outputs ?f ?ee ?rs ?ss = _ =>
            pose proof (restat_outputs_members f ee rs ss) as Hrm
        end.
        rewrite Hro in Hrm. exact Hrm. }
      cbn [res_bind] in Hres.
      destruct ok'; cbn [negb] in Hres; [destruct nc|];
        by injection Hres as <- <- <-. }
  destruct Hm2 as [Hm2 Hdry].
  cbn [res_bind] in H. destruct ok; cbn [negb] in H; [|done].
  pose proof (EdgeFinished_members fuel e kEdgeSucceeded b2) as Hef.
  destruct (PlanOps.EdgeFinished fuel e kEdgeSucceeded b2) as [[ok b3]| |];
    [|done..].
  cbn [res_bind] in H. simpl in Hef. destruct ok; cbn [negb] in H; [|done].
  clear Hx Hres.
  set (b4 := if negb (Str.empty _) && negb g_keep_rsp then _ else b3) in H.
  assert (Hm4 : members b4 = members b3) by (unfold b4; by destruct (_ && _)).
  clearbody b4.
  assert (Hall : config_ b4 = config_ b /\ build_log_ b4 = Some records
                 /\ deps_log_ b4 = deps_log_ b
                 /\ running_edges_ b4 = delete e (running_edges_ b)).
  { rewrite Hef, Hm2 in Hm4. injection Hm4 as Hc _ Hr _ _ Hb Hd _.
    rewrite Hc, Hr, Hb, Hd. done. }
  destruct Hall as (Hc4 & Hb4 & Hd4 & Hr4). rewrite Hb4 in H.
  destruct (log_RecordCommand _ _) as [ok x'].
  destruct ok; cbn [negb res_bind] in H; [|done].
  set (b5 := with_build_log _ _) in H.
  set (record := mkLogRecord e start t rm) in *.
  assert (H5 : config_ b5 = config_ b
               /\ build_log_ b5 = Some (records ++ [record])
               /\ deps_log_ b5 = deps_log_ b
               /\ running_edges_ b5 = delete e (running_edges_ b)).
  { unfold b5. cbn. by rewrite Hc4, Hd4, Hr4. }
  clearbody b5. destruct H5 as (Hc5 & Hb5 & Hd5 & Hr5).
  exists start, t, rm. split; [done|].
  destruct (negb (Str.empty _) && negb (dry_run (config_ b5))) eqn:Hdeps.
  - destruct (bool_decide _); [done|].
    match type of H with
    | context [all_ok ?f ?l b5] =>
        pose proof (wp_all_ok false
                      (fun b' : Builder X double =>
                         build_log_ b' = build_log_ b5
                         /\ running_edges_ b' = running_edges_ b5)
                      f l b5 ltac:(done)) as Hl;
        destruct (all_ok f l b5) as [[ok b6]| |]; [|done..]
    end.
    cbn [res_bind] in H. injection H as -> <- <-. simpl in Hl.
    destruct Hl as [Hb6 Hr6].
    { intros o bb _ Hbb. destruct (disk_Stat _ _ _) as [dm msg].
      destruct (dm =? -1); [done|].
      destruct (deps_RecordDeps _ _) as [ok x'']. by destruct ok. }
    rewrite Hb6, Hr6, Hb5, Hr5. split; [done|]. split; [done|].
    intros Hdry'. rewrite Hc5, Hdry', andb_false_r in Hdeps. done.
  - injection H as <- <-. rewrite Hb5, Hr5, Hd5. split; [done|].
    split; [done|]. intros Hdry'. split; [|done].
    apply Hdry. by rewrite Hc1.
Qed.

Lemma FinishCommand_records_witness :
  exists b',
    BuilderOps.FinishCommand 3 SimMore.no_result SimMore.b_started
      = Ret (true, SimMore.no_result, b')
    /\ exists start t m,
         running_edges_ SimMore.b_started !! result_edge SimMore.no_result
           = Some start
         /\ build_log_ b'
            = Some ([] ++ [mkLogRecord (result_edge SimMore.no_result) start t m])
         /\ running_edges_ b'
            = delete (result_edge SimMore.no_result)
                     (running_edges_ SimMore.b_started)
         /\ (dry_run (config_ SimMore.b_started) = true ->
             m = 0 /\ deps_log_ b' = deps_log_ SimMore.b_started).
Proof.
  eexists. split; [vm_compute; reflexivity|].
  eapply (FinishCommand_records 3 SimMore.no_result SimMore.no_result
            SimMore.b_started _ []).
  - vm_compute. reflexivity.
  - reflexivity.
  - reflexivity.
Defined.

(** A command that ran fine still fails when its edge says [deps = gcc] and
    names no depfile: [FinishCommand] turns the result into a failure whose
    output ends with the message of [ExtractDeps] (on a line of its own when
    the command printed something), checks the edge off as failed, answers
    true, and hands nothing to the build log or the deps log. *)
Theorem FinishCommand_gcc_without_depfile {X double : Type}
    `{!Floating double} `{!Env X double} (fuel : nat) (result : Result)
    (b : Builder X double) :
  binding_deps (edge (state_ b) (result_edge result)) = "gcc" ->
  unescaped_depfile (edge (state_ b) (result_edge result)) = "" ->
  success result = true ->
  is_Some (running_edges_ b !! result_edge result) ->
  is_Some (PlanOps.want_of b (result_edge result)) ->
  exists b',
    BuilderOps.FinishCommand (S fuel) result b
    = Ret (true,
           mkResult (result_edge result) ExitFailure
             ((if negb (Str.empty (result_output result))
               then result_output result +:+ BuilderOps.newline
               else result_output result)
              +:+ "edge with deps=gcc but no depfile makes no sense")
             (formatEdgeName result),
           b')
    /\ build_log_ b' = build_log_ b
    /\ deps_log_ b' = deps_log_ b
    /\ want_ (plan_ b') = want_ (plan_ b).
Proof.
  intros Hd Hf Hs [start Hst] [w Hw].
  unfold BuilderOps.FinishCommand, BuilderOps.ExtractDeps.
  rewrite Hd, Hf. cbn [Str.empty String.eqb Ascii.eqb Bool.eqb negb res_bind].
  rewrite Hs. cbn [andb res_bind]. rewrite Hst.
  destruct (GetTimeMillis (world b)) as [now x].
  set (result' := mkResult _ ExitFailure _ _).
  change (success result') with false. cbn [negb].
  rewrite EdgeFinished_unfold.
  match goal with
  | |- context [PlanOps.want_of ?bb (result_edge result)] =>
      change (PlanOps.want_of bb (result_edge result))
        with (PlanOps.want_of b (result_edge result))
  end.
  rewrite Hw.
  change (negb (bool_decide (kEdgeFailed = kEdgeSucceeded))) with true.
  cbn [res_bind]. eexists. split; [reflexivity|].
  unfold finish_pool. cbv zeta.
  match goal with
  | |- context [PlanOps.RetrieveReadyEdges ?pid ?bb] =>
      rewrite (proj1 (RetrieveReadyEdges_keeps pid bb));
      destruct (RetrieveReadyEdges_members pid bb) as (Mb & Md & _)
  end.
  rewrite Mb, Md.
  by destruct (negb (bool_decide (w = kWantNothing))).
Qed.

Lemma FinishCommand_gcc_without_depfile_witness :
  exists b',
    BuilderOps.FinishCommand 1 SimMore.no_result SimMore.b_gcc
    = Ret (true,
           mkResult (result_edge SimMore.no_result) ExitFailure
             ((if negb (Str.empty (result_output SimMore.no_result))
               then result_output SimMore.no_result +:+ BuilderOps.newline
               else result_output SimMore.no_result)
              +:+ "edge with deps=gcc but no depfile makes no sense")
             (formatEdgeName SimMore.no_result),
           b')
    /\ build_log_ b' = build_log_ SimMore.b_gcc
    /\ deps_log_ b' = deps_log_ SimMore.b_gcc
    /\ want_ (plan_ b') = want_ (plan_ SimMore.b_gcc).
Proof.
  apply (FinishCommand_gcc_without_depfile 0 SimMore.no_result SimMore.b_gcc).
  - vm_compute. reflexivity.
  - vm_compute. reflexivity.
  - reflexivity.
  - exists 5. reflexivity.
  - exists kWantToFinish. reflexivity.
Defined.
(** ** [Plan::CleanNode] *)

Section AllOkSeen.

Context {A S : Type}.

(** A loop that stops at the first failure: what holds of the items seen
    so far when it goes on, and what holds when it stops. *)
Lemma wp_all_ok_seen (I : list A -> S -> Prop) (J : S -> Prop)
    (f : A -> S -> res (bool * S)) (l : list A) :
  (forall pre a s, I pre s ->
     wp false (fun rs : bool * S =>
                 if rs.1 then I (pre ++ [a]) rs.2 else J rs.2) (f a s)) ->
  forall pre s, I pre s ->
    wp false (fun rs : bool * S => if rs.1 then I (pre ++ l) rs.2 else J rs.2)
       (all_ok f l s).
Proof.
  intros Hf. induction l as [|a l IH]; intros pre s Hs; cbn [all_ok].
  - simpl. by rewrite app_nil_r.
  - pose proof (Hf pre a s Hs) as Ha.
    destruct (f a s) as [[[] s']| |]; simpl in *; try done.
    rewrite cons_middle, app_assoc. by apply IH.
Qed.

End AllOkSeen.

Section CleanNodeFacts.

Context {X double : Type} `{!Env X double}.
Implicit Type b : Builder X double.

Lemma only_cleaned_refl (g : State) : only_cleaned g g.
Proof. split; [done|]. split; [done|]. intros n. by left. Qed.

Lemma only_cleaned_trans (g1 g2 g3 : State) :
  only_cleaned g1 g2 -> only_cleaned g2 g3 -> only_cleaned g1 g3.
Proof.
  intros (He & Hp & Hn) (He' & Hp' & Hn'). split; [congruence|].
  split; [congruence|]. intros n.
  destruct (Hn n) as [H|H], (Hn' n) as [H'|H']; rewrite H', H; auto.
Qed.

Lemma only_cleaned_stays (g g' : State) (n : NodeId) :
  only_cleaned g g' -> dirty (node g n) = false -> dirty (node g' n) = false.
Proof. intros (_ & _ & Hn) H. by destruct (Hn n) as [-> | ->]. Qed.

Lemma only_cleaned_edge (g g' : State) (e : EdgeId) :
  only_cleaned g g' -> edge g' e = edge g e.
Proof. intros (He & _). by apply edge_ext. Qed.

Lemma node_update_node (n n' : NodeId) (f : Node -> Node) (g : State) :
  node (update_node n f g) n' = if decide (n = n') then f (node g n) else node g n'.
Proof.
  unfold node, update_node. simpl. unfold lookup_total, map_lookup_total.
  destruct (decide (n = n')) as [->|Hne].
  - by rewrite lookup_insert_eq.
  - by rewrite lookup_insert_ne.
Qed.

Lemma only_cleaned_clean (g : State) (n : NodeId) :
  only_cleaned g (update_node n (set_dirty false) g).
Proof.
  split; [done|]. split; [done|]. intros n'. rewrite node_update_node.
  destruct (decide (n = n')) as [->|]; auto.
Qed.

Lemma want_retired_refl (m : gmap EdgeId Want) : want_retired m m.
Proof. intros e. by left. Qed.

Lemma want_retired_trans (m1 m2 m3 : gmap EdgeId Want) :
  want_retired m1 m2 -> want_retired m2 m3 -> want_retired m1 m3.
Proof.
  intros H H' e. destruct (H e) as [E|[Hs E]], (H' e) as [E'|[Hs' E']].
  - left. congruence.
  - right. split; [by rewrite <- E|done].
  - right. split; [done|congruence].
  - right. done.
Qed.

Lemma cleaned_from_refl b : cleaned_from b b.
Proof.
  split; [apply only_cleaned_refl|]. split; [apply want_retired_refl|]. done.
Qed.

Lemma cleaned_from_trans b1 b2 b3 :
  cleaned_from b1 b2 -> cleaned_from b2 b3 -> cleaned_from b1 b3.
Proof.
  intros (Hg & Hw & Hr & Ht & Ho) (Hg' & Hw' & Hr' & Ht' & Ho').
  split; [by eapply only_cleaned_trans|].
  split; [by eapply want_retired_trans|].
  split; [congruence|]. split; [congruence|].
  intros e Hne o Hin.
  destruct (decide (want_ (plan_ b2) !! e = want_ (plan_ b1) !! e)) as [Heq|Hne'].
  - apply (Ho' e); [congruence|]. by rewrite (only_cleaned_edge _ _ e Hg).
  - eapply only_cleaned_stays; [done|]. by apply (Ho e).
Qed.

Lemma CleanNode_cleans (fuel : nat) :
  forall (n : NodeId) b,
    wp false (fun rb => cleaned_from b rb.2
                        /\ dirty (node (state_ rb.2) n) = false)
       (PlanOps.CleanNode fuel n b).
Proof.
  induction fuel as [|fuel IH]; intros n b; [done|].
  cbn [PlanOps.CleanNode].
  set (b0 := with_state (update_node n (set_dirty false) (state_ b)) b).
  assert (H0 : cleaned_from b b0 /\ dirty (node (state_ b0) n) = false).
  { split.
    - split; [apply only_cleaned_clean|]. split; [apply want_retired_refl|]. done.
    - unfold b0. cbn [state_ with_state]. rewrite node_update_node.
      by rewrite decide_True. }
  apply (wp_all_ok false
           (fun b' : Builder X double =>
              cleaned_from b b' /\ dirty (node (state_ b') n) = false));
    [done|].
  intros oe b1 _ [Hb1 Hd1].
  destruct (PlanOps.want_of b1 oe) as [w|] eqn:Hw; [|done].
  assert (Hgo : w <> kWantNothing ->
    wp false
      (fun rb => cleaned_from b rb.2 /\ dirty (node (state_ rb.2) n) = false)
      (if deps_missing_ (edge (state_ b1) oe) then Ret (true, b1)
       else
         let ins := inputs_ (edge (state_ b1) oe) in
         let non_order_only :=
           take (length ins - order_only_deps_ (edge (state_ b1) oe)) ins in
         if forallb (fun i => negb (dirty (node (state_ b1) i)))
                    non_order_only then
           let '(ok, outputs_dirty, e) :=
             scan_RecomputeOutputsDirty
               oe (PlanOps.most_recent_input (state_ b1) non_order_only)
               (state_ b1) (world b1) (err b1) in
           let b := with_err e b1 in
           if negb ok then Ret (false, b)
           else if negb outputs_dirty then
             let* (r, b) := all_ok (PlanOps.CleanNode fuel)
                              (outputs_ (edge (state_ b) oe)) b in
             if negb r then Ret (false, b)
             else
               let b := PlanOps.set_want oe kWantNothing b in
               let p := plan_ b in
               let p := plan_with_wanted_edges
                          (Int.to_int (wanted_edges_ p - 1)) p in
               let p := if is_phony (edge (state_ b) oe) then p
                        else plan_with_command_edges
                               (Int.to_int (command_edges_ p - 1)) p in
               Ret (true, with_plan p b)
           else Ret (true, b)
         else Ret (true, b1))).
  { intros Hne. destruct (deps_missing_ _); [done|]. cbv zeta.
    destruct (forallb _ _); [|done].
    destruct (scan_RecomputeOutputsDirty _ _ _ _ _) as [[ok od] e'].
    destruct ok; cbn [negb]; [|done]. destruct od; cbn [negb]; [done|].
    set (b2 := with_err e' b1).
    pose proof (wp_all_ok_seen
                  (fun (pre : list NodeId) (b' : Builder X double) =>
                     cleaned_from b2 b'
                     /\ forall o, o ∈ pre -> dirty (node (state_ b') o) = false)
                  (fun b' : Builder X double => cleaned_from b2 b')
                  (PlanOps.CleanNode fuel) (outputs_ (edge (state_ b2) oe)))
      as Hloop.
    specialize (Hloop
      ltac:(intros pre o s [Hs Hpre];
            pose proof (IH o s) as Ho;
            destruct (PlanOps.CleanNode fuel o s) as [[r s']| |]; try done;
            simpl in *; destruct Ho as [Ho Hdo];
            destruct r;
            [split; [by eapply cleaned_from_trans|];
             intros o' [Hin| ->%list_elem_of_singleton]%elem_of_app;
             [eapply only_cleaned_stays; [apply Ho|by apply Hpre]|done]
            |by eapply cleaned_from_trans])
      [] b2
      ltac:(split; [apply cleaned_from_refl|intros o []%elem_of_nil])).
    cbn [app] in Hloop.
    destruct (all_ok (PlanOps.CleanNode fuel) _ b2) as [[r b3]| |]; [|done..].
    cbn [res_bind]. simpl in Hloop.
    assert (H12 : cleaned_from b1 b2) by exact (cleaned_from_refl b1).
    destruct r; cbn [negb].
    2:{ simpl. split.
        - exact (cleaned_from_trans _ _ _ Hb1
                   (cleaned_from_trans _ _ _ H12 Hloop)).
        - eapply only_cleaned_stays; [apply Hloop|done]. }
    destruct Hloop as [H23 Hout].
    set (b4 := with_plan _ _).
    assert (H34 : cleaned_from b3 b4).
    { split; [apply only_cleaned_refl|]. split; [|split; [|split]].
      - intros e. unfold b4. cbn.
        destruct (decide (e = oe)) as [->|Hne'].
        + right. destruct (proj1 (proj2 H23) oe) as [E|[_ E]].
          * split; [|by destruct (is_phony _); cbn; rewrite lookup_insert_eq].
            rewrite E. unfold PlanOps.want_of in Hw. cbn. rewrite Hw. eauto.
          * split; [|by destruct (is_phony _); cbn; rewrite lookup_insert_eq].
            rewrite E. eauto.
        + left. destruct (is_phony _); cbn; by rewrite lookup_insert_ne.
      - unfold b4. by destruct (is_phony _).
      - unfold b4. by destruct (is_phony _).
      - intros e Hne' o Hin.
        assert (e = oe) as ->.
        { destruct (decide (e = oe)) as [|Hd]; [done|]. exfalso. apply Hne'.
          unfold b4. destruct (is_phony _); cbn; by rewrite lookup_insert_ne. }
        change (state_ b4) with (state_ b3). apply Hout.
        rewrite (only_cleaned_edge _ _ oe (proj1 H23)) in Hin. exact Hin. }
    simpl. split.
    - exact (cleaned_from_trans _ _ _ Hb1
               (cleaned_from_trans _ _ _ H12
                  (cleaned_from_trans _ _ _ H23 H34))).
    - change (state_ b4) with (state_ b3).
      eapply only_cleaned_stays; [apply H23|done]. }
  destruct w; [done|by apply Hgo..].
Qed.

End CleanNodeFacts.

(** [CleanNode] only cleans: whatever it answers, the node is clean
    afterwards, the graph is the same but for nodes that are no longer
    dirty, the want map is the same but for entries that were set to
    [kWantNothing] (none is added, removed or promoted), the ready queue and
    the targets are untouched, and all outputs of every edge whose entry
    changed are clean. *)
Theorem CleanNode_only_cleans {X double : Type} `{!Env X double}
    (fuel : nat) (n : NodeId) (b b' : Builder X double) (r : bool) :
  PlanOps.CleanNode fuel n b = Ret (r, b') ->
  dirty (node (state_ b') n) = false
  /\ only_cleaned (state_ b) (state_ b')
  /\ want_retired (want_ (plan_ b)) (want_ (plan_ b'))
  /\ ready_ (plan_ b') = ready_ (plan_ b)
  /\ targets_ (plan_ b') = targets_ (plan_ b)
  /\ forall e, want_ (plan_ b') !! e <> want_ (plan_ b) !! e ->
               forall o, o ∈ outputs_ (edge (state_ b) e) ->
                         dirty (node (state_ b') o) = false.
Proof.
  intros H. pose proof (CleanNode_cleans fuel n b) as Hwp.
  rewrite H in Hwp. simpl in Hwp. destruct Hwp as [(H1 & H2 & H3 & H4 & H5) H6].
  done.
Qed.

Lemma CleanNode_only_cleans_witness :
  exists b',
    PlanOps.CleanNode 2 1%nat SimMore.b_chain = Ret (true, b')
    /\ want_ (plan_ b') !! 1%nat = Some kWantNothing
    /\ dirty (node (state_ b') 1%nat) = false
    /\ only_cleaned (state_ SimMore.b_chain) (state_ b')
    /\ want_retired (want_ (plan_ SimMore.b_chain)) (want_ (plan_ b'))
    /\ ready_ (plan_ b') = ready_ (plan_ SimMore.b_chain)
    /\ targets_ (plan_ b') = targets_ (plan_ SimMore.b_chain)
    /\ forall e, want_ (plan_ b') !! e <> want_ (plan_ SimMore.b_chain) !! e ->
                 forall o, o ∈ outputs_ (edge (state_ SimMore.b_chain) e) ->
                           dirty (node (state_ b') o) = false.
Proof.
  eexists. split; [vm_compute; reflexivity|].
  split; [vm_compute; reflexivity|].
  eapply (CleanNode_only_cleans 2 1%nat SimMore.b_chain). vm_compute. reflexivity.
Defined.
(** ** [Plan::ScheduleInitialEdges] *)

Section InitialEdges.

Context {X double : Type} `{!Env X double}.
Implicit Type b : Builder X double.

Lemma AllInputsReady_ext (g g' : State) (e : EdgeId) :
  nodes g' = nodes g -> edges g' = edges g ->
  AllInputsReady g' e = AllInputsReady g e.
Proof.
  intros Hn He. unfold AllInputsReady, input_ready.
  rewrite (edge_ext g' g e He). generalize (inputs_ (edge g e)). intros l.
  induction l as [|n l IH]; [done|]. cbn [forallb]. rewrite IH. f_equal.
  rewrite (node_ext g' g n Hn). destruct (in_edge _) as [i|]; [|done].
  by rewrite (edge_ext g' g i He).
Qed.

Lemma ScheduleWork_targets (e : EdgeId) b b' :
  PlanOps.ScheduleWork e b = Ret b' ->
  targets_ (plan_ b') = targets_ (plan_ b)
  /\ nodes (state_ b') = nodes (state_ b).
Proof.
  unfold PlanOps.ScheduleWork. intros H.
  destruct (PlanOps.want_of b e) as [[]|]; try done.
  - destruct (PoolOps.ShouldDelayEdge _); injection H as <-; [|done].
    match goal with
    | |- context [PlanOps.RetrieveReadyEdges ?pid ?b0] =>
        destruct (RetrieveReadyEdges_keeps pid b0)
          as (_ & _ & _ & -> & _ & -> & _)
    end. done.
  - by injection H as <-.
Qed.

Lemma scheduled_from_refl b : scheduled_from b b.
Proof. repeat split. intros e. by left. Qed.

Lemma scheduled_from_pools b b1 b2 :
  scheduled_from b b1 ->
  nodes (state_ b2) = nodes (state_ b1) ->
  edges (state_ b2) = edges (state_ b1) ->
  targets_ (plan_ b2) = targets_ (plan_ b1) ->
  command_edges_ (plan_ b2) = command_edges_ (plan_ b1) ->
  wanted_edges_ (plan_ b2) = wanted_edges_ (plan_ b1) ->
  want_ (plan_ b2) = want_ (plan_ b1) ->
  scheduled_from b b2.
Proof.
  intros (H1 & H2 & H3 & H4 & H5 & H6) E1 E2 E3 E4 E5 E6.
  unfold scheduled_from. rewrite E1, E2, E3, E4, E5, E6. done.
Qed.

Lemma scheduled_from_retrieve (pid : PoolId) b b1 :
  scheduled_from b b1 -> scheduled_from b (PlanOps.RetrieveReadyEdges pid b1).
Proof.
  intros H.
  destruct (RetrieveReadyEdges_keeps pid b1) as (Hw & Hn & Hc & Ht & He & Hno & _).
  by eapply scheduled_from_pools.
Qed.

End InitialEdges.

(** [ScheduleInitialEdges] runs on an empty ready queue only, and all it
    changes in the want map are entries of edges that wait to start and have
    all inputs ready, which become [kWantToFinish]; the nodes, the edges,
    the targets and both counters are untouched. *)
Theorem ScheduleInitialEdges_schedules {X double : Type} `{!Env X double}
    (b b' : Builder X double) :
  PlanOps.ScheduleInitialEdges b = Ret b' ->
  ready_ (plan_ b) = []
  /\ nodes (state_ b') = nodes (state_ b)
  /\ edges (state_ b') = edges (state_ b)
  /\ targets_ (plan_ b') = targets_ (plan_ b)
  /\ command_edges_ (plan_ b') = command_edges_ (plan_ b)
  /\ wanted_edges_ (plan_ b') = wanted_edges_ (plan_ b)
  /\ forall e, want_ (plan_ b') !! e = want_ (plan_ b) !! e
               \/ (want_ (plan_ b) !! e = Some kWantToStart
                   /\ AllInputsReady (state_ b) e = true
                   /\ want_ (plan_ b') !! e = Some kWantToFinish).
Proof.
  unfold PlanOps.ScheduleInitialEdges. intros H.
  case_bool_decide as Hr; cbn [negb] in H; [|done]. split; [done|].
  match type of H with
  | context [for_each ?f ?l ?s0] =>
      pose proof (wp_for_each false
                    (fun st : gset PoolId * Builder X double =>
                       scheduled_from b st.2)
                    f l s0 (scheduled_from_refl b)) as Hloop;
      destruct (for_each f l s0) as [[pools b1]| |]; [|done..]
  end.
  cbn [res_bind] in H. injection H as <-.
  assert (H1 : scheduled_from b b1).
  { apply Hloop. intros [e w] [ps b2] Hin Hb2. cbn [fst snd] in *.
    apply elem_of_map_to_list in Hin.
    destruct (bool_decide (w = kWantToStart) && AllInputsReady (state_ b2) e)
      eqn:Hgo; cbn [negb]; [|done].
    apply andb_prop in Hgo as [Hw Hair]. apply bool_decide_eq_true in Hw.
    subst w. destruct (PoolOps.ShouldDelayEdge _).
    { simpl. by eapply scheduled_from_pools. }
    destruct (PlanOps.ScheduleWork e b2) as [b3| |] eqn:Hsw; [|done..].
    cbn [res_bind]. simpl.
    destruct (ScheduleWork_shape e b2 b3 Hsw) as (_ & Hc & Hwd & w & _ & _ & Hwant).
    destruct (ScheduleWork_targets e b2 b3 Hsw) as [Ht Hn].
    pose proof (ScheduleWork_edges e b2 b3 Hsw) as He.
    destruct Hb2 as (K1 & K2 & K3 & K4 & K5 & K6).
    split; [congruence|]. split; [congruence|]. split; [congruence|].
    split; [congruence|]. split; [congruence|].
    intros e'. rewrite Hwant. destruct (decide (e' = e)) as [->|Hne].
    - right. rewrite lookup_insert_eq. split; [done|]. split; [|done].
      by rewrite <- (AllInputsReady_ext (state_ b) (state_ b2) e K1 K2).
    - rewrite lookup_insert_ne by done. apply K6. }
  clear Hloop. generalize (elements pools). intros l.
  revert b1 H1. induction l as [|pid l IH]; intros b1 H1; [exact H1|].
  cbn [foldl]. apply IH. by apply scheduled_from_retrieve.
Qed.

Lemma ScheduleInitialEdges_schedules_witness :
  exists b',
    PlanOps.ScheduleInitialEdges Sim.b_added = Ret b'
    /\ want_ (plan_ b') !! 0%nat = Some kWantToFinish
    /\ ready_ (plan_ Sim.b_added) = []
    /\ nodes (state_ b') = nodes (state_ Sim.b_added)
    /\ edges (state_ b') = edges (state_ Sim.b_added)
    /\ targets_ (plan_ b') = targets_ (plan_ Sim.b_added)
    /\ command_edges_ (plan_ b') = command_edges_ (plan_ Sim.b_added)
    /\ wanted_edges_ (plan_ b') = wanted_edges_ (plan_ Sim.b_added)
    /\ forall e, want_ (plan_ b') !! e = want_ (plan_ Sim.b_added) !! e
                 \/ (want_ (plan_ Sim.b_added) !! e = Some kWantToStart
                     /\ AllInputsReady (state_ Sim.b_added) e = true
                     /\ want_ (plan_ b') !! e = Some kWantToFinish).
Proof.
  eexists. split; [vm_compute; reflexivity|].
  split; [vm_compute; reflexivity|].
  eapply (ScheduleInitialEdges_schedules Sim.b_added). vm_compute. reflexivity.
Defined.
(** ** [Builder::AddTarget] *)

Section BuilderAddTarget.

Context {X double : Type} `{!Floating double} `{!Env X double}.
Implicit Type b : Builder X double.

Lemma plan_grows_refl b : plan_grows b b.
Proof.
  split; [apply want_grows_refl|]. split; [done|]. split; [|done].
  exists []. by rewrite app_nil_r.
Qed.

Lemma plan_grows_trans b1 b2 b3 :
  plan_grows b1 b2 -> plan_grows b2 b3 -> plan_grows b1 b3.
Proof.
  intros (Hw & Hr & [m1 Ht] & Hm) (Hw' & Hr' & [m2 Ht'] & Hm').
  split; [by eapply want_grows_trans|]. split; [congruence|].
  split; [|congruence]. exists (m1 ++ m2). by rewrite Ht', Ht, app_assoc.
Qed.

Lemma PlanAddTarget_grows (fuel : nat) (t : NodeId) b :
  wp false (fun rb => plan_grows b rb.2) (PlanOps.AddTarget fuel t b).
Proof.
  rewrite AddTarget_unfold.
  pose proof (AddSubTarget_wp false fuel t None None (pushed t b)
                ltac:(done)) as Hwp.
  pose proof (AddSubTarget_members fuel t None None (pushed t b)) as Hm.
  destruct (PlanOps.AddSubTarget fuel t None (None, pushed t b))
    as [[r0 [w b0]]| |]; [|done..].
  simpl in *. destruct Hwp as (H1 & H2 & H3 & H4).
  split; [done|]. split; [done|]. split; [|done]. by exists [t].
Qed.

End BuilderAddTarget.

(** Whatever [Builder::AddTarget] answers, it removes no want entry and
    changes an entry only from [kWantNothing]; it appends to [targets_] (the
    target and validation nodes) and leaves the ready queue, the command
    runner, [running_edges_] and the journals alone. *)
Theorem Builder_AddTarget_grows {X double : Type} `{!Floating double}
    `{!Env X double} (fuel : nat) (t : NodeId) (b b' : Builder X double)
    (r : bool) :
  BuilderOps.AddTarget fuel t b = Ret (r, b') ->
  want_grows (want_ (plan_ b)) (want_ (plan_ b'))
  /\ ready_ (plan_ b') = ready_ (plan_ b)
  /\ (exists more, targets_ (plan_ b') = targets_ (plan_ b) ++ more)
  /\ members b' = members b.
Proof.
  unfold BuilderOps.AddTarget. intros H.
  destruct (scan_RecomputeDirty _ _ _ _) as [[[[ok vs] g] x] e].
  set (b1 := with_err e _) in H.
  assert (H1 : plan_grows b b1) by exact (plan_grows_refl b).
  clearbody b1. destruct ok; cbn [negb] in H.
  2:{ injection H as <- <-. exact H1. }
  assert (H2 : wp false (fun rb => plan_grows b rb.2)
                 match in_edge (node (state_ b1) t) with
                 | Some ie =>
                     if outputs_ready_ (edge (state_ b1) ie) then Ret (true, b1)
                     else PlanOps.AddTarget fuel t b1
                 | None => PlanOps.AddTarget fuel t b1
                 end).
  { assert (Ha : wp false (fun rb => plan_grows b rb.2)
                    (PlanOps.AddTarget fuel t b1)).
    { eapply wp_mono; [|apply PlanAddTarget_grows].
      intros rb Hrb. by eapply plan_grows_trans. }
    destruct (in_edge _) as [ie|]; [|done].
    by destruct (outputs_ready_ _). }
  destruct (match in_edge (node (state_ b1) t) with
            | Some _ => _ | None => _ end) as [[r1 b2]| |]; [|done..].
  cbn [res_bind] in H. simpl in H2. destruct r1; cbn [negb] in H.
  2:{ injection H as <- <-. exact H2. }
  match type of H with
  | all_ok ?f ?l ?s0 = _ =>
      pose proof (wp_all_ok false
                    (fun b' : Builder X double => plan_grows b b')
                    f l s0 H2) as Hl
  end.
  rewrite H in Hl. apply Hl. intros n b3 _ Hb3.
  destruct (in_edge _) as [vie|]; [|done].
  destruct (outputs_ready_ _); [done|].
  eapply wp_mono; [|apply PlanAddTarget_grows].
  intros rb Hrb. by eapply plan_grows_trans.
Qed.

Lemma Builder_AddTarget_grows_witness :
  exists b',
    BuilderOps.AddTarget 2 1%nat
      (Sim.builder0 Sim.g_single Sim.config0 Sim.outside0) = Ret (true, b')
    /\ want_grows (want_ (plan_ (Sim.builder0 Sim.g_single Sim.config0
                                              Sim.outside0)))
                  (want_ (plan_ b'))
    /\ ready_ (plan_ b')
       = ready_ (plan_ (Sim.builder0 Sim.g_single Sim.config0 Sim.outside0))
    /\ (exists more,
          targets_ (plan_ b')
          = targets_ (plan_ (Sim.builder0 Sim.g_single Sim.config0
                                          Sim.outside0)) ++ more)
    /\ members b'
       = members (Sim.builder0 Sim.g_single Sim.config0 Sim.outside0).
Proof.
  eexists. split; [vm_compute; reflexivity|].
  eapply (Builder_AddTarget_grows 2 1%nat). vm_compute. reflexivity.
Defined.
(** ** [Builder::Build] without a failure budget *)

Section PrepareQueueFrame.

Context {X double : Type} `{!Env X double}.
Implicit Type b : Builder X double.

Lemma ComputeCriticalPath_members (fuel : nat) b :
  wp false (fun b' => members b' = members b
                      /\ world b' = world b /\ err b' = err b
                      /\ status_ b' = status_ b)
     (PlanOps.ComputeCriticalPath fuel b).
Proof.
  unfold PlanOps.ComputeCriticalPath.
  by destruct (PlanOps.backflow fuel _).
Qed.

Lemma ScheduleInitialEdges_members b :
  wp false (fun b' => members b' = members b
                      /\ world b' = world b /\ err b' = err b
                      /\ status_ b' = status_ b)
     (PlanOps.ScheduleInitialEdges b).
Proof.
  unfold PlanOps.ScheduleInitialEdges.
  destruct (negb _); [done|].
  match goal with
  | |- context [for_each ?f ?l ?s0] =>
      pose proof (wp_for_each false
                    (fun st : gset PoolId * Builder X double =>
                       members st.2 = members b
                       /\ world st.2 = world b /\ err st.2 = err b
                       /\ status_ st.2 = status_ b)
                    f l s0 ltac:(done)) as Hloop;
      destruct (for_each f l s0) as [[pools b1]| |]; [|done..]
  end.
  cbn [res_bind]. simpl in Hloop.
  assert (H1 : members b1 = members b
               /\ world b1 = world b /\ err b1 = err b
               /\ status_ b1 = status_ b).
  { apply Hloop. intros [e w] [ps b2] _ Hb2. cbn [fst snd] in *.
    destruct (negb _); [done|].
    destruct (PoolOps.ShouldDelayEdge _); [done|].
    unfold PlanOps.ScheduleWork.
    destruct (PlanOps.want_of b2 e) as [[| |]|]; try done.
    destruct (PoolOps.ShouldDelayEdge _); simpl; [|done].
    unfold PlanOps.RetrieveReadyEdges.
    by destruct (PoolOps.RetrieveReadyEdges _ _ _). }
  clear Hloop. generalize (elements pools). intros l.
  revert b1 H1. induction l as [|pid l IH]; intros b1 H1; [exact H1|].
  cbn [foldl]. apply IH. unfold PlanOps.RetrieveReadyEdges.
  by destruct (PoolOps.RetrieveReadyEdges _ _ _).
Qed.

Lemma PrepareQueue_members (fuel : nat) b :
  wp false (fun b' => members b' = members b
                      /\ world b' = world b /\ err b' = err b
                      /\ status_ b' = status_ b)
     (PlanOps.PrepareQueue fuel b).
Proof.
  unfold PlanOps.PrepareQueue.
  pose proof (ComputeCriticalPath_members fuel b) as H1.
  destruct (PlanOps.ComputeCriticalPath fuel b) as [b1| |]; [|done..].
  cbn [res_bind]. simpl in H1. destruct H1 as (M1 & W1 & E1 & S1).
  eapply wp_mono; [|apply ScheduleInitialEdges_members].
  intros b2 (M2 & W2 & E2 & S2). simpl. repeat split; congruence.
Qed.

End PrepareQueueFrame.

(** With a configured failure budget of 0 (and no failed edge on record),
    [Build] starts no command: when the plan has more to do after
    [PrepareQueue], it returns false with the message
    [stuck [this is a bug]]; the command runner it has set up has started
    nothing, the outside world and the journals are as before, and the
    status was told the totals, [BuildStarted] and [BuildFinished]. *)
Theorem Build_without_failure_budget {X double : Type} `{!Floating double}
    `{!Env X double} (fuel : nat) (b b1 : Builder X double) :
  failures_allowed (config_ b) = 0 ->
  failedEdges_ b = [] ->
  BuilderOps.AlreadyUpToDate b = false ->
  PlanOps.PrepareQueue (S fuel) b = Ret b1 ->
  more_to_do (plan_ b1) = true ->
  exists b',
    BuilderOps.Build (S fuel) b = Ret (false, b')
    /\ err b' = "stuck [this is a bug]"
    /\ plan_ b' = plan_ b1
    /\ world b' = world b
    /\ running_edges_ b' = running_edges_ b
    /\ build_log_ b' = build_log_ b
    /\ status_ b' = status_ b ++ [PlanHasTotalEdges (command_edges_ (plan_ b1));
                                  BuildStarted; BuildFinished].
Proof.
  intros Hf Hfe Hup Hpq Hmore. unfold BuilderOps.Build. rewrite Hup, Hpq.
  cbn [res_bind].
  pose proof (PrepareQueue_members (S fuel) b) as Hm. rewrite Hpq in Hm.
  simpl in Hm. destruct Hm as (Hm & Hw & He & Hs).
  injection Hm as Hc _ Hr _ _ Hbl _ Hfl.
  set (b2 := tell BuildStarted _).
  assert (H2 : plan_ b2 = plan_ b1 /\ config_ b2 = config_ b
               /\ failedEdges_ b2 = [] /\ world b2 = world b
               /\ running_edges_ b2 = running_edges_ b
               /\ build_log_ b2 = build_log_ b
               /\ status_ b2 = status_ b
                    ++ [PlanHasTotalEdges (command_edges_ (plan_ b1));
                        BuildStarted]).
  { unfold b2. destruct (command_runner_ _); cbn;
      rewrite ?Hc, ?Hfl, ?Hfe, ?Hw, ?Hr, ?Hbl, ?Hs, <- ?app_assoc; done. }
  clearbody b2. destruct H2 as (P2 & C2 & F2 & W2 & R2 & L2 & S2).
  unfold BuilderOps.cfg_failures_allowed. rewrite C2, Hf.
  cbn [BuilderOps.build_loop]. rewrite P2, Hmore.
  change (0 =? 0) with true. cbn [negb res_bind andb].
  eexists. split; [reflexivity|].
  unfold BuilderOps.no_progress_message, BuilderOps.cfg_failures_allowed.
  cbn. rewrite !F2, !C2, !Hf.
  rewrite (bool_decide_eq_true_2 (@nil string = [])) by done. cbn.
  rewrite S2, <- app_assoc. done.
Qed.

Lemma Build_without_failure_budget_witness :
  exists b',
    BuilderOps.Build 3 SimMore.b_no_budget = Ret (false, b')
    /\ err b' = "stuck [this is a bug]"
    /\ plan_ b' = plan_ SimMore.b_prepared
    /\ world b' = world SimMore.b_no_budget
    /\ running_edges_ b' = running_edges_ SimMore.b_no_budget
    /\ build_log_ b' = build_log_ SimMore.b_no_budget
    /\ status_ b'
       = status_ SimMore.b_no_budget
         ++ [PlanHasTotalEdges (command_edges_ (plan_ SimMore.b_prepared));
             BuildStarted; BuildFinished].
Proof.
  apply (Build_without_failure_budget 2 SimMore.b_no_budget SimMore.b_prepared).
  - reflexivity.
  - reflexivity.
  - vm_compute. reflexivity.
  - vm_compute. reflexivity.
  - vm_compute. reflexivity.
Defined.

(** ** [Plan::UnmarkDependents] *)

Section UnmarkFacts.

Context {X double : Type} `{!Env X double}.
Implicit Type b : Builder X double.
Implicit Type s : gset NodeId * Builder X double.

Lemma elem_of_marked (g : State) (e : EdgeId) :
  e ∈ marked g <-> mark_ (edge g e) <> VisitNone.
Proof.
  unfold marked, edge, lookup_total, map_lookup_total.
  rewrite elem_of_dom. split.
  - intros [ed Hed]. apply map_lookup_filter_Some in Hed as [Hed Hm].
    by rewrite Hed.
  - destruct (edges g !! e) as [ed|] eqn:Hed; simpl; [|done].
    intros Hm. exists ed. by apply map_lookup_filter_Some.
Qed.

Lemma unmarked_from_refl (g : State) : unmarked_from g g.
Proof. split; [done|]. split; [done|]. intros e. by left. Qed.

Lemma unmarked_from_trans (g1 g2 g3 : State) :
  unmarked_from g1 g2 -> unmarked_from g2 g3 -> unmarked_from g1 g3.
Proof.
  intros (Hn & Hp & He) (Hn' & Hp' & He'). split; [congruence|].
  split; [congruence|]. intros e.
  destruct (He e) as [H|H], (He' e) as [H'|H']; rewrite H', H; auto.
Qed.

Lemma unmarked_from_outputs (g g' : State) (e : EdgeId) :
  unmarked_from g g' -> outputs_ (edge g' e) = outputs_ (edge g e).
Proof. intros (_ & _ & He). by destruct (He e) as [-> | ->]. Qed.

Lemma unmarked_from_stays (g g' : State) (e : EdgeId) :
  unmarked_from g g' -> mark_ (edge g e) = VisitNone ->
  mark_ (edge g' e) = VisitNone.
Proof. intros (_ & _ & He) H. by destruct (He e) as [-> | ->]. Qed.

Lemma unmarked_from_marked (g g' : State) :
  unmarked_from g g' -> marked g' ⊆ marked g.
Proof.
  intros H e. rewrite !elem_of_marked. intros Hm Hn. apply Hm.
  by eapply unmarked_from_stays.
Qed.

Lemma unmarked_from_unmark (g : State) (e : EdgeId) :
  unmarked_from g (update_edge e (set_mark VisitNone) g).
Proof.
  split; [done|]. split; [done|]. intros e'. rewrite edge_update_edge.
  destruct (decide (e = e')) as [->|]; auto.
Qed.

Lemma marked_unmark (g : State) (e : EdgeId) :
  mark_ (edge g e) <> VisitNone ->
  (size (marked (update_edge e (set_mark VisitNone) g)) < size (marked g))%nat.
Proof.
  intros Hm. apply subset_size.
  pose proof (unmarked_from_marked _ _ (unmarked_from_unmark g e)) as Hsub.
  assert (e ∈ marked g) by by apply elem_of_marked.
  assert (e ∉ marked (update_edge e (set_mark VisitNone) g)).
  { rewrite elem_of_marked, edge_update_edge, decide_True by done.
    intros Hn. by apply Hn. }
  set_solver.
Qed.

Lemma unmark_step_refl s : unmark_step s s.
Proof.
  split; [apply unmarked_from_refl|]. split; [done|]. split; [done|].
  intros o Ho Hn. done.
Qed.

Lemma unmark_step_trans s1 s2 s3 :
  unmark_step s1 s2 -> unmark_step s2 s3 -> unmark_step s1 s3.
Proof.
  intros (Hg & Hp & Hd & Ho) (Hg' & Hp' & Hd' & Ho').
  split; [by eapply unmarked_from_trans|]. split; [congruence|].
  split; [set_solver|]. intros o Hin Hnin.
  destruct (decide (o ∈ s2.1)) as [H2|H2].
  - destruct (Ho o H2 Hnin) as (e & Hw & Hout & Hm).
    exists e. split; [done|]. split; [done|]. by eapply unmarked_from_stays.
  - destruct (Ho' o Hin H2) as (e & Hw & Hout & Hm).
    exists e. rewrite Hp in Hw. rewrite (unmarked_from_outputs _ _ e Hg) in Hout.
    done.
Qed.

(** [UnmarkDependents] resets marks and collects dependents; it returns once
    the budget exceeds the number of marked edges. *)
Lemma UnmarkDependents_wp (strict : bool) (fuel : nat) :
  forall (n : NodeId) s,
    (strict = true -> (size (marked (state_ s.2)) < fuel)%nat) ->
    wp strict (fun s' => unmark_step s s') (PlanOps.UnmarkDependents fuel n s).
Proof.
  induction fuel as [|fuel IH]; intros n s Hs.
  { simpl. destruct strict; [|done]. specialize (Hs eq_refl). lia. }
  cbn [PlanOps.UnmarkDependents].
  apply (wp_for_each strict (fun s' => unmark_step s s'));
    [apply unmark_step_refl|].
  intros oe [deps b] _ Hb. cbn [fst snd] in *.
  destruct (PlanOps.want_of b oe) as [w|] eqn:Hw; [|done].
  case_bool_decide as Hm; [|done].
  set (b1 := with_state (update_edge oe (set_mark VisitNone) (state_ b)) b).
  assert (H1 : unmark_step (deps, b) (deps, b1)).
  { split; [apply unmarked_from_unmark|]. split; [done|]. split; [done|].
    intros o Ho Hn. done. }
  assert (Hsz : strict = true -> (size (marked (state_ b1)) < fuel)%nat).
  { intros Hst. specialize (Hs Hst).
    pose proof (subseteq_size _ _ (unmarked_from_marked _ _ (proj1 Hb))).
    pose proof (marked_unmark (state_ b) oe Hm).
    unfold b1. cbn [state_ with_state]. simpl in *. lia. }
  assert (Hmark : mark_ (edge (state_ b1) oe) = VisitNone).
  { unfold b1. cbn [state_ with_state].
    by rewrite edge_update_edge, decide_True. }
  eapply wp_mono; last first.
  - apply (wp_for_each strict
             (fun s' : gset NodeId * Builder X double =>
                unmark_step (deps, b1) s'
                /\ forall o, o ∈ s'.1 -> o ∉ deps ->
                     exists e, is_Some (want_ (plan_ b) !! e)
                               /\ o ∈ outputs_ (edge (state_ b) e)
                               /\ mark_ (edge (state_ s'.2) e) = VisitNone));
      [split; [apply unmark_step_refl|done]|].
    intros o [deps' b'] Hin [Hb' Hprov]. cbn [fst snd] in *.
    case_bool_decide as Hd; [done|].
    assert (Hsz' : strict = true -> (size (marked (state_ b')) < fuel)%nat).
    { intros Hst. specialize (Hsz Hst).
      pose proof (subseteq_size _ _ (unmarked_from_marked _ _ (proj1 Hb'))).
      simpl in *. lia. }
    pose proof (IH o ({[o]} ∪ deps', b') Hsz') as Hrec.
    destruct (PlanOps.UnmarkDependents fuel o ({[o]} ∪ deps', b'))
      as [[deps'' b'']| |]; simpl in *; try done.
    assert (Hins : unmark_step (deps', b') ({[o]} ∪ deps', b')).
    { split; [apply unmarked_from_refl|]. split; [done|].
      split; [set_solver|]. cbn [fst snd]. intros o' Ho' Hn'.
      assert (o' = o) as -> by set_solver.
      exists oe. destruct Hb' as (Hg' & Hp' & _). cbn [fst snd] in *.
      split; [|split].
      - rewrite Hp'. change (plan_ b1) with (plan_ b).
        unfold PlanOps.want_of in Hw. rewrite Hw. eauto.
      - rewrite (unmarked_from_outputs _ _ oe Hg'). exact Hin.
      - by eapply unmarked_from_stays. }
    pose proof (unmark_step_trans _ _ _ Hb'
                  (unmark_step_trans _ _ _ Hins Hrec)) as Hall.
    split; [exact Hall|].
    intros o' Ho' Hn'. destruct Hall as (Hg & Hp & Hsub & Hprov').
    destruct (Hprov' o' Ho' Hn') as (e & Hwe & Hout & Hme).
    exists e. split; [done|]. split; [|done].
    cbn [fst snd] in Hout. unfold b1 in Hout. cbn [state_ with_state] in Hout.
    by rewrite (unmarked_from_outputs _ _ e (unmarked_from_unmark _ oe)) in Hout.
  - intros [deps' b'] [Hstep _]. simpl.
    eapply unmark_step_trans; [exact Hb|].
    eapply unmark_step_trans; [exact H1|exact Hstep].
Qed.

End UnmarkFacts.

(** [UnmarkDependents] resets marks to [VisitNone] and collects nodes,
    nothing else: the nodes, the pools, every other field of every edge and
    the plan are as before, the set of dependents only grows, and every node
    that joined it is an output of an edge that has a want entry and whose
    mark is [VisitNone] afterwards. *)
Theorem UnmarkDependents_unmarks {X double : Type} `{!Env X double}
    (fuel : nat) (n : NodeId) (deps deps' : gset NodeId)
    (b b' : Builder X double) :
  PlanOps.UnmarkDependents fuel n (deps, b) = Ret (deps', b') ->
  unmarked_from (state_ b) (state_ b')
  /\ plan_ b' = plan_ b
  /\ deps ⊆ deps'
  /\ forall o, o ∈ deps' -> o ∉ deps ->
       exists e, is_Some (want_ (plan_ b) !! e)
                 /\ o ∈ outputs_ (edge (state_ b) e)
                 /\ mark_ (edge (state_ b') e) = VisitNone.
Proof.
  intros H. pose proof (UnmarkDependents_wp false fuel n (deps, b)
                          ltac:(done)) as Hwp.
  rewrite H in Hwp. exact Hwp.
Qed.

Lemma UnmarkDependents_unmarks_witness :
  exists deps' b',
    PlanOps.UnmarkDependents 3 0%nat (∅, SimMore.b_marked) = Ret (deps', b')
    /\ deps' = {[1%nat; 2%nat]}
    /\ unmarked_from (state_ SimMore.b_marked) (state_ b')
    /\ plan_ b' = plan_ SimMore.b_marked
    /\ ∅ ⊆ deps'
    /\ forall o, o ∈ deps' -> o ∉ (∅ : gset NodeId) ->
         exists e, is_Some (want_ (plan_ SimMore.b_marked) !! e)
                   /\ o ∈ outputs_ (edge (state_ SimMore.b_marked) e)
                   /\ mark_ (edge (state_ b') e) = VisitNone.
Proof.
  eexists _, _. split; [vm_compute; reflexivity|].
  split; [vm_compute; reflexivity|].
  eapply (UnmarkDependents_unmarks 3 0%nat ∅). vm_compute. reflexivity.
Defined.

(** [UnmarkDependents] returns, on cyclic graphs too: it goes down from an
    edge only after it has reset the mark of the edge, so a budget of the
    model above the number of marked edges suffices. *)
Theorem UnmarkDependents_returns {X double : Type} `{!Env X double}
    (fuel : nat) (n : NodeId) (deps : gset NodeId) (b : Builder X double) :
  (size (marked (state_ b)) < fuel)%nat ->
  exists deps' b', PlanOps.UnmarkDependents fuel n (deps, b) = Ret (deps', b').
Proof.
  intros Hsz.
  destruct (wp_returns _ _ (UnmarkDependents_wp true fuel n (deps, b)
                              (fun _ => Hsz))) as ([deps' b'] & E & _).
  eauto.
Qed.

Lemma UnmarkDependents_returns_witness :
  exists deps' b',
    PlanOps.UnmarkDependents 3 0%nat (∅, SimMore.b_marked) = Ret (deps', b').
Proof.
  apply (UnmarkDependents_returns 3 0%nat ∅ SimMore.b_marked).
  vm_compute. lia.
Defined.
(** ** [Plan::CleanNode] and the counters *)

Section CleanCounts.

Context {X double : Type} `{!Env X double}.
Implicit Type b : Builder X double.

Variable m : gmap EdgeId Z.

Lemma ranked_down (g : State) (e oe : EdgeId) (o : NodeId) :
  downstream_ranked g m ->
  o ∈ outputs_ (edge g e) -> oe ∈ out_edges (node g o) ->
  depth_of m oe < depth_of m e.
Proof.
  intros Hr Ho Hoe. unfold edge, lookup_total, map_lookup_total in Ho.
  destruct (edges g !! e) as [ed|] eqn:Hed; simpl in Ho;
    [|by apply elem_of_nil in Ho].
  specialize (Hr e ed Hed). unfold ranked_edge in Hr.
  rewrite forallb_forall in Hr. apply list_elem_of_In in Ho.
  specialize (Hr o Ho). rewrite forallb_forall in Hr.
  apply list_elem_of_In in Hoe. specialize (Hr oe Hoe). by apply Z.ltb_lt.
Qed.

Lemma only_cleaned_out_edges (g g' : State) (n : NodeId) :
  only_cleaned g g' -> out_edges (node g' n) = out_edges (node g n).
Proof. intros (_ & _ & Hn). by destruct (Hn n) as [-> | ->]. Qed.

Lemma only_cleaned_ranked (g g' : State) :
  only_cleaned g g' -> downstream_ranked g m -> downstream_ranked g' m.
Proof.
  intros Hc Hr e ed Hed. rewrite (proj1 Hc) in Hed.
  specialize (Hr e ed Hed). unfold ranked_edge in *.
  rewrite forallb_forall in Hr. rewrite forallb_forall. intros o Ho.
  rewrite (only_cleaned_out_edges _ _ o Hc). by apply Hr.
Qed.

Lemma want_retired_dom (m1 m2 : gmap EdgeId Want) :
  want_retired m1 m2 -> dom m2 = dom m1.
Proof.
  intros H. apply set_eq. intros e. rewrite !elem_of_dom.
  destruct (H e) as [-> |[Hs ->]]; [done|]. split; eauto.
Qed.

Lemma tidied_refl b : tidied b b.
Proof. split; [apply only_cleaned_refl|apply want_retired_refl]. Qed.

Lemma tidied_trans b1 b2 b3 : tidied b1 b2 -> tidied b2 b3 -> tidied b1 b3.
Proof.
  intros [H1 H2] [H1' H2'].
  split; [by eapply only_cleaned_trans|by eapply want_retired_trans].
Qed.

Lemma tidied_countable b b' :
  tidied b b' -> countable_plan b -> countable_plan b'.
Proof.
  intros [_ Hw] Hc. unfold countable_plan in *.
  by rewrite <- size_dom, (want_retired_dom _ _ Hw), size_dom.
Qed.

Lemma counts_retire (g : State) (mw : gmap EdgeId Want) (e : EdgeId) (w : Want) :
  mw !! e = Some w -> w <> kWantNothing ->
  Counts.wanted_count (<[e := kWantNothing]> mw) = Counts.wanted_count mw - 1
  /\ Counts.command_count g (<[e := kWantNothing]> mw)
     = Counts.command_count g mw - (if is_phony (edge g e) then 0 else 1).
Proof.
  intros Hm Hw. unfold Counts.wanted_count, Counts.command_count,
    Counts.wanted, Counts.commands.
  pose proof (size_filter_insert
                (fun kv : EdgeId * Want => kv.2 <> kWantNothing)
                mw e kWantNothing) as H1.
  pose proof (size_filter_insert
                (fun kv : EdgeId * Want =>
                   kv.2 <> kWantNothing /\ is_phony (edge g kv.1) = false)
                mw e kWantNothing) as H2.
  cbn [fst snd] in H1, H2. rewrite Hm in H1, H2.
  rewrite (decide_True (P := w <> kWantNothing)) in H1 by done.
  rewrite (decide_False (P := kWantNothing <> kWantNothing)) in H1 by tauto.
  rewrite (decide_False (P := kWantNothing <> kWantNothing /\ _)) in H2 by tauto.
  destruct (is_phony (edge g e)) eqn:Hp.
  - rewrite decide_False in H2 by (intros [_ ?]; done). lia.
  - rewrite decide_True in H2 by done. lia.
Qed.

Lemma changes_above_refl (top : list EdgeId) b : changes_above m top b b.
Proof. intros e He. done. Qed.

Lemma changes_above_trans (top : list EdgeId) b1 b2 b3 :
  changes_above m top b1 b2 -> changes_above m top b2 b3 ->
  changes_above m top b1 b3.
Proof.
  intros H H' e He.
  destruct (decide (want_ (plan_ b2) !! e = want_ (plan_ b1) !! e)) as [E|E].
  - apply H'. congruence.
  - by apply H.
Qed.

(** Retiring the entry of an edge that is wanted keeps the counters in
    step. *)
Lemma retire_counts (oe : EdgeId) (w : Want) b :
  want_ (plan_ b) !! oe = Some w -> w <> kWantNothing ->
  countable_plan b -> counts_agree b ->
  let b' := PlanOps.set_want oe kWantNothing b in
  let p := plan_with_wanted_edges
             (Int.to_int (wanted_edges_ (plan_ b') - 1)) (plan_ b') in
  let p := if is_phony (edge (state_ b') oe) then p
           else plan_with_command_edges
                  (Int.to_int (command_edges_ p - 1)) p in
  counts_agree (with_plan p b').
Proof.
  intros Hw Hne Hcnt [Hc1 Hc2]. cbv zeta.
  destruct (counts_retire (state_ b) (want_ (plan_ b)) oe w Hw Hne) as [R1 R2].
  pose proof (wanted_count_le (want_ (plan_ b))) as L1.
  pose proof (command_count_le (state_ b) (want_ (plan_ b))) as L2.
  pose proof (wanted_count_le (<[oe := kWantNothing]> (want_ (plan_ b)))) as L1'.
  pose proof (command_count_le (state_ b)
                (<[oe := kWantNothing]> (want_ (plan_ b)))) as L2'.
  unfold countable_plan in Hcnt. unfold counts_agree, PlanOps.set_want.
  cbn [plan_ state_ with_plan plan_with_want want_ wanted_edges_ command_edges_].
  destruct (is_phony (edge (state_ b) oe)) eqn:Hp;
    cbn [plan_with_wanted_edges plan_with_command_edges plan_with_want want_
         wanted_edges_ command_edges_];
    rewrite R1, R2, Hc1, ?Hc2;
    (split; [rewrite to_int_small by (unfold Int.is_int; lia); lia|]);
    rewrite ?to_int_small by (unfold Int.is_int; lia); lia.
Qed.

(** Under a layering, [CleanNode] changes entries at or above the edges
    that consume the node only, and keeps the counters in step. *)
Lemma CleanNode_counts (fuel : nat) :
  forall (n : NodeId) b,
    downstream_ranked (state_ b) m -> countable_plan b ->
    wp false
       (fun rb => tidied b rb.2
                  /\ changes_above m (out_edges (node (state_ b) n)) b rb.2
                  /\ (counts_agree b -> counts_agree rb.2))
       (PlanOps.CleanNode fuel n b).
Proof.
  induction fuel as [|fuel IH]; intros n b Hrk Hcnt; [done|].
  cbn [PlanOps.CleanNode].
  set (b0 := with_state (update_node n (set_dirty false) (state_ b)) b).
  assert (Hout0 : out_edges (node (state_ b0) n) = out_edges (node (state_ b) n))
    by apply (only_cleaned_out_edges _ _ n (only_cleaned_clean (state_ b) n)).
  rewrite Hout0. set (top := out_edges (node (state_ b) n)).
  assert (H0 : tidied b b0).
  { split; [apply only_cleaned_clean|apply want_retired_refl]. }
  apply (wp_all_ok false
           (fun b' : Builder X double =>
              tidied b b' /\ changes_above m top b b'
              /\ (counts_agree b -> counts_agree b'))).
  { split; [exact H0|]. split; [exact (changes_above_refl top b)|done]. }
  intros oe b1 Hoe (Hb1 & Hch1 & Hc1).
  destruct (PlanOps.want_of b1 oe) as [w|] eqn:Hw; [|done].
  assert (Hgo : w <> kWantNothing ->
    wp false
      (fun rb => tidied b rb.2 /\ changes_above m top b rb.2
                 /\ (counts_agree b -> counts_agree rb.2))
      (if deps_missing_ (edge (state_ b1) oe) then Ret (true, b1)
       else
         let ins := inputs_ (edge (state_ b1) oe) in
         let non_order_only :=
           take (length ins - order_only_deps_ (edge (state_ b1) oe)) ins in
         if forallb (fun i => negb (dirty (node (state_ b1) i)))
                    non_order_only then
           let '(ok, outputs_dirty, e) :=
             scan_RecomputeOutputsDirty
               oe (PlanOps.most_recent_input (state_ b1) non_order_only)
               (state_ b1) (world b1) (err b1) in
           let b := with_err e b1 in
           if negb ok then Ret (false, b)
           else if negb outputs_dirty then
             let* (r, b) := all_ok (PlanOps.CleanNode fuel)
                              (outputs_ (edge (state_ b) oe)) b in
             if negb r then Ret (false, b)
             else
               let b := PlanOps.set_want oe kWantNothing b in
               let p := plan_ b in
               let p := plan_with_wanted_edges
                          (Int.to_int (wanted_edges_ p - 1)) p in
               let p := if is_phony (edge (state_ b) oe) then p
                        else plan_with_command_edges
                               (Int.to_int (command_edges_ p - 1)) p in
               Ret (true, with_plan p b)
           else Ret (true, b)
         else Ret (true, b1))).
  { intros Hne. destruct (deps_missing_ _); [done|]. cbv zeta.
    destruct (forallb _ _); [|done].
    destruct (scan_RecomputeOutputsDirty _ _ _ _ _) as [[ok od] e'].
    destruct ok; cbn [negb]; [|done]. destruct od; cbn [negb]; [done|].
    set (b2 := with_err e' b1).
    assert (H12 : tidied b1 b2) by exact (tidied_refl b1).
    assert (Hrk2 : downstream_ranked (state_ b2) m)
      by exact (only_cleaned_ranked _ _ (proj1 Hb1) Hrk).
    assert (Hcnt2 : countable_plan b2)
      by exact (tidied_countable _ _ Hb1 Hcnt).
    pose proof (wp_all_ok false
                  (fun b' : Builder X double =>
                     tidied b2 b'
                     /\ (forall e, want_ (plan_ b') !! e <> want_ (plan_ b2) !! e ->
                                   depth_of m e < depth_of m oe)
                     /\ (counts_agree b2 -> counts_agree b'))
                  (PlanOps.CleanNode fuel) (outputs_ (edge (state_ b2) oe)) b2)
      as Hin.
    destruct (all_ok (PlanOps.CleanNode fuel) _ b2) as [[r b3]| |]; [|done..].
    cbn [res_bind]. simpl in Hin.
    destruct Hin as (H23 & Hch23 & Hc23).
    { split; [apply tidied_refl|]. split; [done|done]. }
    { intros o s Ho (Hs & Hchs & Hcs).
      pose proof (IH o s (only_cleaned_ranked _ _ (proj1 Hs) Hrk2)
                    (tidied_countable _ _ Hs Hcnt2)) as Hrec.
      destruct (PlanOps.CleanNode fuel o s) as [[r' s']| |]; try done.
      simpl in *. destruct Hrec as (Hcl & Hch' & Hc').
      split; [by eapply tidied_trans|]. split; [|tauto].
      intros e He.
      destruct (decide (want_ (plan_ s) !! e = want_ (plan_ b2) !! e)) as [E|E];
        [|by apply Hchs].
      assert (He' : want_ (plan_ s') !! e <> want_ (plan_ s) !! e)
        by (intros H'; apply He; rewrite H'; exact E).
      destruct (Hch' e He') as (oe' & Hoe' & Hle).
      rewrite (only_cleaned_out_edges _ _ o (proj1 Hs)) in Hoe'.
      pose proof (ranked_down _ oe oe' o Hrk2 Ho Hoe'). lia. }
    assert (Habove : changes_above m top b2 b3).
    { intros e He. exists oe. split; [done|].
      pose proof (Hch23 e He). lia. }
    assert (H13 : tidied b b3)
      by exact (tidied_trans _ _ _ Hb1 (tidied_trans _ _ _ H12 H23)).
    assert (Hc13 : counts_agree b -> counts_agree b3) by tauto.
    assert (Hch13 : changes_above m top b b3)
      by (eapply changes_above_trans; [exact Hch1|exact Habove]).
    destruct r; cbn [negb]; [|done].
    assert (Hw3 : want_ (plan_ b3) !! oe = Some w).
    { destruct (decide (want_ (plan_ b3) !! oe = want_ (plan_ b2) !! oe)) as [E|E].
      - rewrite E. exact Hw.
      - pose proof (Hch23 oe E). lia. }
    set (b4 := with_plan _ _).
    assert (H34 : tidied b3 b4).
    { split; [apply only_cleaned_refl|].
      intros e. unfold b4. cbn.
      destruct (decide (e = oe)) as [->|Hne'].
      - right. split; [by rewrite Hw3|].
        by destruct (is_phony _); cbn; rewrite lookup_insert_eq.
      - left. destruct (is_phony _); cbn; by rewrite lookup_insert_ne. }
    simpl. split; [by eapply tidied_trans|]. split.
    - eapply changes_above_trans; [exact Hch13|].
      intros e He. exists oe. split; [done|].
      destruct (decide (e = oe)) as [->|Hd]; [lia|]. exfalso. apply He.
      unfold b4. destruct (is_phony _); cbn; by rewrite lookup_insert_ne.
    - intros Hc. apply (retire_counts oe w b3 Hw3 Hne).
      + exact (tidied_countable _ _ H13 Hcnt).
      + by apply Hc13. }
  destruct w; [done|by apply Hgo..].
Qed.

End CleanCounts.

(** [Plan::CleanNode] keeps the counters [wanted_edges_] and
    [command_edges_] equal to the numbers of wanted entries and of wanted
    entries of non-phony edges, when the consumers of an edge's outputs
    rank below the edge: every entry it retires was wanted, and is
    retired once. *)
Theorem CleanNode_keeps_counts {X double : Type} `{!Env X double}
    (m : gmap EdgeId Z) (fuel : nat) (n : NodeId) (b b' : Builder X double)
    (r : bool) :
  downstream_ranked (state_ b) m -> countable_plan b -> counts_agree b ->
  PlanOps.CleanNode fuel n b = Ret (r, b') ->
  counts_agree b'.
Proof.
  intros Hrk Hcnt Hc H.
  pose proof (CleanNode_counts m fuel n b Hrk Hcnt) as Hwp.
  rewrite H in Hwp. simpl in Hwp. tauto.
Qed.

Lemma CleanNode_keeps_counts_witness :
  exists b',
    PlanOps.CleanNode 2 1%nat SimMore.b_chain = Ret (true, b')
    /\ wanted_edges_ (plan_ SimMore.b_chain) = 2
    /\ wanted_edges_ (plan_ b') = 1
    /\ counts_agree b'.
Proof.
  eexists. split; [vm_compute; reflexivity|].
  split; [vm_compute; reflexivity|].
  split; [vm_compute; reflexivity|].
  eapply (CleanNode_keeps_counts SimMore.chain_depth 2 1%nat SimMore.b_chain).
  - apply (bool_decide_unpack (map_Forall _ _)). vm_compute. exact I.
  - vm_compute. reflexivity.
  - split; vm_compute; reflexivity.
  - vm_compute. reflexivity.
Defined.
